(** * KV cache variants and sharding environment of jetstream_pt

    A shallow embedding of [jetstream_pt/cache_manager.py] and
    [jetstream_pt/environment.py], with the properties the specification
    states about them.

    Conventions of the embedding.
    - A Python call that may raise returns a [result]: [Ok v] for a normal
      return, [Raise e] for an exception.
    - A 4-D tensor (batch, heads, seq, head_dim) is a list nested four deep,
      indexed [b], [h], [s], [d] in that order.
    - A wide-dtype tensor holds finite floating-point numbers, each given
      by its rational value ([Q]); a division rounds to the nearest number
      of the tensor's format ([round_to]) and yields a [float_value], which may be
      an infinity or NaN.  Tensors that hold NaN or an infinity are not
      represented.  int8 elements are integers in [-128, 127].
    - XLATensor2 is a wrapper with one field holding the JAX array;
      [wrap] and [unwrap] are its constructor and projection. *)

From Stdlib Require Import ZArith QArith Qround Qminmax Qabs Qpower Lia Lqa.
From Stdlib Require Import String Ascii.
From stdpp Require Import base option list gmap strings.

Local Open Scope Z_scope.

(** ** Python exceptions and results *)

Inductive exn : Type :=
| AttributeError
| IndexError
| TypeError
| ValueError
| OSError
| RuntimeError (args : list string).

Inductive result (A : Type) : Type :=
| Ok (a : A)
| Raise (e : exn).

Arguments Ok {A} a.
Arguments Raise {A} e.

(** Sequencing: the first exception raised ends the computation.  With
    these instances stdpp's [x ← r; k] reads as Python's statement order. *)
#[global] Instance result_ret : MRet result := fun _ a => Ok a.
#[global] Instance result_bind : MBind result := fun _ _ k r =>
  match r with
  | Ok a => k a
  | Raise e => Raise e
  end.

Definition is_ok {A} (r : result A) : bool :=
  match r with Ok _ => true | Raise _ => false end.

(** ** environment.py: process_sharding_name *)

Module Naming.

Local Open Scope string_scope.

Definition dot : ascii := "."%char.

(** [str.split(".")]: the pieces between the dots, never an empty list. *)
Fixpoint split (s : string) : list string :=
  match s with
  | EmptyString => [EmptyString]
  | String c rest =>
      if Ascii.eqb c dot then EmptyString :: split rest
      else match split rest with
           | [] => [String c EmptyString]
           | t :: ts => String c t :: ts
           end
  end.

(** [".".join(tokens)] *)
Fixpoint join (tokens : list string) : string :=
  match tokens with
  | [] => EmptyString
  | [t] => t
  | t :: ts => t ++ String dot (join ts)
  end.

(** [dot in s] *)
Fixpoint has_dot (s : string) : bool :=
  match s with
  | EmptyString => false
  | String c rest => Ascii.eqb c dot || has_dot rest
  end.

(** A name is a string of code points below 256, one per [ascii].

    Characters [int()] strips from both ends of its argument: tab to
    carriage return and the blank, and the two further blanks below 256,
    U+0085 and U+00A0. *)
Definition is_space (c : ascii) : bool :=
  let n := nat_of_ascii c in
  ((9 <=? n)%nat && (n <=? 13)%nat) || (n =? 32)%nat
  || (n =? 133)%nat || (n =? 160)%nat.

Definition is_digit (c : ascii) : bool :=
  let n := nat_of_ascii c in (48 <=? n)%nat && (n <=? 57)%nat.

Definition underscore : ascii := "_"%char.

Fixpoint lstrip (s : string) : string :=
  match s with
  | String c rest => if is_space c then lstrip rest else s
  | EmptyString => EmptyString
  end.

(** [digits_tail s]: [s] continues a decimal literal after a digit: more
    digits, single underscores each followed by a digit, then only
    whitespace up to the end. *)
Fixpoint only_spaces (s : string) : bool :=
  match s with
  | EmptyString => true
  | String c rest => is_space c && only_spaces rest
  end.

Fixpoint digits_tail (s : string) : bool :=
  match s with
  | EmptyString => true
  | String c rest =>
      if is_digit c then digits_tail rest
      else if Ascii.eqb c underscore then
        match rest with
        | String d rest' => is_digit d && digits_tail rest'
        | EmptyString => false
        end
      else only_spaces s
  end.

Definition drop_sign (s : string) : string :=
  match s with
  | String c rest =>
      if Ascii.eqb c "+"%char || Ascii.eqb c "-"%char then rest else s
  | EmptyString => EmptyString
  end.

Fixpoint count_digits (s : string) : nat :=
  match s with
  | EmptyString => 0
  | String c rest => (if is_digit c then 1 else 0) + count_digits rest
  end.

(** [sys.int_info.default_max_str_digits]: [int()] raises ValueError for a
    literal with more digits, unless the interpreter is set up otherwise. *)
Definition max_str_digits : nat := 4300.

(** The local function [is_integer]: [int(t)] returns instead of raising.
    The bare [except] turns every exception into [False]. *)
Definition is_integer (t : string) : bool :=
  match drop_sign (lstrip t) with
  | String c rest =>
      is_digit c && digits_tail rest
      && (count_digits (String c rest) <=? max_str_digits)%nat
  | EmptyString => false
  end.

Definition star : string := "*".

(** The loop [for i, t in enumerate(tokens): if is_integer(t): tokens[i] = "*"],
    writing into the list it walks. *)
Section Loop.
Variable is_int : string -> bool.

Fixpoint replace_loop (i : nat) (todo tokens : list string) : list string :=
  match todo with
  | [] => tokens
  | t :: rest =>
      replace_loop (S i) rest
        (if is_int t then <[i := star]> tokens else tokens)
  end.

Definition process_with (name : string) : string :=
  let tokens := split name in
  join (replace_loop 0 tokens tokens).

Definition wildcard (t : string) : string :=
  if is_int t then star else t.
End Loop.

Definition process_sharding_name (name : string) : string :=
  process_with is_integer name.

End Naming.

(** ** Python sequences *)

(** Python's index normalisation: a negative index counts from the end;
    what is still outside [0, size) afterwards is out of range. *)
Definition norm_index (size : nat) (i : Z) : option nat :=
  if decide (0 <= i < Z.of_nat size) then Some (Z.to_nat i)
  else if decide (- Z.of_nat size <= i < 0) then Some (Z.to_nat (i + Z.of_nat size))
  else None.

(** [l[i]] *)
Definition py_getitem {A} (l : list A) (i : Z) : result A :=
  match norm_index (length l) i with
  | Some n => match l !! n with Some x => Ok x | None => Raise IndexError end
  | None => Raise IndexError
  end.

(** [l[i] = x] *)
Definition py_setitem {A} (l : list A) (i : Z) (x : A) : result (list A) :=
  match norm_index (length l) i with
  | Some n => Ok (<[n := x]> l)
  | None => Raise IndexError
  end.

(** [l.index(x)]: position of the first occurrence, ValueError if none. *)
Fixpoint py_index `{EqDecision A} (l : list A) (x : A) : result Z :=
  match l with
  | [] => Raise ValueError
  | y :: l' => if decide (y = x) then Ok 0 else (i ← py_index l' x; Ok (1 + i))
  end.

(** [[x] * n]; a negative count gives the empty list. *)
Definition py_repeat {A} (x : A) (n : Z) : list A := replicate (Z.to_nat n) x.

(** ** Tensors *)

Abbreviation tensor3 A := (list (list (list A))) (only parsing).
Abbreviation tensor4 A := (list (list (list (list A)))) (only parsing).
Definition shape : Type := (nat * nat * nat * nat)%type.

Definition get3 {A} (t : tensor3 A) (i j k : nat) : option A :=
  row ← (m ← t !! i; m !! j); row !! k.

Definition get4 {A} (t : tensor4 A) (b h s d : nat) : option A :=
  m ← t !! b; get3 m h s d.

Definition has_shape3 {A} (n1 n2 n3 : nat) (t : tensor3 A) : Prop :=
  length t = n1 /\
  Forall (fun m => length m = n2 /\ Forall (fun row => length row = n3) m) t.

Definition has_shape4 {A} (sh : shape) (t : tensor4 A) : Prop :=
  let '(nb, nh, ns, nd) := sh in
  length t = nb /\ Forall (has_shape3 nh ns nd) t.

#[global] Instance has_shape3_dec {A} n1 n2 n3 (t : tensor3 A) :
  Decision (has_shape3 n1 n2 n3 t).
Proof. unfold has_shape3. apply _. Defined.

#[global] Instance has_shape4_dec {A} sh (t : tensor4 A) :
  Decision (has_shape4 sh t).
Proof. destruct sh as [[[nb nh] ns] nd]. unfold has_shape4. apply _. Defined.

(** [t.shape], read off the first element along each axis. *)
Definition shape4 {A} (t : tensor4 A) : shape :=
  let m := default [] (head t) in
  let r := default [] (head m) in
  (length t, length m, length r, length (default [] (head r))).

Definition full4 {A} (sh : shape) (x : A) : tensor4 A :=
  let '(nb, nh, ns, nd) := sh in
  replicate nb (replicate nh (replicate ns (replicate nd x))).

Definition map4 {A B} (f : A -> B) (t : tensor4 A) : tensor4 B :=
  (fun m : tensor3 A =>
     (fun mat : list (list A) => (fun row : list A => f <$> row) <$> mat) <$> m)
  <$> t.

(** A tensor without its axis 2, which has extent 1. *)
Definition drop_axis2 {A} (t : tensor4 A) : tensor3 A :=
  (fun m : tensor3 A =>
     (fun mat : list (list A) => default [] (head mat)) <$> m) <$> t.

(** What [torch.squeeze(t, 2)] returns for a 4-D tensor: a 3-D tensor when
    axis 2 has extent 1, the tensor itself otherwise. *)
Inductive squeezed (A : Type) : Type :=
| Squeezed (t : tensor3 A)
| Unchanged (t : tensor4 A).

Arguments Squeezed {A} t.
Arguments Unchanged {A} t.

Definition squeeze2 {A} (t : tensor4 A) : squeezed A :=
  let '(_, _, ns, _) := shape4 t in
  if decide (ns = 1%nat) then Squeezed (drop_axis2 t) else Unchanged t.

(** [torch.arange(n)] *)
Definition arange (n : nat) : list Z := seqZ 0 (Z.of_nat n).

(** *** The indexed store [x.at[batch, :, pos].set(upd)]

    [batch] and [pos] are index vectors, broadcast against each other to
    one length n; entry i addresses the heads-by-head_dim slab of [x] at row
    [batch[i]], column [pos[i]], and receives slab [upd[i]].  JAX normalises
    negative indices the Python
    way and, in its default mode, drops the updates whose index is still
    out of range; nothing is raised for an index.  The update is broadcast
    to the shape of the addressed region, (n, heads, head_dim): an axis of
    extent 1 is repeated; an update that cannot be broadcast, such as a 4-D
    one, is a ValueError. *)

(** One axis of a broadcast: the list as it is when it has extent [n], its
    element [n] times when it has extent 1. *)
Definition broadcast_axis {X} (n : nat) (l : list X) : option (list X) :=
  if decide (length l = n) then Some l
  else match l with
       | [x] => Some (replicate n x)
       | _ => None
       end.

(** [jnp.broadcast_to(t, (n1, n2, n3))] for a 3-D tensor. *)
Definition broadcast3 {A} (n1 n2 n3 : nat) (t : tensor3 A) : option (tensor3 A) :=
  t' ← mapM (fun m : list (list A) =>
               m' ← mapM (broadcast_axis n3) m; broadcast_axis n2 m') t;
  broadcast_axis n1 t'.

(** The two index vectors broadcast against each other: one of extent 1
    is repeated to the extent of the other. *)
Definition broadcast_indices (batch pos : list Z) : option (list Z * list Z) :=
  let n := if decide (length batch = 1%nat) then length pos else length batch in
  b ← broadcast_axis n batch; p ← broadcast_axis n pos; Some (b, p).

Definition set_column {A} (p : nat) (slab : list (list A))
    (m : list (list (list A))) : list (list (list A)) :=
  imap (fun h mat => match slab !! h with
                     | Some row => <[p := row]> mat
                     | None => mat
                     end) m.

(** What one batch row becomes when slab [slab] is stored at position [p]:
    the column [p] denotes is overwritten, or nothing is when [p] is out of
    range. *)
Definition write_row {A} (nc : nat) (p : Z) (slab : list (list A))
    (m : tensor3 A) : tensor3 A :=
  match norm_index nc p with
  | Some p' => set_column p' slab m
  | None => m
  end.

Fixpoint scatter {A} (nb nc : nat) (x : tensor4 A)
    (batch pos : list Z) (upd : tensor3 A) : tensor4 A :=
  match batch, pos, upd with
  | b :: batch', p :: pos', slab :: upd' =>
      let x' := match norm_index nb b, norm_index nc p with
                | Some b', Some p' => alter (set_column p' slab) b' x
                | _, _ => x
                end in
      scatter nb nc x' batch' pos' upd'
  | _, _, _ => x
  end.

Definition at_set {A} (x : tensor4 A) (batch pos : list Z) (upd : squeezed A)
    : result (tensor4 A) :=
  let '(nb, nh, nc, nd) := shape4 x in
  match upd with
  | Unchanged _ => Raise ValueError
  | Squeezed upd =>
      match broadcast_indices batch pos with
      | Some (batch, pos) =>
          match broadcast3 (length batch) nh nd upd with
          | Some upd => Ok (scatter nb nc x batch pos upd)
          | None => Raise ValueError
          end
      | None => Raise ValueError
      end
  end.

(** *** torch_xla2.tensor: the XLATensor2 wrapper *)

Record XLATensor2 (T : Type) : Type := wrap { elem : T }.
Arguments wrap {T} _.
Arguments elem {T} _.

Definition unwrap {T} (t : XLATensor2 T) : T := elem t.

(** What a torch function is handed in this module: a torch tensor
    (XLATensor2 is a subclass of torch.Tensor), or the JAX array that
    [unwrap] takes out of one. *)
Inductive torch_arg (T : Type) : Type :=
| TorchTensor (t : XLATensor2 T)
| JaxArray (a : T).

Arguments TorchTensor {T} t.
Arguments JaxArray {T} a.

(** [torch.squeeze(input, 2)]: TypeError unless [input] is a torch
    tensor. *)
Definition torch_squeeze2 {A} (input : torch_arg (tensor4 A))
    : result (squeezed A) :=
  match input with
  | TorchTensor t => Ok (squeeze2 (elem t))
  | JaxArray _ => Raise TypeError
  end.

(** [XLATensor2.__setitem__] with the key [(batch, :, pos, :)]: the same
    indexed store on the wrapped array. *)
Definition setitem {A} (t : XLATensor2 (tensor4 A)) (batch pos : list Z)
    (upd : squeezed A) : result (XLATensor2 (tensor4 A)) :=
  x ← at_set (elem t) batch pos upd; Ok (wrap x).

(** The buffer after the rows of a step tensor [x] of shape
    (n, heads, 1, head_dim) are stored at positions [pos]. *)
Definition store_rows {A} (nb nc : nat) (buf : XLATensor2 (tensor4 A))
    (pos : list Z) (x : tensor4 A) : XLATensor2 (tensor4 A) :=
  wrap (scatter nb nc (elem buf) (arange (length pos)) pos (drop_axis2 x)).

(** ** Device meshes and sharding specifications (jax.sharding) *)

Record Mesh : Type := { mesh_shape : nat * nat; axis_names : list string }.

(** [NamedSharding(mesh, PartitionSpec( *spec ))] *)
Record NamedSharding : Type :=
  { sharding_mesh : Mesh; partition_spec : list (option string) }.

(** A value passed where the code expects a position tensor: a Python
    [int], or a 1-D integer tensor. *)
Inductive pyposition : Type :=
| PyInt (n : Z)
| PyTensor1 (v : list Z).


(** ** cache_manager.py: KVCachePrefill *)

Module KVCachePrefill.

Record t : Type := Build
  { kv_quantize : bool;
    cache_k : option (XLATensor2 (tensor4 Q));
    cache_v : option (XLATensor2 (tensor4 Q)) }.

(** [__init__(self, kv_quantize=False)] *)
Definition init (kv_quantize : bool) : t :=
  {| kv_quantize := kv_quantize; cache_k := None; cache_v := None |}.

(** What [update] returns: a pair, or a 4-tuple with two references to
    one tensor of ones. *)
Inductive ret : Type :=
| Ret2 (key value : XLATensor2 (tensor4 Q))
| Ret4 (key value ones1 ones2 : XLATensor2 (tensor4 Q)).

(** [update(self, key, value)]: the new state of [self] and the value
    returned. *)
Definition update (self : t) (key value : XLATensor2 (tensor4 Q)) : t * ret :=
  let self := {| kv_quantize := kv_quantize self;
                 cache_k := Some key; cache_v := cache_v self |} in
  let self := {| kv_quantize := kv_quantize self;
                 cache_k := cache_k self; cache_v := Some value |} in
  if kv_quantize self then
    let '(bsz, _, seq, _) := shape4 (elem key) in
    let ones := wrap (full4 (bsz, 1%nat, seq, 1%nat) 1%Q) in
    (self, Ret4 key value ones ones)
  else (self, Ret2 key value).

(** [state(self)] *)
Definition state (self : t)
    : option (XLATensor2 (tensor4 Q)) * option (XLATensor2 (tensor4 Q)) :=
  (cache_k self, cache_v self).

End KVCachePrefill.

Definition KVCachePrefill_flatten (cache : KVCachePrefill.t)
    : (option (tensor4 Q) * option (tensor4 Q)) * bool :=
  ((unwrap <$> KVCachePrefill.cache_k cache,
    unwrap <$> KVCachePrefill.cache_v cache),
   KVCachePrefill.kv_quantize cache).

(** The body builds [cache] and ends without a [return] statement, so the
    call evaluates to Python's [None]. *)
Definition KVCachePrefill_unflatten (auxdata : bool)
    (data : option (tensor4 Q) * option (tensor4 Q)) : option KVCachePrefill.t :=
  let cache := KVCachePrefill.init auxdata in
  let '(cache_k, cache_v) := (wrap <$> fst data, wrap <$> snd data) in
  let cache := {| KVCachePrefill.kv_quantize := KVCachePrefill.kv_quantize cache;
                  KVCachePrefill.cache_k := cache_k;
                  KVCachePrefill.cache_v := KVCachePrefill.cache_v cache |} in
  let cache := {| KVCachePrefill.kv_quantize := KVCachePrefill.kv_quantize cache;
                  KVCachePrefill.cache_k := KVCachePrefill.cache_k cache;
                  KVCachePrefill.cache_v := cache_v |} in
  None.

(** ** cache_manager.py: KVCacheGenerate *)

Module KVCacheGenerate.

Record t : Type := Build
  { cache_k : XLATensor2 (tensor4 Q);
    cache_v : XLATensor2 (tensor4 Q);
    pos : list Z;
    batch : list Z;
    sharding : NamedSharding }.

(** [__init__(self, cache_k, cache_v, position, sharding)];
    [position.shape] raises AttributeError when [position] is an [int]. *)
Definition init (cache_k cache_v : XLATensor2 (tensor4 Q))
    (position : pyposition) (sharding : NamedSharding) : result t :=
  match position with
  | PyInt _ => Raise AttributeError
  | PyTensor1 v =>
      Ok {| cache_k := cache_k; cache_v := cache_v; pos := v;
            batch := arange (length v); sharding := sharding |}
  end.

(** [update(self, key, value)]: the state of [self] afterwards and the
    outcome.  [unwrap] returns the JAX arrays inside [key] and [value], and
    these are what [torch.squeeze] is handed; the argument of [set] is
    evaluated before the store.  The key buffer is stored before the value
    buffer, so an exception from the second statement leaves the first one
    done. *)
Definition update (self : t) (key value : XLATensor2 (tensor4 Q))
    : t * result (XLATensor2 (tensor4 Q) * XLATensor2 (tensor4 Q)) :=
  let '(keyj, valuej) := (unwrap key, unwrap value) in
  match (upd ← torch_squeeze2 (JaxArray keyj);
         at_set (elem (cache_k self)) (batch self) (pos self) upd) with
  | Raise e => (self, Raise e)
  | Ok k =>
      let self := {| cache_k := wrap k; cache_v := cache_v self;
                     pos := pos self; batch := batch self;
                     sharding := sharding self |} in
      match (upd ← torch_squeeze2 (JaxArray valuej);
             at_set (elem (cache_v self)) (batch self) (pos self) upd) with
      | Raise e => (self, Raise e)
      | Ok v =>
          let self := {| cache_k := cache_k self; cache_v := wrap v;
                         pos := pos self; batch := batch self;
                         sharding := sharding self |} in
          (self, Ok (cache_k self, cache_v self))
      end
  end.

(** [state(self)] *)
Definition state (self : t) : tensor4 Q * tensor4 Q :=
  (elem (cache_k self), elem (cache_v self)).

(** [empty(cls, shape, device, bf16_enable)].  [pos] is computed and not
    used; the constructor receives the integer 0. *)
Definition empty (sh : shape) (device : NamedSharding) (bf16_enable : bool)
    : result t :=
  let k := full4 sh 0%Q in
  let v := full4 sh 0%Q in
  let '(k, v) := (wrap k, wrap v) in
  let pos := PyTensor1 [0] in
  init k v (PyInt 0) device.

End KVCacheGenerate.

Definition KVCacheGenerate_flatten (cache : KVCacheGenerate.t)
    : (tensor4 Q * tensor4 Q) * (list Z * NamedSharding) :=
  ((unwrap (KVCacheGenerate.cache_k cache), unwrap (KVCacheGenerate.cache_v cache)),
   (KVCacheGenerate.pos cache, KVCacheGenerate.sharding cache)).

Definition KVCacheGenerate_unflatten (auxdata : list Z * NamedSharding)
    (data : tensor4 Q * tensor4 Q) : result KVCacheGenerate.t :=
  let '(position, sharding) := auxdata in
  let '(cache_k, cache_v) := (wrap (fst data), wrap (snd data)) in
  cache ← KVCacheGenerate.init cache_k cache_v (PyTensor1 position) sharding;
  Ok cache.

(** The classes given to [jax.tree_util.register_pytree_node]. *)
Inductive cache_class : Type :=
| KVCachePrefill_cls
| KVCacheGenerate_cls
| Int8KVCacheGenerate_cls.

#[global] Instance cache_class_eq_dec : EqDecision cache_class.
Proof. solve_decision. Defined.

Definition pytree_registry : list cache_class :=
  [KVCachePrefill_cls; KVCacheGenerate_cls].

(** ** cache_manager.py: Int8KVCacheGenerate *)

(** *** Floating-point formats *)

(** A binary format: [prec] significand bits, the hidden one included; the
    smallest positive number is [2 ^ emin], the largest finite one
    [(2 ^ prec - 1) * 2 ^ emax]. *)
Record float_format : Type := { prec : Z; emin : Z; emax : Z }.

Definition bfloat16 : float_format := {| prec := 8; emin := -133; emax := 120 |}.
Definition float32 : float_format := {| prec := 24; emin := -149; emax := 104 |}.

(** The result of a floating-point operation. *)
Inductive float_value : Type :=
| Finite (q : Q)
| Infinite (negative : bool)
| NaN.

Definition pow2 (e : Z) : Q := (2 ^ e)%Q.

(** For [a > 0], the exponent [e] with [2 ^ e <= a < 2 ^ (e + 1)]. *)
Definition Qlog2 (a : Q) : Z :=
  let k := Z.log2 (Qnum a) - Z.log2 (Zpos (Qden a)) in
  if Qle_bool (pow2 k) a then k else k - 1.

(** Rounding to the nearest integer, ties to the even one. *)
Definition Qround_nearest (x : Q) : Z :=
  let f := Qfloor x in
  match ((x - inject_Z f) ?= (1 # 2))%Q with
  | Lt => f
  | Gt => f + 1
  | Eq => if Z.even f then f else f + 1
  end.

Definition max_finite (fmt : float_format) : Q :=
  (inject_Z (2 ^ prec fmt - 1) * pow2 (emax fmt))%Q.

(** The spacing of the numbers of the format around [x]: [2 ^ e], where [e]
    leaves [prec] bits for the leading digits of [x] and is [emin] at
    least. *)
Definition quantum (fmt : float_format) (x : Q) : Z :=
  Z.max (Qlog2 (Qabs x) - (prec fmt - 1)) (emin fmt).

(** Rounding of a rational to the format: to the nearest multiple of the
    quantum, ties to the even one, with gradual underflow.  No bound above
    is applied here. *)
Definition round_to (fmt : float_format) (x : Q) : Q :=
  let x := Qred x in
  if Qeq_bool x 0 then 0%Q
  else let e := quantum fmt x in
       Qred (inject_Z (Qround_nearest (x / pow2 e)) * pow2 e).

(** The rounded value as a float: an infinity beyond the largest finite
    number. *)
Definition to_float (fmt : float_format) (x : Q) : float_value :=
  let r := round_to fmt x in
  if Qle_bool (Qabs r) (max_finite fmt) then Finite r
  else Infinite (Qnum r <? 0).

(** [x / y] on two finite numbers of the format.  A zero divisor is taken
    to be +0, the only zero [quantize] divides by. *)
Definition fdiv (fmt : float_format) (x y : Q) : float_value :=
  if Qeq_bool y 0 then
    if Qeq_bool x 0 then NaN else Infinite (Qnum x <? 0)
  else to_float fmt (x / y).

(** *** Element arithmetic *)

(** The signed 8-bit value with the low eight bits of [z]. *)
Definition wrap8 (z : Z) : Z := (z + 128) mod 256 - 128.

(** Conversion to an integer type discards the fractional part. *)
Definition Qtrunc (x : Q) : Z := Z.quot (Qnum x) (Zpos (Qden x)).

(** [x.to(torch.int8)] on one element.  A finite number is truncated toward
    zero.  What a NaN, an infinity or a number whose truncation does not fit
    becomes is left to the platform; [cast] is the platform's answer. *)
Definition to_int8 (cast : float_value -> Z) (x : float_value) : Z :=
  match x with
  | Finite q =>
      let z := Qtrunc q in
      if decide (-128 <= z <= 127) then z else cast x
  | _ => cast x
  end.

(** One platform: the low eight bits of the truncation, and 0 for NaN and
    the infinities.  Used in the examples. *)
Definition cast_wrapping (x : float_value) : Z :=
  match x with
  | Finite q => wrap8 (Qtrunc q)
  | _ => 0
  end.

(** Maximum of a row; the code never reduces an empty one. *)
Definition qmax_list (row : list Q) : Q :=
  match row with
  | [] => 0%Q
  | x :: xs => foldl Qmax x xs
  end.

(** The elements of one batch row at sequence position [s], over all heads
    and head_dim indices: the elements a reduction over axes 1 and 3
    combines into one. *)
Definition slice_values (m : tensor3 Q) (s : nat) : list Q :=
  m ≫= fun mat : list (list Q) => default [] (mat !! s).

(** [torch.amax(t, axis=(1, 3), keepdim=True)]: per batch row and sequence
    position the maximum over heads and head_dim; the two reduced axes are
    kept with extent 1. *)
Definition amax13 (t : tensor4 Q) : tensor4 Q :=
  (fun m : tensor3 Q =>
     [ (fun s : nat => [qmax_list (slice_values m s)])
       <$> seq 0 (length (default [] (head m))) ]) <$> t.

(** [val / scale], [scale] of shape (batch, 1, seq, 1) broadcast over the
    heads and head_dim axes of [val]; [div] is the division of elements. *)
Definition div_bcast {B} (div : Q -> Q -> B) (val scale : tensor4 Q) : tensor4 B :=
  zip_with
    (fun m sm =>
       (fun mat : list (list Q) =>
          zip_with (fun (row srow : list Q) =>
                      (fun x => div x (default 0%Q (head srow))) <$> row)
            mat (default [] (head sm)))
       <$> m)
    val scale.

Module Int8KVCacheGenerate.

Record t : Type := Build
  { cache_k : XLATensor2 (tensor4 Z);
    cache_v : XLATensor2 (tensor4 Z);
    k_scaler : XLATensor2 (tensor4 Q);
    v_scaler : XLATensor2 (tensor4 Q);
    input_pos : list Z;
    batch : list Z }.

(** [__init__(self, cache_k, cache_v, cache_k_scaler, cache_v_scaler,
    input_pos, sharding=None)]; [sharding] is not kept, and
    [input_pos.shape] raises AttributeError when [input_pos] is an [int]. *)
Definition init (cache_k cache_v : XLATensor2 (tensor4 Z))
    (cache_k_scaler cache_v_scaler : XLATensor2 (tensor4 Q))
    (input_pos : pyposition) (sharding : option NamedSharding) : result t :=
  match input_pos with
  | PyInt _ => Raise AttributeError
  | PyTensor1 v =>
      Ok {| cache_k := cache_k; cache_v := cache_v;
            k_scaler := cache_k_scaler; v_scaler := cache_v_scaler;
            input_pos := v; batch := arange (length v) |}
  end.

(** [state(self)] *)
Definition state (self : t) : tensor4 Z * tensor4 Z :=
  (unwrap (cache_k self), unwrap (cache_v self)).

(** [scalers(self)] *)
Definition scalers (self : t) : tensor4 Q * tensor4 Q :=
  (unwrap (k_scaler self), unwrap (v_scaler self)).

(** [empty(cls, shape, device, bf16_enable)] *)
Definition empty (sh : shape) (device : NamedSharding) (bf16_enable : bool)
    : result t :=
  let '(nb, _, nc, _) := sh in
  let cache_k := full4 sh 0 in
  let cache_v := full4 sh 0 in
  let kscaler := full4 (nb, 1%nat, nc, 1%nat) 1%Q in
  let vscaler := full4 (nb, 1%nat, nc, 1%nat) 1%Q in
  init (wrap cache_k) (wrap cache_v) (wrap kscaler) (wrap vscaler)
    (PyInt 0) (Some device).

(** [quantize(self, val)]; [self] is not used.  [dtype] is the format of
    [val].  The scale is finite: dividing a number of the format by 127
    cannot overflow. *)
Definition quantize (dtype : float_format) (cast : float_value -> Z) (val : tensor4 Q)
    : tensor4 Z * tensor4 Q :=
  let scale := amax13 (map4 Qabs val) in
  let scale := map4 (fun m => round_to dtype (m / 127)) scale in
  (map4 (to_int8 cast) (div_bcast (fdiv dtype) val scale), scale).

(** [update(self, xk, xv)]: four indexed stores one after the other; the
    state returned holds those done before an exception.  [dtype] is the
    format of the step tensors.  The quantized tensors and the scales are
    torch tensors, which [torch.squeeze] accepts. *)
Definition update (dtype : float_format) (cast : float_value -> Z) (self : t)
    (xk xv : XLATensor2 (tensor4 Q))
    : t * result (XLATensor2 (tensor4 Z) * XLATensor2 (tensor4 Z)
                  * XLATensor2 (tensor4 Q) * XLATensor2 (tensor4 Q)) :=
  let '(k_quant, kscale) := quantize dtype cast (elem xk) in
  let '(v_quant, vscale) := quantize dtype cast (elem xv) in
  match setitem (cache_k self) (batch self) (input_pos self) (squeeze2 k_quant) with
  | Raise e => (self, Raise e)
  | Ok ck =>
      let self := {| cache_k := ck; cache_v := cache_v self;
                     k_scaler := k_scaler self; v_scaler := v_scaler self;
                     input_pos := input_pos self; batch := batch self |} in
      match setitem (cache_v self) (batch self) (input_pos self) (squeeze2 v_quant) with
      | Raise e => (self, Raise e)
      | Ok cv =>
          let self := {| cache_k := cache_k self; cache_v := cv;
                         k_scaler := k_scaler self; v_scaler := v_scaler self;
                         input_pos := input_pos self; batch := batch self |} in
          match setitem (k_scaler self) (batch self) (input_pos self) (squeeze2 kscale) with
          | Raise e => (self, Raise e)
          | Ok ks =>
              let self := {| cache_k := cache_k self; cache_v := cache_v self;
                             k_scaler := ks; v_scaler := v_scaler self;
                             input_pos := input_pos self; batch := batch self |} in
              match setitem (v_scaler self) (batch self) (input_pos self) (squeeze2 vscale) with
              | Raise e => (self, Raise e)
              | Ok vs =>
                  let self := {| cache_k := cache_k self; cache_v := cache_v self;
                                 k_scaler := k_scaler self; v_scaler := vs;
                                 input_pos := input_pos self; batch := batch self |} in
                  (self, Ok (cache_k self, cache_v self, k_scaler self, v_scaler self))
              end
          end
      end
  end.

End Int8KVCacheGenerate.

(** ** environment.py *)

Record JetEngineEnvironmentData : Type :=
  { checkpoint_path : string;
    checkpoint_format : string;
    tokenizer_path : string;
    max_input_sequence_length : Z;
    max_decode_length : Z;
    batch_size : Z;
    cache_sequence_length : Z;
    enable_weight_quantization : bool;
    enable_kv_quantization : bool;
    model_type : string;
    attention_kv_axis_names : list string;
    cache_shape : list Z;
    num_layers : nat;
    kv_cache_shard_axis : string;
    experimental_sharding_axis_override : gmap string Z;
    qkv_fusion : bool;
    bf16_enable : bool;
    sharding_config_path : string;
    shard_on_batch : bool }.

(** The dataclass defaults. *)
Definition default_data : JetEngineEnvironmentData :=
  {| checkpoint_path := "";
     checkpoint_format := "safetensors";
     tokenizer_path := "";
     max_input_sequence_length := 1024;
     max_decode_length := 1024;
     batch_size := 32;
     cache_sequence_length := 2048;
     enable_weight_quantization := false;
     enable_kv_quantization := false;
     model_type := "llama-2-13b";
     attention_kv_axis_names :=
       ["batch"; "num_attn_heads"; "sequence_length"; "head_dim"]%string;
     cache_shape := [];
     num_layers := 0;
     kv_cache_shard_axis := "num_attn_heads";
     experimental_sharding_axis_override := ∅;
     qkv_fusion := false;
     bf16_enable := true;
     sharding_config_path := "";
     shard_on_batch := false |}.

(** What the program reads from outside: the number of devices and, per
    path, the document [yaml.safe_load] returns, a mapping from tensor
    name to an axis index or null. *)
Record World : Type :=
  { device_count : nat;
    yaml_files : gmap string (gmap string (option Z)) }.

Module JetEngineEnvironment.

Record t : Type := Build
  { _data : JetEngineEnvironmentData;
    seq_len : Z;
    _mesh : Mesh;
    y_sharding : NamedSharding;
    x_sharding : NamedSharding;
    replicated : NamedSharding;
    cache_sharding : NamedSharding;
    _sharding_config : gmap string (option Z) }.

(** [sharding_by_axis(self, axis)]; only [self._mesh] is read. *)
Definition sharding_by_axis (mesh : Mesh) (axis : option Z) : result NamedSharding :=
  match axis with
  | None => Ok {| sharding_mesh := mesh; partition_spec := [] |}
  | Some axis =>
      if decide (axis = -1) then Ok {| sharding_mesh := mesh; partition_spec := [] |}
      else
        let sharding := py_repeat (None : option string) (axis + 1) in
        sharding ← py_setitem sharding axis (Some "x"%string);
        Ok {| sharding_mesh := mesh; partition_spec := sharding |}
  end.

(** The axis the configuration names for the cache, lines 103 to 108 of
    [__init__]. *)
Definition nominal_cache_axis (data : JetEngineEnvironmentData) : result Z :=
  if shard_on_batch data then Ok 0
  else py_index (attention_kv_axis_names data) (kv_cache_shard_axis data).

(** The local [cache_sharding_axis] when [__init__] passes it to
    [sharding_by_axis], lines 103 to 113. *)
Definition cache_sharding_axis (data : JetEngineEnvironmentData) : result Z :=
  cache_sharding_axis ← nominal_cache_axis data;
  extent ← py_getitem (cache_shape data) cache_sharding_axis;
  Ok (if decide (extent = 1) then Z.of_nat (length (cache_shape data)) - 1
      else cache_sharding_axis).

(** [_load_sharding_config(self)]; a path that names no file raises. *)
Definition _load_sharding_config (w : World) (data : JetEngineEnvironmentData)
    : result (gmap string (option Z)) :=
  if decide (sharding_config_path data = ""%string) then Ok ∅
  else match yaml_files w !! sharding_config_path data with
       | Some doc => Ok doc
       | None => Raise OSError
       end.

(** [__init__(self, data)] *)
Definition init (w : World) (data : JetEngineEnvironmentData) : result t :=
  let seq_len := max_input_sequence_length data in
  let num_of_partitions := device_count w in
  let mesh := {| mesh_shape := (num_of_partitions, 1%nat);
                 axis_names := ["x"; "y"]%string |} in
  let y_sharding := {| sharding_mesh := mesh;
                       partition_spec := [None; Some "x"%string] |} in
  let x_sharding := {| sharding_mesh := mesh;
                       partition_spec := [Some "x"%string] |} in
  let replicated := {| sharding_mesh := mesh; partition_spec := [] |} in
  axis ← cache_sharding_axis data;
  cache_sharding ← sharding_by_axis mesh (Some axis);
  config ← _load_sharding_config w data;
  Ok {| _data := data; seq_len := seq_len; _mesh := mesh;
        y_sharding := y_sharding; x_sharding := x_sharding;
        replicated := replicated; cache_sharding := cache_sharding;
        _sharding_config := config |}.

(** [make_caches_prefill(self)] *)
Definition make_caches_prefill (self : t) : list KVCachePrefill.t :=
  replicate (num_layers (_data self)) (KVCachePrefill.init false).

(** A shape tuple as the shape of a 4-D tensor, when it has four
    non-negative extents. *)
Definition shape_of_tuple (l : list Z) : option shape :=
  match l with
  | [nb; nh; nc; nd] =>
      if decide (0 <= nb /\ 0 <= nh /\ 0 <= nc /\ 0 <= nd)
      then Some (Z.to_nat nb, Z.to_nat nh, Z.to_nat nc, Z.to_nat nd)
      else None
  | _ => None
  end.

(** [make_caches_generate(self)]: one call of [empty] per layer, appended in
    layer order; the first exception ends the loop.  The result is given for
    the cache shapes that 4-D tensors have, [None] stands for the others. *)
Definition make_caches_generate (self : t)
    : option (result (list (KVCacheGenerate.t + Int8KVCacheGenerate.t))) :=
  shape ← shape_of_tuple (cache_shape (_data self));
  Some (mapM (fun _ : nat =>
                if enable_kv_quantization (_data self) then
                  c ← Int8KVCacheGenerate.empty shape (cache_sharding self)
                        (bf16_enable (_data self));
                  Ok (inr c)
                else
                  c ← KVCacheGenerate.empty shape (cache_sharding self)
                        (bf16_enable (_data self));
                  Ok (inl c))
          (seq 0 (num_layers (_data self)))).

(** [sharding_by_name(self, name)] *)
Definition sharding_by_name (self : t) (name : string) : result NamedSharding :=
  if shard_on_batch (_data self) then sharding_by_axis (_mesh self) (Some 0)
  else
    match _sharding_config self !! name with
    | Some axis => sharding_by_axis (_mesh self) axis
    | None =>
        let name := Naming.process_sharding_name name in
        match _sharding_config self !! name with
        | Some axis => sharding_by_axis (_mesh self) axis
        | None =>
            Raise (RuntimeError ["Sharding for name: "; name; " not specified"]%string)
        end
    end.

End JetEngineEnvironment.

(** ** convert_checkpoints.py: merging sharded weights *)

Module Checkpoint.

Local Open Scope string_scope.

(** Exceptions of this script, with the message where the code gives one. *)
Inductive error : Type :=
| EValue (msg : string)
| EIndex
| EKey (key : string)
| ERuntime.

Inductive outcome (A : Type) : Type :=
| Return (a : A)
| Raised (e : error).

Arguments Return {A} a.
Arguments Raised {A} e.

#[global] Instance outcome_ret : MRet outcome := fun _ a => Return a.
#[global] Instance outcome_bind : MBind outcome := fun _ _ k r =>
  match r with
  | Return a => k a
  | Raised e => Raised e
  end.

(** A weight of a checkpoint: a vector or a matrix.  Elements are exact
    rationals; the dtype is not represented. *)
Inductive weight : Type :=
| W1 (v : list Q)
| W2 (rows : list (list Q)).

(** [t.shape]; the number of columns is read off the first row. *)
Definition wshape (t : weight) : list nat :=
  match t with
  | W1 v => [length v]
  | W2 rows => [length rows; length (default [] (head rows))]
  end.

(** A [dict] from names to weights, in insertion order. *)
Abbreviation dict := (list (string * weight)) (only parsing).

Definition keys (d : dict) : list string := d.*1.

(** [set(d.keys())] *)
Definition key_set (d : dict) : gset string := list_to_set (keys d).

(** [d[key]] *)
Fixpoint dict_get (d : dict) (key : string) : outcome weight :=
  match d with
  | [] => Raised (EKey key)
  | (k, v) :: d' => if decide (k = key) then Return v else dict_get d' key
  end.

(** [d[key] = v]: in place when the key is there, at the end otherwise. *)
Fixpoint dict_set (d : dict) (key : string) (v : weight) : dict :=
  match d with
  | [] => [(key, v)]
  | (k, v') :: d' =>
      if decide (k = key) then (k, v) :: d' else (k, v') :: dict_set d' key v
  end.

(** [d.update(other)] *)
Definition dict_update (d other : dict) : dict :=
  foldl (fun acc kv => dict_set acc kv.1 kv.2) d other.

(** [s.endswith(suffix)] *)
Fixpoint ends_with (s suffix : string) : bool :=
  String.eqb s suffix ||
  match s with
  | EmptyString => false
  | String _ s' => ends_with s' suffix
  end.

Inductive sharding_type : Type :=
| ParallelEmbedding
| ColumnParallelLinear
| RowParallelLinear.

#[global] Instance sharding_type_eq_dec : EqDecision sharding_type.
Proof. solve_decision. Defined.

Definition _WEIGHT_SHARDING_TYPE : list (string * option sharding_type) :=
  [ ("tok_embeddings.weight", Some ParallelEmbedding);
    ("rope.freqs", None);
    ("attention.wq.weight", Some ColumnParallelLinear);
    ("attention.wk.weight", Some ColumnParallelLinear);
    ("attention.wv.weight", Some ColumnParallelLinear);
    ("attention.wo.weight", Some RowParallelLinear);
    ("feed_forward.w1.weight", Some ColumnParallelLinear);
    ("feed_forward.w2.weight", Some RowParallelLinear);
    ("feed_forward.w3.weight", Some ColumnParallelLinear);
    ("attention_norm.weight", None);
    ("ffn_norm.weight", None);
    ("norm.weight", None);
    ("output.weight", Some ColumnParallelLinear) ].

(** [_checkpoints_have_same_weight_keys(checkpoint_list)] *)
Definition _checkpoints_have_same_weight_keys (checkpoint_list : list dict) : bool :=
  if bool_decide (checkpoint_list = []) || (length checkpoint_list <=? 1)%nat
  then true
  else match checkpoint_list with
       | [] => true
       | first :: rest =>
           forallb (fun m => bool_decide (key_set first = key_set m)) rest
       end.

(** [_tensors_have_same_shape(tensors)] *)
Definition _tensors_have_same_shape (tensors : list weight) : bool :=
  if bool_decide (tensors = []) || (length tensors <=? 1)%nat
  then true
  else match tensors with
       | [] => true
       | first :: rest =>
           forallb (fun t => bool_decide (wshape t = wshape first)) rest
       end.

(** *** torch.cat and torch.allclose on vectors and matrices *)

Definition as_vector (t : weight) : outcome (list Q) :=
  match t with W1 v => Return v | W2 _ => Raised ERuntime end.

(** The rows of a matrix that fits beside or below [first]: same number of
    rows for [dim = 1], same number of columns for [dim = 0]. *)
Definition as_matrix (dim : nat) (first : list (list Q)) (t : weight)
    : outcome (list (list Q)) :=
  match t with
  | W1 _ => Raised ERuntime
  | W2 rows =>
      if decide (wshape (W2 rows) !! (1 - dim)%nat = wshape (W2 first) !! (1 - dim)%nat)
      then Return rows else Raised ERuntime
  end.

(** Matrices side by side. *)
Definition hcat (first : list (list Q)) (others : list (list (list Q)))
    : list (list Q) :=
  foldl (zip_with app) first others.

(** A 1-D tensor without elements. *)
Definition is_empty_vector (t : weight) : bool :=
  match t with
  | W1 [] => true
  | _ => false
  end.

(** [torch.cat(tensors, dim)].  1-D tensors without elements are skipped;
    when nothing else is given the result is such a tensor.  A vector has
    no dimension 1 (IndexError); tensors that do not fit together are a
    RuntimeError. *)
Definition cat (tensors : list weight) (dim : nat) : outcome weight :=
  match tensors with
  | [] => Raised ERuntime
  | _ =>
      match List.filter (fun t => negb (is_empty_vector t)) tensors, dim with
      | [], _ => Return (W1 [])
      | (W1 _ :: _) as ts, 0%nat => vs ← mapM as_vector ts; Return (W1 (concat vs))
      | W1 _ :: _, _ => Raised EIndex
      | (W2 first :: _) as ts, 0%nat =>
          ms ← mapM (as_matrix 0 first) ts; Return (W2 (concat ms))
      | W2 first :: rest, 1%nat =>
          ms ← mapM (as_matrix 1 first) rest; Return (W2 (hcat first ms))
      | W2 _ :: _, _ => Raised EIndex
      end
  end.

Definition atol : Q := 1 # 1000000.
Definition rtol : Q := 1 # 100000.

Definition close (a b : Q) : bool :=
  Qle_bool (Qabs (a - b)) (atol + rtol * Qabs b).

(** [torch.allclose(a, b, atol=1e-6)] for two tensors of one shape. *)
Definition allclose (a b : weight) : outcome bool :=
  match a, b with
  | W1 u, W1 v =>
      if decide (length u = length v)
      then Return (forallb (fun p => close p.1 p.2) (zip u v))
      else Raised ERuntime
  | W2 r, W2 s =>
      if decide (wshape (W2 r) = wshape (W2 s))
      then Return (forallb (fun p => forallb (fun q => close q.1 q.2) (zip p.1 p.2))
                     (zip r s))
      else Raised ERuntime
  | _, _ => Raised ERuntime
  end.

(** [all(torch.allclose(first, t, atol=1e-6) for t in rest)]: stops at the
    first tensor that is not close. *)
Fixpoint all_close (first : weight) (rest : list weight) : outcome bool :=
  match rest with
  | [] => Return true
  | t :: rest' =>
      c ← allclose first t;
      if c : bool then all_close first rest' else Return false
  end.

(** [t.float()] *)
Definition float (t : weight) : weight := t.

(** What is stored under [key] for a pattern of kind [kind] that the key
    ends with: the branches of the [if] on [kind]. *)
Definition merge_kind (kind : option sharding_type) (key : string)
    (tensors : list weight) : outcome weight :=
  match kind with
  | Some ParallelEmbedding | Some RowParallelLinear => cat tensors 1
  | Some ColumnParallelLinear => cat tensors 0
  | None =>
      match tensors with
      | [] => Raised EIndex
      | first :: rest =>
          same ← all_close first rest;
          if same : bool then Return first
          else Raised (EValue ("Tensors must be identical across shards for "
                               ++ key))
      end
  end.

(** The loop over [_WEIGHT_SHARDING_TYPE.items()] for one key, threading
    [state_dict_for_key]. *)
Fixpoint merge_patterns (table : list (string * option sharding_type))
    (key : string) (tensors : list weight) (enable_float32 : bool)
    (state_dict_for_key : dict) : outcome dict :=
  match table with
  | [] => Return state_dict_for_key
  | (pattern, kind) :: table' =>
      if negb (ends_with key pattern)
      then merge_patterns table' key tensors enable_float32 state_dict_for_key
      else
        merged ← merge_kind kind key tensors;
        let state_dict_for_key := dict_set state_dict_for_key key merged in
        let state_dict_for_key :=
          if enable_float32 : bool then
            match dict_get state_dict_for_key key with
            | Return t => dict_set state_dict_for_key key (float t)
            | Raised _ => state_dict_for_key
            end
          else state_dict_for_key in
        merge_patterns table' key tensors enable_float32 state_dict_for_key
  end.

(** The body of the loop over the weight keys. *)
Definition merge_key (checkpoints : list dict) (enable_float32 : bool)
    (key : string) : outcome dict :=
  tensors ← mapM (fun c => dict_get c key) checkpoints;
  if negb (_tensors_have_same_shape tensors)
  then Raised (EValue ("Tensors must have the same shape for " ++ key))
  else merge_patterns _WEIGHT_SHARDING_TYPE key tensors enable_float32 [].

Fixpoint merge_keys (checkpoints : list dict) (enable_float32 : bool)
    (weight_keys : list string) (state_dict : dict) : outcome dict :=
  match weight_keys with
  | [] => Return state_dict
  | key :: rest =>
      state_dict_for_key ← merge_key checkpoints enable_float32 key;
      merge_keys checkpoints enable_float32 rest
        (dict_update state_dict state_dict_for_key)
  end.

(** [_merge_llama_weights(checkpoints, minimize_memory_footprint=False,
    enable_float32)]: the path that keeps the merged weights in memory.
    With the flag set the same weights pass through files under
    /tmp/checkpoints, which this definition does not follow. *)
Definition _merge_llama_weights (checkpoints : list dict) (enable_float32 : bool)
    : outcome dict :=
  if negb (_checkpoints_have_same_weight_keys checkpoints)
  then Raised (EValue "Checkpoint must have the same set of weights.")
  else match checkpoints with
       | [] => Raised EIndex
       | first :: _ => merge_keys checkpoints enable_float32 (keys first) []
       end.

(** [state_dict_for_key] holds nothing, or the entry for [key] alone. *)
Definition at_most (key : string) (d : dict) : Prop :=
  d = [] \/ exists w, d = [(key, w)].

(** A key that ends with one of the patterns of [_WEIGHT_SHARDING_TYPE]. *)
Definition recognised (key : string) : bool :=
  existsb (fun p => ends_with key p.1) _WEIGHT_SHARDING_TYPE.

(** The kinds that are concatenated along dimension 1. *)
Definition along_dim1 (kind : option sharding_type) : bool :=
  match kind with
  | Some ParallelEmbedding | Some RowParallelLinear => true
  | _ => false
  end.

(** A key that ends with a pattern whose kind is concatenated along
    dimension 1. *)
Definition needs_matrix (key : string) : bool :=
  existsb (fun p => ends_with key p.1 && along_dim1 p.2) _WEIGHT_SHARDING_TYPE.

(** The kind that decides the entry of [key]: the one of the last pattern
    the key ends with, since each pattern of the loop overwrites the entry
    of the one before. *)
Definition kind_of (key : string) : option (option sharding_type) :=
  snd <$> last (List.filter (fun p => ends_with key p.1) _WEIGHT_SHARDING_TYPE).

End Checkpoint.

(** ** The specification's reading of quantization, for comparison *)

Definition clamp8 (z : Z) : Z := Z.max (-128) (Z.min 127 z).

(** "Quantized value = round(value / scale) truncated to the int8 range",
    with the scale of section 4.2, step 1, in exact arithmetic; [round] is
    [torch.round], which rounds to the nearest integer, ties to the even
    one. *)
Definition quantize_spec (val : tensor4 Q) : tensor4 Z * tensor4 Q :=
  let scale := map4 (fun x => (x / 127)%Q) (amax13 (map4 Qabs val)) in
  (map4 (fun x => clamp8 (Qround_nearest x)) (div_bcast Qdiv val scale), scale).

(** [m] is the largest absolute value of [val] at batch row [b] and
    sequence position [s], over all heads and head_dim indices. *)
Definition is_max_abs (val : tensor4 Q) (b s : nat) (m : Q) : Prop :=
  (forall h d x, get4 val b h s d = Some x -> (Qabs x <= m)%Q) /\
  (exists h d x, get4 val b h s d = Some x /\ m = Qabs x).

(** ** Formats and scales the accuracy results are about *)

(** The smallest positive normal number of a format. *)
Definition min_normal (fmt : float_format) : Q :=
  pow2 (emin fmt + prec fmt - 1).

(** A format with eight significand bits at least, in which 1/2 and 255
    are numbers: bfloat16, float16 and float32 are such formats. *)
Definition format_ok (fmt : float_format) : Prop :=
  8 <= prec fmt /\ emin fmt <= -1 /\ 0 <= emax fmt.

(** ** States and inputs used below *)

(** The states a wide-dtype Generate cache goes through: built by the
    constructor, then changed by [update] only. *)
Inductive generate_reachable : KVCacheGenerate.t -> Prop :=
| reach_init k v p sh c :
    KVCacheGenerate.init k v p sh = Ok c -> generate_reachable c
| reach_update c key value :
    generate_reachable c ->
    generate_reachable (fst (KVCacheGenerate.update c key value)).

(** [PartitionSpec("x")] on a mesh: axis 0 partitioned. *)
Definition axis0_sharding (mesh : Mesh) : NamedSharding :=
  {| sharding_mesh := mesh; partition_spec := [Some "x"%string] |}.

Definition example_mesh : Mesh :=
  {| mesh_shape := (1%nat, 1%nat); axis_names := ["x"; "y"]%string |}.

Definition example_sharding : NamedSharding :=
  {| sharding_mesh := example_mesh; partition_spec := [None; Some "x"%string] |}.


Definition example_key : XLATensor2 (tensor4 Q) :=
  wrap [[[[1%Q; 2%Q]]]; [[[3%Q; 4%Q]]]].

Definition example_value : XLATensor2 (tensor4 Q) :=
  wrap [[[[5%Q; 6%Q]]]; [[[7%Q; 8%Q]]]].

(** One batch row, one head, one sequence position: 127 and 1.75. *)
Definition example_val : tensor4 Q := [[[[127%Q; (7 # 4)%Q]]]].


Definition example_int8_oob : Int8KVCacheGenerate.t :=
  Int8KVCacheGenerate.Build
    (wrap (full4 (2, 1, 3, 2)%nat 0)) (wrap (full4 (2, 1, 3, 2)%nat 0))
    (wrap (full4 (2, 1, 3, 1)%nat 1%Q)) (wrap (full4 (2, 1, 3, 1)%nat 1%Q))
    [-1; 3] [0; 1].

(** An int8 cache of the same shape, row 0 writing column 1 and row 1
    column 0. *)
Definition example_int8 : Int8KVCacheGenerate.t :=
  Int8KVCacheGenerate.Build
    (wrap (full4 (2, 1, 3, 2)%nat 0)) (wrap (full4 (2, 1, 3, 2)%nat 0))
    (wrap (full4 (2, 1, 3, 1)%nat 1%Q)) (wrap (full4 (2, 1, 3, 1)%nat 1%Q))
    [1; 0] [0; 1].

(** Two shards of a small checkpoint; the last key is not a llama weight
    name. *)
Definition example_shard0 : list (string * Checkpoint.weight) :=
  [ ("tok_embeddings.weight"%string, Checkpoint.W2 [[1; 2]; [3; 4]]%Q);
    ("layers.0.attention.wq.weight"%string, Checkpoint.W2 [[5; 6]]%Q);
    ("layers.0.attention_norm.weight"%string, Checkpoint.W1 [1; 1]%Q);
    ("extra"%string, Checkpoint.W1 [9]%Q) ].

Definition example_shard1 : list (string * Checkpoint.weight) :=
  [ ("tok_embeddings.weight"%string, Checkpoint.W2 [[10; 20]; [30; 40]]%Q);
    ("layers.0.attention.wq.weight"%string, Checkpoint.W2 [[50; 60]]%Q);
    ("layers.0.attention_norm.weight"%string, Checkpoint.W1 [1; 1]%Q);
    ("extra"%string, Checkpoint.W1 [9]%Q) ].

(** A Prefill cache after one update. *)
Definition example_prefill : KVCachePrefill.t :=
  fst (KVCachePrefill.update (KVCachePrefill.init true)
         (wrap [[[[1%Q; 2%Q]]]]) (wrap [[[[3%Q; 4%Q]]]])).

Definition example_world : World :=
  {| device_count := 1; yaml_files := ∅ |}.

(** One batch row, as in [tests/helpers.py], sharded on the batch axis. *)
Definition example_data : JetEngineEnvironmentData :=
  {| checkpoint_path := "";
     checkpoint_format := "safetensors";
     tokenizer_path := "";
     max_input_sequence_length := 128;
     max_decode_length := 1024;
     batch_size := 1;
     cache_sequence_length := 128;
     enable_weight_quantization := false;
     enable_kv_quantization := false;
     model_type := "llama-2-tiny";
     attention_kv_axis_names :=
       ["batch"; "num_attn_heads"; "sequence_length"; "head_dim"]%string;
     cache_shape := [1; 2; 128; 4];
     num_layers := 1;
     kv_cache_shard_axis := "num_attn_heads";
     experimental_sharding_axis_override := ∅;
     qkv_fusion := false;
     bf16_enable := true;
     sharding_config_path := "";
     shard_on_batch := true |}.

(** The same configuration sharded on the heads axis, with no sharding
    document. *)
Definition example_data_heads : JetEngineEnvironmentData :=
  {| checkpoint_path := "";
     checkpoint_format := "safetensors";
     tokenizer_path := "";
     max_input_sequence_length := 128;
     max_decode_length := 1024;
     batch_size := 1;
     cache_sequence_length := 128;
     enable_weight_quantization := false;
     enable_kv_quantization := false;
     model_type := "llama-2-tiny";
     attention_kv_axis_names :=
       ["batch"; "num_attn_heads"; "sequence_length"; "head_dim"]%string;
     cache_shape := [1; 2; 128; 4];
     num_layers := 1;
     kv_cache_shard_axis := "num_attn_heads";
     experimental_sharding_axis_override := ∅;
     qkv_fusion := false;
     bf16_enable := true;
     sharding_config_path := "";
     shard_on_batch := false |}.

(** The configuration of [example_data_heads] with a cache axis name that
    is not one of the attention axes. *)
Definition example_data_unknown_axis : JetEngineEnvironmentData :=
  {| checkpoint_path := "";
     checkpoint_format := "safetensors";
     tokenizer_path := "";
     max_input_sequence_length := 128;
     max_decode_length := 1024;
     batch_size := 1;
     cache_sequence_length := 128;
     enable_weight_quantization := false;
     enable_kv_quantization := false;
     model_type := "llama-2-tiny";
     attention_kv_axis_names :=
       ["batch"; "num_attn_heads"; "sequence_length"; "head_dim"]%string;
     cache_shape := [1; 2; 128; 4];
     num_layers := 1;
     kv_cache_shard_axis := "heads";
     experimental_sharding_axis_override := ∅;
     qkv_fusion := false;
     bf16_enable := true;
     sharding_config_path := "";
     shard_on_batch := false |}.

(** * Properties *)

(** ** Name normalisation *)

Module NamingFacts.
Import Naming.

Lemma split_nonempty (s : string) : split s <> [].
Proof.
  induction s as [|c s IH]; simpl; [done|].
  destruct (Ascii.eqb c dot); [done|].
  destruct (split s); done.
Qed.

Lemma split_no_dot (s : string) : Forall (fun t => has_dot t = false) (split s).
Proof.
  induction s as [|c s IH]; simpl.
  - by repeat constructor.
  - destruct (Ascii.eqb c dot) eqn:Hc.
    + by constructor.
    + destruct (split s) as [|t ts]; [by repeat constructor; simpl; rewrite Hc|].
      inversion IH; subst. constructor; [|done]. simpl. by rewrite Hc.
Qed.

Lemma split_token (t : string) : has_dot t = false -> split t = [t].
Proof.
  induction t as [|c t IH]; simpl; [done|].
  intros [Hc Ht]%orb_false_iff. rewrite Hc, (IH Ht). done.
Qed.

Lemma split_token_dot (t rest : string) :
  has_dot t = false -> split (t ++ String dot rest) = t :: split rest.
Proof.
  induction t as [|c t IH]; simpl.
  - done.
  - intros [Hc Ht]%orb_false_iff. rewrite Hc, (IH Ht). done.
Qed.

Lemma split_join (tokens : list string) :
  tokens <> [] -> Forall (fun t => has_dot t = false) tokens ->
  split (join tokens) = tokens.
Proof.
  induction tokens as [|t ts IH]; [done|].
  intros _ Hall. inversion Hall as [|? ? Ht Hts]; subst.
  destruct ts as [|t' ts].
  - simpl. by apply split_token.
  - change (join (t :: t' :: ts)) with (t ++ String dot (join (t' :: ts)))%string.
    rewrite split_token_dot by done. f_equal. by apply IH.
Qed.

Section Generic.
Variable is_int : string -> bool.
Hypothesis star_not_int : is_int star = false.

Lemma replace_loop_spec (todo pre : list string) :
  replace_loop is_int (length pre) todo (pre ++ todo)
  = pre ++ map (wildcard is_int) todo.
Proof.
  revert pre. induction todo as [|t rest IH]; intros pre; simpl; [done|].
  assert (Hstep : forall x, pre ++ x :: rest = (pre ++ [x]) ++ rest)
    by (intros; by rewrite <- app_assoc).
  assert (Hlen : forall x : string, S (length pre) = length (pre ++ [x]))
    by (intros; rewrite length_app; simpl; lia).
  unfold wildcard at 1. destruct (is_int t).
  - rewrite insert_app_r_alt by lia. rewrite Nat.sub_diag. simpl.
    rewrite (Hstep star), (Hlen star), IH. by rewrite <- app_assoc.
  - rewrite (Hstep t), (Hlen t), IH. by rewrite <- app_assoc.
Qed.

Lemma process_with_map (name : string) :
  process_with is_int name = join (map (wildcard is_int) (split name)).
Proof.
  unfold process_with. f_equal. apply (replace_loop_spec (split name) []).
Qed.

Lemma wildcard_no_dot (t : string) :
  has_dot t = false -> has_dot (wildcard is_int t) = false.
Proof. unfold wildcard. by destruct (is_int t). Qed.

Lemma wildcard_twice (t : string) :
  wildcard is_int (wildcard is_int t) = wildcard is_int t.
Proof.
  unfold wildcard. destruct (is_int t) eqn:Ht.
  - by rewrite star_not_int.
  - by rewrite Ht.
Qed.

Lemma process_with_idempotent (name : string) :
  process_with is_int (process_with is_int name) = process_with is_int name.
Proof.
  rewrite !process_with_map. rewrite split_join.
  - rewrite map_map. f_equal. apply map_ext. intros. apply wildcard_twice.
  - pose proof (split_nonempty name). by destruct (split name).
  - apply Forall_map. eapply Forall_impl; [apply split_no_dot|].
    intros t Ht. by apply wildcard_no_dot.
Qed.
End Generic.

Lemma star_is_not_integer : is_integer star = false.
Proof. reflexivity. Qed.

Example normalise_layer_index :
  process_sharding_name "layers.3.attention.wq.weight"
  = "layers.*.attention.wq.weight"%string.
Proof. reflexivity. Qed.

(** C10. [process_sharding_name] is idempotent: normalising an already
    normalised name changes nothing, since the segment "*" is not an
    integer and the segments of the joined name are those that were
    joined. *)
Theorem process_sharding_name_idempotent (name : string) :
  process_sharding_name (process_sharding_name name)
  = process_sharding_name name.
Proof. apply process_with_idempotent, star_is_not_integer. Qed.

End NamingFacts.

(** ** The result monad *)

Lemma bind_Ok {A B} (a : A) (k : A -> result B) : (Ok a ≫= k) = k a.
Proof. reflexivity. Qed.

Lemma bind_Raise {A B} (e : exn) (k : A -> result B) : (Raise e ≫= k) = Raise e.
Proof. reflexivity. Qed.

Lemma bind_inv_Ok {A B} (r : result A) (k : A -> result B) (b : B) :
  (r ≫= k) = Ok b -> exists a, r = Ok a /\ k a = Ok b.
Proof. destruct r as [a|e]; [eauto|done]. Qed.

(** ** Prefill cache *)

Module PrefillFacts.
Import KVCachePrefill.

Lemma update_state (c : t) k v : state (fst (update c k v)) = (Some k, Some v).
Proof.
  unfold update. simpl. destruct (kv_quantize c); [|done].
  by destruct (shape4 (elem k)) as [[[? ?] ?] ?].
Qed.

Lemma update_keeps_flag (c : t) k v :
  kv_quantize (fst (update c k v)) = kv_quantize c.
Proof.
  unfold update. simpl. destruct (kv_quantize c) eqn:E; [|by rewrite <- E].
  by destruct (shape4 (elem k)) as [[[? ?] ?] ?].
Qed.

(** C9. After two successive updates of a Prefill cache with (k1, v1) and
    then (k2, v2), the state accessor returns exactly (k2, v2): the second
    update replaces what the first one stored. *)
Theorem update_twice_state (c : t) (k1 v1 k2 v2 : XLATensor2 (tensor4 Q)) :
  state (fst (update (fst (update c k1 v1)) k2 v2)) = (Some k2, Some v2).
Proof. apply update_state. Qed.

End PrefillFacts.

(** ** Factories of the Generate caches *)

Module EmptyFacts.

(** The constructor accepts the one-element position tensor that [empty]
    computes and leaves unused. *)
Lemma init_with_position_tensor (sh : shape) (device : NamedSharding) :
  KVCacheGenerate.init (wrap (full4 sh 0%Q)) (wrap (full4 sh 0%Q))
    (PyTensor1 [0]) device
  = Ok (KVCacheGenerate.Build (wrap (full4 sh 0%Q)) (wrap (full4 sh 0%Q))
          [0] [0] device).
Proof. reflexivity. Qed.

Example generate_empty_tiny :
  KVCacheGenerate.empty (1, 2, 8, 4)%nat example_sharding true
  = Raise AttributeError.
Proof. reflexivity. Qed.

Example int8_empty_tiny :
  Int8KVCacheGenerate.empty (1, 2, 8, 4)%nat example_sharding true
  = Raise AttributeError.
Proof. reflexivity. Qed.

(** C4. What the code does where the claim expects a fresh cache: for
    every shape, device and precision flag both factories raise
    AttributeError, because they hand the integer 0 to a constructor that
    reads [position.shape]; no cache instance is returned. *)
Theorem empty_raises (sh : shape) (device : NamedSharding) (bf16_enable : bool) :
  KVCacheGenerate.empty sh device bf16_enable = Raise AttributeError /\
  Int8KVCacheGenerate.empty sh device bf16_enable = Raise AttributeError.
Proof. by destruct sh as [[[nb nh] nc] nd]. Qed.

End EmptyFacts.

(** ** Flattening and reconstruction *)

Module PytreeFacts.

Lemma init_reachable_batch k v p sh c :
  KVCacheGenerate.init k v p sh = Ok c ->
  KVCacheGenerate.batch c = arange (length (KVCacheGenerate.pos c)).
Proof. destruct p as [n|vec]; [done|]. by intros [= <-]. Qed.

Lemma update_keeps_index (c : KVCacheGenerate.t) key value :
  KVCacheGenerate.pos (fst (KVCacheGenerate.update c key value))
    = KVCacheGenerate.pos c /\
  KVCacheGenerate.batch (fst (KVCacheGenerate.update c key value))
    = KVCacheGenerate.batch c /\
  KVCacheGenerate.sharding (fst (KVCacheGenerate.update c key value))
    = KVCacheGenerate.sharding c.
Proof. done. Qed.

Lemma reachable_batch (c : KVCacheGenerate.t) :
  generate_reachable c ->
  KVCacheGenerate.batch c = arange (length (KVCacheGenerate.pos c)).
Proof.
  induction 1 as [k v p sh c Hc | c key value _ IH].
  - by eapply init_reachable_batch.
  - destruct (update_keeps_index c key value) as (-> & -> & _). done.
Qed.

Lemma int8_not_registered : Int8KVCacheGenerate_cls ∉ pytree_registry.
Proof.
  unfold pytree_registry. rewrite !elem_of_cons, elem_of_nil.
  intros [?|[?|[]]]; done.
Qed.

(** C5, as the code has it.  A wide-dtype Generate cache in any state the
    constructor and [update] produce is rebuilt by [KVCacheGenerate_unflatten]
    from what [KVCacheGenerate_flatten] returns, with the same buffers,
    position vector, row index and sharding; the int8 Generate class is not
    among the registered classes. *)
Theorem generate_unflatten_flatten (c : KVCacheGenerate.t) :
  generate_reachable c ->
  KVCacheGenerate_unflatten (snd (KVCacheGenerate_flatten c))
    (fst (KVCacheGenerate_flatten c)) = Ok c /\
  Int8KVCacheGenerate_cls ∉ pytree_registry.
Proof.
  intros Hc. split.
  - apply reachable_batch in Hc. destruct c as [[k] [v] pos batch sh].
    simpl in *. by subst.
  - apply int8_not_registered.
Qed.

Lemma generate_unflatten_flatten_witness :
  generate_reachable
    (KVCacheGenerate.Build (wrap [[[[0%Q]]]]) (wrap [[[[0%Q]]]]) [0] [0]
       example_sharding) /\
  KVCacheGenerate_unflatten
    ([0], example_sharding) ([[[[0%Q]]]], [[[[0%Q]]]])
  = Ok (KVCacheGenerate.Build (wrap [[[[0%Q]]]]) (wrap [[[[0%Q]]]]) [0] [0]
          example_sharding).
Proof.
  assert (H : generate_reachable
    (KVCacheGenerate.Build (wrap [[[[0%Q]]]]) (wrap [[[[0%Q]]]]) [0] [0]
       example_sharding)).
  { eapply (reach_init _ _ (PyTensor1 [0])). reflexivity. }
  split; [exact H|].
  exact (proj1 (generate_unflatten_flatten _ H)).
Defined.

(** C5 fails as stated: the Prefill cache [example_prefill] is flattened to
    its two tensors and its flag, and reconstruction returns [None], not the
    cache; and the int8 Generate class has no flatten and reconstruct
    functions registered. *)
Lemma prefill_unflatten_counterexample :
  KVCachePrefill_unflatten (snd (KVCachePrefill_flatten example_prefill))
    (fst (KVCachePrefill_flatten example_prefill)) <> Some example_prefill /\
  Int8KVCacheGenerate_cls ∉ pytree_registry.
Proof. split; [done|]. apply int8_not_registered. Qed.

End PytreeFacts.

(** ** Index normalisation *)

Module IndexFacts.

Lemma norm_index_of_nat (n i : nat) :
  norm_index n (Z.of_nat i) = if decide (i < n)%nat then Some i else None.
Proof.
  unfold norm_index. repeat case_decide; try lia; [|done].
  by rewrite Nat2Z.id.
Qed.

Lemma norm_index_in_range (n : nat) (p : Z) :
  0 <= p < Z.of_nat n -> norm_index n p = Some (Z.to_nat p).
Proof. intros. unfold norm_index. by rewrite decide_True. Qed.

Lemma norm_index_negative (n : nat) (p : Z) :
  - Z.of_nat n <= p < 0 -> norm_index n p = Some (Z.to_nat (p + Z.of_nat n)).
Proof.
  intros. unfold norm_index. rewrite decide_False by lia. by rewrite decide_True.
Qed.

Lemma norm_index_outside (n : nat) (p : Z) :
  p < - Z.of_nat n \/ Z.of_nat n <= p -> norm_index n p = None.
Proof. intros. unfold norm_index. by rewrite !decide_False by lia. Qed.

Lemma norm_index_lt (n : nat) (p : Z) (c : nat) :
  norm_index n p = Some c -> (c < n)%nat.
Proof. unfold norm_index. repeat case_decide; intros [= <-]; lia. Qed.

End IndexFacts.

(** ** Environment *)

Module EnvironmentFacts.
Import IndexFacts JetEngineEnvironment.

Lemma sharding_by_axis_nonneg (mesh : Mesh) (n : nat) :
  sharding_by_axis mesh (Some (Z.of_nat n))
  = Ok {| sharding_mesh := mesh;
          partition_spec := replicate n None ++ [Some "x"%string] |}.
Proof.
  unfold sharding_by_axis. rewrite decide_False by lia.
  unfold py_setitem, py_repeat.
  replace (Z.to_nat (Z.of_nat n + 1)) with (S n) by lia.
  rewrite length_replicate, norm_index_in_range by lia.
  rewrite Nat2Z.id. rewrite bind_Ok. do 2 f_equal.
  rewrite replicate_S_end. rewrite insert_app_r_alt by (rewrite length_replicate; lia).
  by rewrite length_replicate, Nat.sub_diag.
Qed.

(** C8. When the axis the configuration names for the cache (axis 0 under
    batch sharding, otherwise the index of the KV-shard axis name among the
    attention axis names) has extent 1 in the cache shape, the axis used
    for the cache sharding is the last axis of the cache shape, and the
    environment that is constructed shards the cache along it. *)
Theorem cache_sharding_axis_fallback (data : JetEngineEnvironmentData) (a : Z) :
  nominal_cache_axis data = Ok a ->
  py_getitem (cache_shape data) a = Ok 1 ->
  cache_sharding_axis data = Ok (Z.of_nat (length (cache_shape data)) - 1) /\
  forall w env, init w data = Ok env ->
    partition_spec (cache_sharding env)
    = replicate (length (cache_shape data) - 1) None ++ [Some "x"%string].
Proof.
  intros Ha Hext.
  assert (Haxis : cache_sharding_axis data
                  = Ok (Z.of_nat (length (cache_shape data)) - 1)).
  { unfold cache_sharding_axis. rewrite Ha, bind_Ok, Hext, bind_Ok.
    by rewrite decide_True. }
  split; [done|].
  intros w env Hinit. unfold init in Hinit. rewrite Haxis, bind_Ok in Hinit.
  assert (Hlen : (0 < length (cache_shape data))%nat).
  { destruct (cache_shape data); [|simpl; lia].
    unfold py_getitem, norm_index in Hext. simpl in Hext.
    repeat case_decide; (done || lia). }
  replace (Z.of_nat (length (cache_shape data)) - 1)
    with (Z.of_nat (length (cache_shape data) - 1)) in Hinit by lia.
  rewrite sharding_by_axis_nonneg, bind_Ok in Hinit.
  apply bind_inv_Ok in Hinit as (cfg & _ & [= <-]). done.
Qed.

Lemma cache_sharding_axis_fallback_witness :
  cache_sharding_axis example_data = Ok 3 /\
  forall w env, init w example_data = Ok env ->
    partition_spec (cache_sharding env) = [None; None; None; Some "x"%string].
Proof.
  exact (cache_sharding_axis_fallback example_data 0 eq_refl eq_refl).
Defined.

(** Construction succeeds exactly when the cache axis resolves and the
    configuration path is empty or names a readable document; which names
    the document has rules for plays no part. *)
Lemma init_ok (w : World) (data : JetEngineEnvironmentData) :
  is_ok (init w data)
  = is_ok (cache_sharding_axis data ≫= fun a =>
             sharding_by_axis
               {| mesh_shape := (device_count w, 1%nat);
                  axis_names := ["x"; "y"]%string |} (Some a))
    && bool_decide (sharding_config_path data = ""%string \/
                    is_Some (yaml_files w !! sharding_config_path data)).
Proof.
  unfold init, _load_sharding_config.
  destruct (cache_sharding_axis data) as [a|e]; [|done]. rewrite !bind_Ok.
  destruct (sharding_by_axis _ (Some a)) as [sh|e]; [|done]. rewrite bind_Ok.
  simpl. case_decide as Hp.
  - rewrite bool_decide_eq_true_2 by auto. done.
  - destruct (yaml_files w !! sharding_config_path data) as [doc|] eqn:Hdoc.
    + rewrite bool_decide_eq_true_2 by (right; eauto). done.
    + rewrite bool_decide_eq_false_2; [done|].
      intros [?|[? ?]]; [done|discriminate].
Qed.

Example wildcard_rule_shared (self : t) :
  shard_on_batch (_data self) = false ->
  _sharding_config self = {[ "attention.*.wq.weight"%string := Some 0 ]} ->
  sharding_by_name self "attention.3.wq.weight"
    = Ok (axis0_sharding (_mesh self)) /\
  sharding_by_name self "attention.17.wq.weight"
    = Ok (axis0_sharding (_mesh self)).
Proof.
  intros Hb Hcfg. unfold sharding_by_name. rewrite Hb, Hcfg. split; reflexivity.
Qed.

(** Two names with the same normal form and no rule of their own get the
    same answer, a sharding or the error. *)
Lemma same_normal_form_same_sharding (self : t) (n1 n2 : string) :
  Naming.process_sharding_name n1 = Naming.process_sharding_name n2 ->
  _sharding_config self !! n1 = None ->
  _sharding_config self !! n2 = None ->
  sharding_by_name self n1 = sharding_by_name self n2.
Proof.
  intros Hnorm H1 H2. unfold sharding_by_name.
  destruct (shard_on_batch (_data self)); [done|].
  by rewrite H1, H2, Hnorm.
Qed.

(** C7, as the code has it.  [sharding_by_name] returns the axis-0 sharding
    for every name when batch sharding is on, without reading the sharding
    rules; otherwise it uses the rule stored under the name itself, else
    the rule stored under the wildcard-normalised name, and when neither
    exists the call raises RuntimeError.  Constructing the environment
    never raises for a missing rule: it succeeds whenever the cache axis
    resolves and the configuration path is empty or readable. *)
Theorem sharding_by_name_resolution :
  (forall (self : t) (name : string),
     sharding_by_name self name =
     if shard_on_batch (_data self) then Ok (axis0_sharding (_mesh self))
     else match _sharding_config self !! name,
                _sharding_config self !! Naming.process_sharding_name name with
          | Some axis, _ => sharding_by_axis (_mesh self) axis
          | None, Some axis => sharding_by_axis (_mesh self) axis
          | None, None =>
              Raise (RuntimeError ["Sharding for name: ";
                                   Naming.process_sharding_name name;
                                   " not specified"]%string)
          end) /\
  (forall (w : World) (data : JetEngineEnvironmentData),
     is_ok (init w data)
     = is_ok (cache_sharding_axis data ≫= fun a =>
                sharding_by_axis
                  {| mesh_shape := (device_count w, 1%nat);
                     axis_names := ["x"; "y"]%string |} (Some a))
       && bool_decide (sharding_config_path data = ""%string \/
                       is_Some (yaml_files w !! sharding_config_path data))).
Proof.
  split; [|apply init_ok].
  intros self name. unfold sharding_by_name.
  destruct (shard_on_batch (_data self)); [reflexivity|].
  destruct (_sharding_config self !! name); [done|].
  by destruct (_sharding_config self !! Naming.process_sharding_name name).
Qed.

(** C7 fails as stated: with no sharding document the environment for
    [example_data_heads] is constructed without error although no rule
    matches the name below; the error is raised by the later call of
    [sharding_by_name]. *)
Lemma missing_rule_counterexample :
  exists env,
    init example_world example_data_heads = Ok env /\
    _sharding_config env !! "layers.0.attention.wq.weight"%string = None /\
    _sharding_config env !! "layers.*.attention.wq.weight"%string = None /\
    sharding_by_name env "layers.0.attention.wq.weight"
    = Raise (RuntimeError ["Sharding for name: ";
                           "layers.*.attention.wq.weight";
                           " not specified"]%string).
Proof. eexists. split; [reflexivity|]. repeat split; reflexivity. Qed.

End EnvironmentFacts.

(** ** Tensors and the indexed store *)

Module TensorFacts.

Section Shapes.
Context {A : Type}.
Implicit Types (x : tensor4 A) (u : tensor3 A).

Lemma has_shape3_lookup n1 n2 n3 u i j k :
  has_shape3 n1 n2 n3 u -> (i < n1)%nat -> (j < n2)%nat -> (k < n3)%nat ->
  exists m row a,
    u !! i = Some m /\ length m = n2 /\
    m !! j = Some row /\ length row = n3 /\ row !! k = Some a.
Proof.
  intros [Hlen Hall] Hi Hj Hk.
  destruct (lookup_lt_is_Some_2 u i) as [m Hm]; [lia|].
  pose proof (proj1 (Forall_lookup _ _) Hall i m Hm) as [Hm2 Hrows].
  destruct (lookup_lt_is_Some_2 m j) as [row Hrow]; [lia|].
  pose proof (proj1 (Forall_lookup _ _) Hrows j row Hrow) as Hr.
  simpl in Hr.
  destruct (lookup_lt_is_Some_2 row k) as [a Ha]; [lia|].
  by exists m, row, a.
Qed.

Lemma has_shape4_lookup nb nh ns nd x b :
  has_shape4 (nb, nh, ns, nd) x -> (b < nb)%nat ->
  exists m, x !! b = Some m /\ has_shape3 nh ns nd m.
Proof.
  intros [Hlen Hall] Hb.
  destruct (lookup_lt_is_Some_2 x b) as [m Hm]; [lia|].
  exists m. split; [done|]. exact (proj1 (Forall_lookup _ _) Hall b m Hm).
Qed.

Lemma has_shape4_lookup_inv nb nh ns nd x b m :
  has_shape4 (nb, nh, ns, nd) x -> x !! b = Some m -> has_shape3 nh ns nd m.
Proof. intros [_ Hall] Hm. exact (proj1 (Forall_lookup _ _) Hall b m Hm). Qed.

Lemma shape4_has_shape nb nh ns nd x :
  has_shape4 (nb, nh, ns, nd) x ->
  (0 < nb)%nat -> (0 < nh)%nat -> (0 < ns)%nat ->
  shape4 x = (nb, nh, ns, nd).
Proof.
  intros Hx Hb Hh Hs.
  destruct (has_shape4_lookup _ _ _ _ _ 0%nat Hx Hb) as (m & Hm & Hlen & Hall).
  destruct (lookup_lt_is_Some_2 m 0%nat) as [mat Hmat]; [lia|].
  pose proof (proj1 (Forall_lookup _ _) Hall 0%nat mat Hmat) as [Hmatlen Hrows].
  destruct (lookup_lt_is_Some_2 mat 0%nat) as [row Hrow]; [lia|].
  pose proof (proj1 (Forall_lookup _ _) Hrows 0%nat row Hrow) as Hr.
  simpl in Hr.
  unfold shape4. destruct Hx as [Hx _].
  destruct x as [|? ?], m as [|? ?], mat as [|? ?]; simplify_eq/=. done.
Qed.

Lemma drop_axis2_shape n nh nd x :
  has_shape4 (n, nh, 1%nat, nd) x -> has_shape3 n nh nd (drop_axis2 x).
Proof.
  intros [Hlen Hall]. split; [by unfold drop_axis2; rewrite length_fmap|].
  unfold drop_axis2. apply Forall_fmap. eapply Forall_impl; [exact Hall|].
  intros m [Hm Hmats]. simpl. rewrite length_fmap. split; [done|].
  apply Forall_fmap. eapply Forall_impl; [exact Hmats|].
  intros mat [Hmat Hrows]. simpl.
  destruct mat as [|row [|? ?]]; simplify_eq/=. by inversion Hrows.
Qed.

Lemma drop_axis2_get x b h d :
  (forall m mat, x !! b = Some m -> m !! h = Some mat -> length mat = 1%nat) ->
  get3 (drop_axis2 x) b h d = get4 x b h 0 d.
Proof.
  intros Hone. unfold get3, get4, get3, drop_axis2.
  rewrite list_lookup_fmap. destruct (x !! b) as [m|] eqn:Hm; [simpl|done].
  rewrite list_lookup_fmap. destruct (m !! h) as [mat|] eqn:Hmat; [simpl|done].
  specialize (Hone m mat eq_refl Hmat).
  destruct mat as [|row [|? ?]]; simplify_eq/=. done.
Qed.

Lemma drop_axis2_cell n nh nd x b h d :
  has_shape4 (n, nh, 1%nat, nd) x ->
  get3 (drop_axis2 x) b h d = get4 x b h 0 d.
Proof.
  intros [_ Hall]. apply drop_axis2_get. intros m mat Hm Hmat.
  pose proof (proj1 (Forall_lookup _ _) Hall b m Hm) as [_ Hmats].
  by pose proof (proj1 (Forall_lookup _ _) Hmats h mat Hmat) as [? _].
Qed.

(** [torch.squeeze(x, 2)] removes the axis of a step tensor. *)
Lemma squeeze2_step n nh nd x :
  has_shape4 (n, nh, 1%nat, nd) x -> (0 < n)%nat -> (0 < nh)%nat ->
  squeeze2 x = Squeezed (drop_axis2 x).
Proof.
  intros Hx Hn Hh. unfold squeeze2.
  rewrite (shape4_has_shape n nh 1 nd) by (done || lia).
  by rewrite decide_True.
Qed.

(** *** Broadcasting *)

Lemma broadcast_axis_id {X} (n : nat) (l : list X) :
  length l = n -> broadcast_axis n l = Some l.
Proof. intros Hl. unfold broadcast_axis. by rewrite decide_True. Qed.

Lemma broadcast_axis_length {X} (n : nat) (l l' : list X) :
  broadcast_axis n l = Some l' -> length l' = n.
Proof.
  unfold broadcast_axis. case_decide as Hl; [by intros [= <-]|].
  destruct l as [|a [|? ?]]; try done. intros [= <-]. apply length_replicate.
Qed.

Lemma broadcast_axis_Forall {X} (P : X -> Prop) (n : nat) (l l' : list X) :
  broadcast_axis n l = Some l' -> Forall P l -> Forall P l'.
Proof.
  unfold broadcast_axis. case_decide as Hl; [by intros [= <-]|].
  destruct l as [|a [|? ?]]; try done. intros [= <-] Hall.
  apply Forall_replicate. by inversion Hall.
Qed.

Lemma mapM_id {X} (f : X -> option X) (l : list X) :
  Forall (fun a => f a = Some a) l -> mapM f l = Some l.
Proof.
  intros Hall. apply mapM_Some. induction Hall; constructor; done.
Qed.

(** A tensor that has the shape asked for is broadcast to itself. *)
Lemma broadcast3_id n1 n2 n3 u :
  has_shape3 n1 n2 n3 u -> broadcast3 n1 n2 n3 u = Some u.
Proof.
  intros [Hlen Hall]. unfold broadcast3.
  rewrite mapM_id; [simpl; by apply broadcast_axis_id|].
  eapply Forall_impl; [exact Hall|]. intros m [Hm Hrows]. simpl.
  rewrite mapM_id; [simpl; by apply broadcast_axis_id|].
  eapply Forall_impl; [exact Hrows|]. intros row Hrow.
  by apply broadcast_axis_id.
Qed.

(** What [broadcast3] returns has the shape asked for. *)
Lemma broadcast3_shape n1 n2 n3 u u' :
  broadcast3 n1 n2 n3 u = Some u' -> has_shape3 n1 n2 n3 u'.
Proof.
  unfold broadcast3. intros Hb.
  apply bind_Some in Hb as (t' & Ht' & Hb).
  split; [by eapply broadcast_axis_length|].
  eapply broadcast_axis_Forall; [exact Hb|].
  apply mapM_Some in Ht'. clear Hb.
  induction Ht' as [|m m' ? ? Hm _ IH]; constructor; [|done].
  apply bind_Some in Hm as (m0 & Hm0 & Hm).
  split; [by eapply broadcast_axis_length|].
  eapply broadcast_axis_Forall; [exact Hm|].
  apply mapM_Some in Hm0. clear Hm.
  induction Hm0 as [|row row' ? ? Hrow _ IH']; constructor; [|done].
  by eapply broadcast_axis_length.
Qed.
End Shapes.

End TensorFacts.

Module ScatterFacts.
Import IndexFacts TensorFacts.

Section Scatter.
Context {A : Type}.
Implicit Types (x : tensor4 A) (upd : tensor3 A) (m : tensor3 A).

Lemma scatter_lookup (nc : nat) (pos : list Z) :
  forall upd (k : nat) x (b : nat),
    length upd = length pos ->
    scatter (length x) nc x (seqZ (Z.of_nat k) (Z.of_nat (length pos))) pos upd !! b
    = (fun m =>
         match pos !! (b - k)%nat, upd !! (b - k)%nat with
         | Some p, Some slab =>
             if decide (k <= b)%nat then write_row nc p slab m else m
         | _, _ => m
         end) <$> x !! b.
Proof.
  induction pos as [|p pos IH]; intros upd k x b Hlen.
  - simpl. by destruct (x !! b).
  - destruct upd as [|slab upd]; [done|]. injection Hlen as Hlen.
    replace (Z.of_nat (length (p :: pos))) with (Z.succ (Z.of_nat (length pos)))
      by (simpl; lia).
    rewrite seqZ_cons by lia. rewrite Z.pred_succ. simpl scatter.
    replace (Z.succ (Z.of_nat k)) with (Z.of_nat (S k)) by lia.
    rewrite norm_index_of_nat.
    set (x' := match (if decide (k < length x)%nat then Some k else None),
                     norm_index nc p with
               | Some b', Some p' => alter (set_column p' slab) b' x
               | _, _ => x
               end).
    assert (Hx' : length x' = length x).
    { unfold x'. case_decide; [|done]. destruct (norm_index nc p); [|done].
      by rewrite length_alter. }
    rewrite <- Hx'. rewrite IH by done.
    destruct (decide (b = k)) as [->|Hne].
    + rewrite Nat.sub_diag. simpl.
      replace (k - S k)%nat with 0%nat by lia.
      assert (Hxk : x' !! k = write_row nc p slab <$> x !! k).
      { unfold x', write_row. case_decide as Hk.
        - destruct (norm_index nc p) as [p'|].
          + by rewrite list_lookup_alter_eq.
          + by destruct (x !! k).
        - by rewrite lookup_ge_None_2 by lia. }
      rewrite Hxk. destruct (x !! k) as [m|]; [simpl|done]. f_equal.
      rewrite (decide_True (P := (k <= k)%nat)) by lia.
      destruct (pos !! 0%nat), (upd !! 0%nat); try done.
      by rewrite decide_False by lia.
    + assert (Hxb : x' !! b = x !! b).
      { unfold x'. case_decide; [|done]. destruct (norm_index nc p); [|done].
        by rewrite list_lookup_alter_ne. }
      rewrite Hxb. destruct (x !! b) as [m|]; [simpl|done]. f_equal.
      destruct (decide (k <= b)%nat) as [Hle|Hgt].
      * replace (b - k)%nat with (S (b - S k)) by lia. simpl.
        destruct (pos !! (b - S k)%nat); [|done].
        destruct (upd !! (b - S k)%nat); [|done].
        by rewrite decide_True by lia.
      * destruct (pos !! (b - S k)%nat), (upd !! (b - S k)%nat),
          ((p :: pos) !! (b - k)%nat), ((slab :: upd) !! (b - k)%nat);
          try done; by rewrite ?decide_False by lia.
Qed.

Lemma set_column_get (p : nat) (slab : list (list A)) m (h c d : nat) mat row :
  m !! h = Some mat -> slab !! h = Some row -> (c < length mat)%nat ->
  get3 (set_column p slab m) h c d
  = if decide (p = c) then row !! d else get3 m h c d.
Proof.
  intros Hmat Hrow Hc. unfold get3, set_column.
  rewrite list_lookup_imap, Hmat. simpl. rewrite Hrow.
  case_decide as Hp.
  - subst. by rewrite list_lookup_insert_eq.
  - by rewrite list_lookup_insert_ne.
Qed.

(** The cells of [x.at[arange(n), :, pos].set(upd)]: in row [b] the
    column that [pos[b]] denotes holds [upd[b]], every other cell is
    the cell of [x]. *)
Lemma scatter_get (nb nh nc nd : nat) x (pos : list Z) upd (b h c d : nat) :
  has_shape4 (nb, nh, nc, nd) x ->
  has_shape3 (length pos) nh nd upd ->
  (b < nb)%nat -> (h < nh)%nat -> (c < nc)%nat ->
  get4 (scatter nb nc x (arange (length pos)) pos upd) b h c d
  = match pos !! b with
    | Some p =>
        if decide (norm_index nc p = Some c) then get3 upd b h d
        else get4 x b h c d
    | None => get4 x b h c d
    end.
Proof.
  intros Hx Hupd Hb Hh Hc.
  assert (Hnb : length x = nb) by (by destruct Hx).
  unfold get4, arange. rewrite <- Hnb at 1.
  change (seqZ 0) with (seqZ (Z.of_nat 0)).
  rewrite (scatter_lookup nc pos upd 0 x b) by (by destruct Hupd).
  rewrite Nat.sub_0_r.
  destruct (lookup_lt_is_Some_2 x b) as [m Hm]; [lia|]. rewrite Hm. simpl.
  destruct (has_shape4_lookup_inv nb nh nc nd x b m Hx Hm) as [Hmlen Hmall].
  destruct (pos !! b) as [p|] eqn:Hp; [|done].
  assert (Hbp : (b < length pos)%nat) by (by apply lookup_lt_Some in Hp).
  destruct Hupd as [Hulen Huall].
  destruct (lookup_lt_is_Some_2 upd b) as [slab Hslab]; [lia|].
  pose proof (proj1 (Forall_lookup _ _) Huall b slab Hslab) as [Hslen Hsall].
  simpl in Hslen. rewrite Hslab.
  destruct (lookup_lt_is_Some_2 m h) as [mat Hmat]; [lia|].
  destruct (lookup_lt_is_Some_2 slab h) as [row Hrow]; [lia|].
  pose proof (proj1 (Forall_lookup _ _) Hmall h mat Hmat) as [Hmatlen _].
  simpl in Hmatlen.
  unfold write_row. destruct (norm_index nc p) as [p'|] eqn:Hnorm.
  - rewrite (set_column_get p' slab m h c d mat row) by (done || lia).
    destruct (decide (p' = c)) as [->|Hne].
    + rewrite decide_True by done. unfold get3. rewrite Hslab. simpl.
      by rewrite Hrow.
    + rewrite decide_False by congruence. done.
  - by rewrite decide_False by done.
Qed.

Lemma set_column_shape (nh nc nd p : nat) (slab : list (list A)) m :
  has_shape3 nh nc nd m ->
  Forall (fun row => length row = nd) slab ->
  has_shape3 nh nc nd (set_column p slab m).
Proof.
  intros [Hlen Hall] Hslab. unfold set_column. split.
  - by rewrite length_imap.
  - apply Forall_lookup. intros h mat' Hmat'.
    rewrite list_lookup_imap in Hmat'.
    destruct (m !! h) as [mat|] eqn:Hmat; [|done]. simpl in Hmat'.
    pose proof (proj1 (Forall_lookup _ _) Hall h mat Hmat) as [Hmlen Hrows].
    simpl in Hmlen.
    destruct (slab !! h) as [row|] eqn:Hrow; simplify_eq; [|done].
    pose proof (proj1 (Forall_lookup _ _) Hslab h row Hrow) as Hr.
    simpl in Hr. split; [by rewrite length_insert|].
    by apply Forall_insert.
Qed.

Lemma scatter_shape (nb nh nc nd : nat) (batch pos : list Z) :
  forall upd x,
    has_shape4 (nb, nh, nc, nd) x ->
    has_shape3 (length upd) nh nd upd ->
    has_shape4 (nb, nh, nc, nd) (scatter nb nc x batch pos upd).
Proof.
  revert pos. induction batch as [|b batch IH]; intros pos upd x Hx [_ Hupd];
    [done|].
  destruct pos as [|p pos]; [done|]. destruct upd as [|slab upd]; [done|].
  inversion Hupd as [|? ? [Hslen Hsrows] Hupd']; subst. simpl.
  apply IH; [|by split].
  destruct (norm_index nb b) as [b'|]; [|done].
  destruct (norm_index nc p) as [p'|]; [|done].
  destruct Hx as [Hlen Hall]. split; [by rewrite length_alter|].
  apply Forall_alter; [done|]. intros m Hm Hshape.
  by apply set_column_shape.
Qed.

Lemma broadcast_indices_same (batch pos : list Z) :
  length batch = length pos -> broadcast_indices batch pos = Some (batch, pos).
Proof.
  intros Hlen. unfold broadcast_indices, broadcast_axis. rewrite <- Hlen.
  destruct (decide (length batch = 1%nat)); by rewrite !decide_True by done.
Qed.

Lemma at_set_arange (nb nh nc nd : nat) x (pos : list Z) upd :
  has_shape4 (nb, nh, nc, nd) x ->
  (0 < nb)%nat -> (0 < nh)%nat -> (0 < nc)%nat ->
  has_shape3 (length pos) nh nd upd ->
  at_set x (arange (length pos)) pos (Squeezed upd)
  = Ok (scatter nb nc x (arange (length pos)) pos upd).
Proof.
  intros Hx Hb Hh Hc Hupd. unfold at_set.
  rewrite (shape4_has_shape nb nh nc nd) by done.
  assert (Hlen : length (arange (length pos)) = length pos).
  { unfold arange. rewrite length_seqZ. lia. }
  rewrite broadcast_indices_same by done. by rewrite Hlen, broadcast3_id.
Qed.

(** The indexed store keeps the shape of the array, whatever the indices
    and the update are. *)
Lemma at_set_shape (nb nh nc nd : nat) x x' (batch pos : list Z)
    (upd : squeezed A) :
  has_shape4 (nb, nh, nc, nd) x ->
  (0 < nb)%nat -> (0 < nh)%nat -> (0 < nc)%nat ->
  at_set x batch pos upd = Ok x' ->
  has_shape4 (nb, nh, nc, nd) x'.
Proof.
  intros Hx Hb Hh Hc. unfold at_set.
  rewrite (shape4_has_shape nb nh nc nd) by done.
  destruct upd as [upd|t]; [|done].
  destruct (broadcast_indices batch pos) as [[batch' pos']|]; [|done].
  destruct (broadcast3 _ _ _ upd) as [upd'|] eqn:Hbc; [|done].
  intros [= <-]. apply broadcast3_shape in Hbc.
  apply scatter_shape; [done|]. by rewrite (proj1 Hbc).
Qed.
End Scatter.

End ScatterFacts.

(** ** Wide-dtype Generate cache *)

Module GenerateFacts.
Import KVCacheGenerate.

(** [torch.squeeze] refuses a JAX array, whatever its shape. *)
Lemma torch_squeeze2_jax {A} (a : tensor4 A) :
  torch_squeeze2 (JaxArray a) = Raise TypeError.
Proof. reflexivity. Qed.

(** C3.  What the code does where the claim expects a write: for every
    cache, key and value, [update] raises TypeError and leaves the cache as
    it was.  [torch.squeeze] is handed the JAX array that [unwrap] returns,
    and raises before the store of the key is reached; no cell of either
    buffer is written. *)
Theorem update_raises_before_store (c : t) (key value : XLATensor2 (tensor4 Q)) :
  update c key value = (c, Raise TypeError).
Proof. unfold update. cbv zeta. by rewrite torch_squeeze2_jax. Qed.

End GenerateFacts.

(** ** Floating-point arithmetic *)

Module FloatFacts.

Local Open Scope Q_scope.

Lemma pow2_pos (e : Z) : 0 < pow2 e.
Proof. unfold pow2. by apply Qpower_0_lt. Qed.

Lemma pow2_add (a b : Z) : pow2 (a + b) == pow2 a * pow2 b.
Proof. unfold pow2. by apply Qpower_plus. Qed.

Lemma pow2_le (a b : Z) : (a <= b)%Z -> pow2 a <= pow2 b.
Proof. intros. unfold pow2. by apply Qpower_le_compat_l. Qed.

Lemma pow2_lt_inv (a b : Z) : pow2 a < pow2 b -> (a < b)%Z.
Proof. unfold pow2. intros H. by apply Qpower_lt_compat_l_inv in H. Qed.

Lemma pow2_Z (n : Z) : (0 <= n)%Z -> pow2 n == inject_Z (2 ^ n).
Proof. intros. unfold pow2. symmetry. by apply Zpower_Qpower. Qed.

Lemma pow2_opp (e : Z) : pow2 (- e) * pow2 e == 1.
Proof.
  rewrite <- pow2_add. replace (- e + e)%Z with 0%Z by lia. reflexivity.
Qed.

(** [Qlog2] is the exponent of the leading binary digit. *)
Lemma Qlog2_spec (a : Q) :
  0 < a -> pow2 (Qlog2 a) <= a /\ a < pow2 (Qlog2 a + 1).
Proof.
  intros Ha. unfold Qlog2.
  destruct a as [n d]. cbn [Qnum Qden].
  assert (Hn : (0 < n)%Z) by (unfold Qlt in Ha; simpl in Ha; lia).
  pose proof (Z.log2_spec n Hn) as [Hn1 Hn2].
  pose proof (Z.log2_spec (Z.pos d) ltac:(lia)) as [Hd1 Hd2].
  pose proof (Z.log2_nonneg n) as Hln.
  pose proof (Z.log2_nonneg (Z.pos d)) as Hld.
  set (ln := Z.log2 n) in *. set (ld := Z.log2 (Z.pos d)) in *.
  assert (Hnd : n # d == inject_Z n / inject_Z (Z.pos d)) by apply Qmake_Qdiv.
  assert (HN1 : pow2 ln <= inject_Z n).
  { rewrite pow2_Z by done. by rewrite <- Zle_Qle. }
  assert (HN2 : inject_Z n < pow2 (ln + 1)).
  { rewrite pow2_Z by lia. rewrite <- Zlt_Qlt. by rewrite <- Z.add_1_r in Hn2. }
  assert (HD1 : pow2 ld <= inject_Z (Z.pos d)).
  { rewrite pow2_Z by done. by rewrite <- Zle_Qle. }
  assert (HD2 : inject_Z (Z.pos d) < pow2 (ld + 1)).
  { rewrite pow2_Z by lia. rewrite <- Zlt_Qlt. by rewrite <- Z.add_1_r in Hd2. }
  assert (HD0 : 0 < inject_Z (Z.pos d)) by (by rewrite <- (Zlt_Qlt 0)).
  pose proof (pow2_pos ld) as Hpld. pose proof (pow2_pos (ld + 1)) as Hpld1.
  pose proof (pow2_pos ln) as Hpln.
  destruct (Qle_bool (pow2 (ln - ld)) (n # d)) eqn:Htest.
  - apply Qle_bool_iff in Htest. split; [done|]. rewrite Hnd.
    apply Qlt_shift_div_r; [done|].
    replace (ln - ld + 1)%Z with ((ln + 1) + - ld)%Z by lia.
    rewrite pow2_add.
    pose proof (pow2_opp ld) as Hopp. pose proof (pow2_pos (- ld)) as Hpo.
    pose proof (pow2_pos (ln + 1)) as Hpln1.
    assert (H1 : 1 <= pow2 (- ld) * inject_Z (Z.pos d)) by nra.
    nra.
  - assert (Hlt : n # d < pow2 (ln - ld)).
    { apply Qnot_le_lt. intros Hle. apply Qle_bool_iff in Hle. congruence. }
    replace (ln - ld - 1 + 1)%Z with (ln - ld)%Z by lia. split; [|done].
    rewrite Hnd. apply Qle_shift_div_l; [done|].
    replace (ln - ld - 1)%Z with (ln + - (ld + 1))%Z by lia.
    rewrite pow2_add.
    pose proof (pow2_opp (ld + 1)) as Hopp.
    pose proof (pow2_pos (- (ld + 1))) as Hpo.
    assert (H1 : pow2 (- (ld + 1)) * inject_Z (Z.pos d) <= 1) by nra.
    nra.
Qed.

(** Rounding to the nearest integer moves a number by a half at most. *)
Lemma Qround_nearest_error (t : Q) :
  Qabs (inject_Z (Qround_nearest t) - t) <= 1 # 2.
Proof.
  unfold Qround_nearest.
  pose proof (Qfloor_le t) as Hlo. pose proof (Qlt_floor t) as Hhi.
  rewrite inject_Z_plus in Hhi. change (inject_Z 1) with 1 in Hhi.
  apply Qabs_Qle_condition.
  destruct (Qcompare_spec (t - inject_Z (Qfloor t)) (1 # 2)) as [He|Hl|Hg].
  - destruct (Z.even (Qfloor t)); rewrite ?inject_Z_plus;
      change (inject_Z 1) with 1; split; lra.
  - split; lra.
  - rewrite inject_Z_plus. change (inject_Z 1) with 1. split; lra.
Qed.

Lemma Qround_nearest_integer (t : Q) (k : Z) :
  t == inject_Z k -> Qround_nearest t = k.
Proof.
  intros Ht. unfold Qround_nearest.
  rewrite (Qfloor_comp _ _ Ht), Qfloor_Z.
  assert (Hc : (t - inject_Z k ?= 1 # 2) = Lt).
  { apply (proj1 (Qlt_alt _ _)). lra. }
  by rewrite Hc.
Qed.

Lemma Qabs_Qred (x : Q) : Qabs (Qred x) == Qabs x.
Proof. apply Qabs_wd, Qred_correct. Qed.

Lemma inject_Z_sub (a b : Z) : inject_Z (a - b) == inject_Z a - inject_Z b.
Proof.
  unfold Z.sub. rewrite inject_Z_plus, inject_Z_opp. reflexivity.
Qed.

Lemma Qabs_pos_nz (x : Q) : ~ x == 0 -> 0 < Qabs x.
Proof.
  intros Hx. pose proof (Qabs_nonneg x) as H0.
  apply Qle_lt_or_eq in H0 as [?|He]; [done|].
  exfalso. apply Hx.
  assert (Hle : Qabs x <= 0) by (rewrite <- He; apply Qle_refl).
  apply Qabs_Qle_condition in Hle. lra.
Qed.

Section Format.
Variable fmt : float_format.

Lemma round_to_zero (x : Q) : x == 0 -> round_to fmt x = 0.
Proof.
  intros Hx. unfold round_to.
  assert (H : Qeq_bool (Qred x) 0 = true).
  { apply Qeq_bool_iff. by rewrite Qred_correct. }
  by rewrite H.
Qed.

Lemma round_to_comp (x y : Q) : x == y -> round_to fmt x = round_to fmt y.
Proof. intros Hxy. unfold round_to. by rewrite (Qred_complete _ _ Hxy). Qed.

(** The quantum of a number: at least [2 ^ emin], and otherwise at most
    the number's magnitude times [2 ^ (1 - prec)]. *)
Lemma quantum_bound (x : Q) :
  ~ x == 0 ->
  pow2 (quantum fmt (Qred x)) <= Qabs x * pow2 (1 - prec fmt) \/
  quantum fmt (Qred x) = emin fmt.
Proof.
  intros Hx. unfold quantum.
  assert (Ha : 0 < Qabs (Qred x)).
  { rewrite Qabs_Qred. by apply Qabs_pos_nz. }
  destruct (Qlog2_spec _ Ha) as [Hlo _].
  set (L := Qlog2 (Qabs (Qred x))) in *. rewrite Qabs_Qred in Hlo.
  destruct (Z.max_spec (L - (prec fmt - 1)) (emin fmt))
    as [[_ ->]|[_ ->]]; [by right|]. left.
  replace (L - (prec fmt - 1))%Z with (L + (1 - prec fmt))%Z by lia.
  rewrite pow2_add. pose proof (pow2_pos (1 - prec fmt)). nra.
Qed.

(** A number below [2 ^ j] in magnitude has a quantum of [2 ^ (j - prec)],
    or [2 ^ emin], at most. *)
Lemma quantum_small (x : Q) (j : Z) :
  ~ x == 0 -> Qabs x < pow2 j ->
  (quantum fmt (Qred x) <= Z.max (j - prec fmt) (emin fmt))%Z.
Proof.
  intros Hx Hj. unfold quantum.
  assert (Ha : 0 < Qabs (Qred x)).
  { rewrite Qabs_Qred. by apply Qabs_pos_nz. }
  destruct (Qlog2_spec _ Ha) as [Hlo _].
  set (L := Qlog2 (Qabs (Qred x))) in *. rewrite Qabs_Qred in Hlo.
  assert (Hl : (L < j)%Z).
  { apply pow2_lt_inv. lra. }
  lia.
Qed.

(** The rounded number is a multiple of the quantum, half a quantum away
    at most. *)
Lemma round_to_grid (x : Q) :
  ~ x == 0 ->
  exists n : Z,
    round_to fmt x == inject_Z n * pow2 (quantum fmt (Qred x)) /\
    Qabs (round_to fmt x - x) <= pow2 (quantum fmt (Qred x)) * (1 # 2).
Proof.
  intros Hx. unfold round_to.
  assert (H : Qeq_bool (Qred x) 0 = false).
  { destruct (Qeq_bool (Qred x) 0) eqn:E; [|done].
    apply Qeq_bool_iff in E. rewrite Qred_correct in E. done. }
  rewrite H. set (e := quantum fmt (Qred x)).
  exists (Qround_nearest (Qred x / pow2 e)). rewrite !Qred_correct.
  split; [reflexivity|].
  pose proof (Qround_nearest_error (Qred x / pow2 e)) as Herr.
  pose proof (pow2_pos e) as He.
  set (n := inject_Z (Qround_nearest (Qred x / pow2 e))) in *.
  assert (Hq : Qred x / pow2 e * pow2 e == x).
  { rewrite Qred_correct. field. lra. }
  set (t := Qred x / pow2 e) in *.
  apply Qabs_Qle_condition in Herr as [H1 H2].
  apply Qabs_Qle_condition. split; nra.
Qed.

Lemma round_to_nz (x : Q) :
  ~ x == 0 ->
  round_to fmt x
  == inject_Z (Qround_nearest (Qred x / pow2 (quantum fmt (Qred x))))
     * pow2 (quantum fmt (Qred x)).
Proof.
  intros Hx. unfold round_to.
  assert (H : Qeq_bool (Qred x) 0 = false).
  { destruct (Qeq_bool (Qred x) 0) eqn:E; [|done].
    apply Qeq_bool_iff in E. rewrite Qred_correct in E. done. }
  rewrite H. apply Qred_correct.
Qed.

End Format.

(** *** Truncation *)

(** Truncation moves a number by less than one. *)
Lemma Qtrunc_error (y : Q) : Qabs (inject_Z (Qtrunc y) - y) < 1.
Proof.
  destruct y as [n d]. unfold Qtrunc. simpl Qnum. simpl Qden.
  pose proof (Z.quot_rem' n (Z.pos d)) as Hqr.
  assert (Hrem : (Z.abs (Z.rem n (Z.pos d)) < Z.pos d)%Z).
  { pose proof (Z.rem_bound_abs n (Z.pos d) ltac:(lia)). lia. }
  unfold Qlt, Qabs, Qminus, Qplus, Qopp, inject_Z. simpl.
  replace (Z.quot n (Z.pos d) * Z.pos d + - n * 1)%Z
    with (- Z.rem n (Z.pos d))%Z by lia.
  rewrite Z.abs_opp. lia.
Qed.

Lemma Qtrunc_integer (y : Q) (k : Z) : y == inject_Z k -> Qtrunc y = k.
Proof.
  destruct y as [n d]. unfold Qeq, Qtrunc, inject_Z. simpl. intros Heq.
  replace n with (k * Z.pos d)%Z by lia. apply Z.quot_mul. lia.
Qed.

(** The truncation of a number below [n + 1] in magnitude lies in
    [[-n, n]]. *)
Lemma Qtrunc_range (y : Q) (n : Z) :
  (0 <= n)%Z -> Qabs y < inject_Z (n + 1) -> (- n <= Qtrunc y <= n)%Z.
Proof.
  intros Hn Hy. apply Qabs_Qlt_condition in Hy as [Hlo Hhi].
  destruct y as [num den]. unfold Qtrunc, Qlt, Qopp, inject_Z in *.
  simpl in *.
  destruct (Z.le_gt_cases 0 num) as [Hpos|Hneg].
  - split.
    + pose proof (Z.quot_pos num (Z.pos den) Hpos ltac:(lia)). lia.
    + apply Z.lt_succ_r. apply Z.quot_lt_upper_bound; lia.
  - replace num with (- (- num))%Z by lia. rewrite Z.quot_opp_l by lia.
    split.
    + apply Z.opp_le_mono. rewrite !Z.opp_involutive.
      apply Z.lt_succ_r. apply Z.quot_lt_upper_bound; lia.
    + pose proof (Z.quot_pos (- num) (Z.pos den) ltac:(lia) ltac:(lia)). lia.
Qed.

(** The truncation of a multiple of [2 ^ e], [e <= 0], is one [2 ^ e] less
    than a unit away at most. *)
Lemma Qtrunc_grid (y : Q) (n e : Z) :
  (e <= 0)%Z -> y == inject_Z n * pow2 e ->
  Qabs (inject_Z (Qtrunc y) - y) <= 1 - pow2 e.
Proof.
  intros He Hy.
  pose proof (Qtrunc_error y) as Herr.
  apply Qabs_Qlt_condition in Herr as [Hlo Hhi].
  set (q := Qtrunc y) in *. set (g := (2 ^ (- e))%Z).
  assert (Hg : (1 <= g)%Z).
  { unfold g. pose proof (Z.pow_pos_nonneg 2 (- e) ltac:(lia) ltac:(lia)). lia. }
  assert (HG : pow2 e * inject_Z g == 1).
  { unfold g. rewrite <- pow2_Z by lia. rewrite Qmult_comm. apply pow2_opp. }
  pose proof (pow2_pos e) as HP.
  assert (HG1 : 1 <= inject_Z g) by (by rewrite <- (Zle_Qle 1)).
  set (z := (q * g - n)%Z).
  assert (Hz : inject_Z z == (inject_Z q - y) * inject_Z g).
  { unfold z. rewrite inject_Z_sub, inject_Z_mult, Hy.
    set (P := pow2 e) in *. set (G := inject_Z g) in *.
    transitivity (inject_Z q * G - inject_Z n * (P * G)); [|ring].
    rewrite HG. ring. }
  assert (Hzb : (- g < z < g)%Z).
  { split; rewrite Zlt_Qlt, ?inject_Z_opp, Hz;
      set (G := inject_Z g) in *; nra. }
  assert (Hzb' : - (inject_Z g - 1) <= inject_Z z <= inject_Z g - 1).
  { change 1 with (inject_Z 1). rewrite <- inject_Z_sub, <- inject_Z_opp.
    split; rewrite <- Zle_Qle; lia. }
  assert (Hd : inject_Z q - y == inject_Z z * pow2 e).
  { rewrite Hz. set (P := pow2 e) in *. set (G := inject_Z g) in *.
    transitivity ((inject_Z q - y) * (P * G)); [|ring].
    rewrite HG. ring. }
  apply Qabs_Qle_condition. rewrite Hd.
  set (P := pow2 e) in *. set (G := inject_Z g) in *. set (Z' := inject_Z z) in *.
  destruct Hzb' as [H1 H2]. split; nra.
Qed.

(** *** Division and conversion in a format *)

Lemma max_finite_255 (fmt : float_format) : format_ok fmt -> 255 <= max_finite fmt.
Proof.
  intros (Hp & _ & He). unfold max_finite.
  assert (H1 : 255 <= inject_Z (2 ^ prec fmt - 1)).
  { change 255 with (inject_Z 255). rewrite <- Zle_Qle.
    pose proof (Z.pow_le_mono_r 2 8 (prec fmt) ltac:(lia) Hp).
    change (2 ^ 8)%Z with 256%Z in *. lia. }
  assert (H2 : 1 <= pow2 (emax fmt)).
  { change 1 with (pow2 0). by apply pow2_le. }
  nra.
Qed.

Lemma to_float_finite (fmt : float_format) (x : Q) :
  format_ok fmt -> Qabs (round_to fmt x) <= 255 ->
  to_float fmt x = Finite (round_to fmt x).
Proof.
  intros Hok Hr. unfold to_float.
  assert (H : Qle_bool (Qabs (round_to fmt x)) (max_finite fmt) = true).
  { apply Qle_bool_iff. pose proof (max_finite_255 fmt Hok). lra. }
  by rewrite H.
Qed.

Lemma fdiv_nonzero (fmt : float_format) (x y : Q) :
  ~ y == 0 -> fdiv fmt x y = to_float fmt (x / y).
Proof.
  intros Hy. unfold fdiv.
  destruct (Qeq_bool y 0) eqn:E; [|done]. by apply Qeq_bool_iff in E.
Qed.

Lemma to_int8_fits (cast : float_value -> Z) (y : Q) :
  (-128 <= Qtrunc y <= 127)%Z -> to_int8 cast (Finite y) = Qtrunc y.
Proof. intros Hy. unfold to_int8. by rewrite decide_True. Qed.

(** The scale of a slice whose largest magnitude over 127 is a normal
    number: within 1/256 of that quotient. *)
Lemma scale_rel_error (fmt : float_format) (z : Q) :
  format_ok fmt -> min_normal fmt <= z ->
  z * (255 # 256) <= round_to fmt z <= z * (257 # 256).
Proof.
  intros (Hp & _ & _) Hz. unfold min_normal in Hz.
  pose proof (pow2_pos (emin fmt + prec fmt - 1)) as Hmn.
  assert (Hz0 : ~ z == 0) by lra.
  assert (Habs : Qabs z == z) by (apply Qabs_pos; lra).
  destruct (round_to_grid fmt z Hz0) as (n & _ & Herr).
  assert (Hq : pow2 (quantum fmt (Qred z)) <= z * (1 # 128)).
  { assert (H7 : pow2 (1 - prec fmt) <= 1 # 128).
    { change (1 # 128) with (pow2 (-7)). apply pow2_le. lia. }
    pose proof (pow2_pos (1 - prec fmt)) as Hp7.
    destruct (quantum_bound fmt z Hz0) as [Hb| ->].
    - rewrite Habs in Hb. nra.
    - replace (emin fmt) with ((emin fmt + prec fmt - 1) + (1 - prec fmt))%Z
        at 1 by lia.
      rewrite pow2_add. nra. }
  apply Qabs_Qle_condition in Herr as [H1 H2].
  set (r := round_to fmt z) in *. set (P := pow2 (quantum fmt (Qred z))) in *.
  split; lra.
Qed.

(** Division by a positive scale of a number that is at most 127.5 scales:
    the quotient is finite, its truncation lies in [[-127, 127]], and the
    truncation times the scale misses the number by less than the scale. *)
Lemma quotient_by_scale (fmt : float_format) (x sc : Q) :
  format_ok fmt -> 0 < sc -> Qabs x <= (255 # 2) * sc ->
  exists y,
    fdiv fmt x sc = Finite y /\
    (-127 <= Qtrunc y <= 127)%Z /\
    Qabs (inject_Z (Qtrunc y) * sc - x) < sc.
Proof.
  intros Hok Hsc Hx. pose proof Hok as (Hp & Hemin & _).
  rewrite fdiv_nonzero by lra.
  set (t := x / sc).
  assert (Hxt : x == t * sc) by (unfold t; field; lra).
  apply Qabs_Qle_condition in Hx as [Hx1 Hx2].
  assert (Ht : - (255 # 2) <= t <= 255 # 2) by (split; nra).
  destruct (Qeq_dec t 0) as [Ht0|Ht0].
  - exists 0. rewrite to_float_finite by (done || by rewrite (round_to_zero fmt t Ht0)).
    rewrite (round_to_zero fmt t Ht0). split; [done|]. split; [done|].
    apply Qabs_Qlt_condition. change (inject_Z (Qtrunc 0)) with 0. split; nra.
  - destruct (round_to_grid fmt t Ht0) as (n & Hgrid & Herr).
    assert (Habs : Qabs t < pow2 7).
    { apply Qabs_Qlt_condition. change (pow2 7) with 128. split; lra. }
    pose proof (quantum_small fmt t 7 Ht0 Habs) as He.
    assert (He' : (quantum fmt (Qred t) <= -1)%Z) by lia.
    assert (HP : pow2 (quantum fmt (Qred t)) <= 1 # 2).
    { change (1 # 2) with (pow2 (-1)). by apply pow2_le. }
    pose proof (pow2_pos (quantum fmt (Qred t))) as HP0.
    pose proof (Qtrunc_grid (round_to fmt t) n (quantum fmt (Qred t))
                  ltac:(lia) Hgrid) as Htr.
    set (r := round_to fmt t) in *. set (P := pow2 (quantum fmt (Qred t))) in *.
    apply Qabs_Qle_condition in Herr as [He1 He2].
    apply Qabs_Qle_condition in Htr as [Ht1 Ht2].
    exists r. rewrite to_float_finite; [|done|].
    2:{ fold r. apply Qabs_Qle_condition. split; lra. }
    fold r. split; [done|]. split.
    + apply (Qtrunc_range r 127); [lia|]. apply Qabs_Qlt_condition.
      change (inject_Z (127 + 1)) with 128. split; lra.
    + apply Qabs_Qlt_condition. set (q := inject_Z (Qtrunc r)) in *. split; nra.
Qed.

(** With a normal scale every element of the slice qualifies. *)
Lemma quotient_by_normal_scale (fmt : float_format) (x m : Q) :
  format_ok fmt -> Qabs x <= m -> min_normal fmt <= m / 127 ->
  0 < round_to fmt (m / 127) /\
  exists y,
    fdiv fmt x (round_to fmt (m / 127)) = Finite y /\
    (-127 <= Qtrunc y <= 127)%Z /\
    Qabs (inject_Z (Qtrunc y) * round_to fmt (m / 127) - x)
    < round_to fmt (m / 127).
Proof.
  intros Hok Hx Hm.
  destruct (scale_rel_error fmt (m / 127) Hok Hm) as [Hlo _].
  pose proof (pow2_pos (emin fmt + prec fmt - 1)) as Hmn.
  unfold min_normal in Hm.
  assert (Hz : m == 127 * (m / 127)) by (field; discriminate).
  set (z := m / 127) in *. set (sc := round_to fmt z) in *.
  assert (Hsc : 0 < sc) by lra.
  split; [done|]. apply quotient_by_scale; [done|done|].
  apply Qabs_Qle_condition in Hx as [Hx1 Hx2].
  apply Qabs_Qle_condition. split; lra.
Qed.

(** A small integer is a number of the format. *)
Lemma round_to_integer (fmt : float_format) (t : Q) (k : Z) :
  format_ok fmt -> t == inject_Z k -> (-256 < k < 256)%Z ->
  round_to fmt t == inject_Z k.
Proof.
  intros (Hp & Hemin & _) Ht Hk.
  destruct (Z.eq_dec k 0%Z) as [->|Hk0].
  - by rewrite (round_to_zero fmt t Ht).
  - assert (Ht0 : ~ t == 0).
    { rewrite Ht. change 0 with (inject_Z 0). rewrite inject_Z_injective. done. }
    assert (Habs : Qabs t < pow2 8).
    { apply Qabs_Qlt_condition. rewrite Ht. change (pow2 8) with (inject_Z 256).
      rewrite <- inject_Z_opp. split; rewrite <- Zlt_Qlt; lia. }
    pose proof (quantum_small fmt t 8 Ht0 Habs) as He.
    rewrite (round_to_nz fmt t Ht0).
    set (e := quantum fmt (Qred t)) in *.
    assert (He' : (e <= 0)%Z) by lia.
    assert (HG : pow2 e * inject_Z (2 ^ (- e)) == 1).
    { rewrite <- pow2_Z by lia. rewrite Qmult_comm. apply pow2_opp. }
    pose proof (pow2_pos e) as HP.
    rewrite (Qround_nearest_integer _ (k * 2 ^ (- e))).
    + rewrite inject_Z_mult.
      set (P := pow2 e) in *. set (G := inject_Z (2 ^ (- e))) in *.
      transitivity (inject_Z k * (P * G)); [ring|]. rewrite HG. ring.
    + rewrite Qred_correct, Ht, inject_Z_mult.
      set (P := pow2 e) in *. set (G := inject_Z (2 ^ (- e))) in *.
      apply Qmult_inj_r with (z := P); [lra|].
      transitivity (inject_Z k); [field; lra|].
      transitivity (inject_Z k * (P * G)); [|ring]. rewrite HG. ring.
Qed.

(** The quotient of a number by its own scale [k] times over. *)
Lemma fdiv_multiple (fmt : float_format) (cast : float_value -> Z)
    (x sc : Q) (k : Z) :
  format_ok fmt -> ~ sc == 0 -> (-128 <= k <= 127)%Z ->
  x == inject_Z k * sc ->
  to_int8 cast (fdiv fmt x sc) = k.
Proof.
  intros Hok Hsc Hk Hx. rewrite fdiv_nonzero by done.
  assert (Ht : x / sc == inject_Z k) by (rewrite Hx; field; done).
  pose proof (round_to_integer fmt (x / sc) k Hok Ht ltac:(lia)) as Hr.
  rewrite to_float_finite; [|done|].
  - rewrite to_int8_fits; rewrite (Qtrunc_integer _ k Hr); [done|lia].
  - rewrite Hr. apply Qabs_Qle_condition. change 255 with (inject_Z 255).
    rewrite <- inject_Z_opp. split; rewrite <- Zle_Qle; lia.
Qed.

End FloatFacts.

(** ** int8 quantisation *)

Module QuantizeFacts.
Import TensorFacts.

Lemma Qmax_cases (a b : Q) :
  (Qmax a b = a /\ (b <= a)%Q) \/ (Qmax a b = b /\ (a <= b)%Q).
Proof.
  unfold Qmax, GenericMinMax.gmax.
  destruct (a ?= b)%Q eqn:E.
  - left. split; [done|]. apply Qeq_alt in E. rewrite E. apply Qle_refl.
  - right. split; [done|]. apply Qlt_le_weak. by apply Qlt_alt.
  - left. split; [done|]. apply Qlt_le_weak. by apply Qgt_alt.
Qed.

Lemma foldl_Qmax_spec (xs : list Q) :
  forall x,
    (x <= foldl Qmax x xs)%Q /\
    (forall y, y ∈ xs -> (y <= foldl Qmax x xs)%Q) /\
    (foldl Qmax x xs = x \/ foldl Qmax x xs ∈ xs).
Proof.
  induction xs as [|z xs IH]; intros x; simpl.
  - split; [apply Qle_refl|]. split; [|by left].
    intros y Hy. by apply elem_of_nil in Hy.
  - destruct (IH (Qmax x z)) as (Hge & Hall & Hin).
    destruct (Qmax_cases x z) as [[Hm Hle]|[Hm Hle]]; rewrite Hm in *.
    + split; [done|]. split.
      * intros y [->|Hy]%elem_of_cons; [|by apply Hall].
        by eapply Qle_trans.
      * destruct Hin as [Hin|Hin]; [by left|right; by apply list_elem_of_further].
    + split; [by eapply Qle_trans|]. split.
      * intros y [->|Hy]%elem_of_cons; [done|by apply Hall].
      * right. destruct Hin as [->|Hin]; [apply list_elem_of_here|].
        by apply list_elem_of_further.
Qed.

(** [qmax_list] of a non-empty row is one of its elements and bounds all
    of them. *)
Lemma qmax_list_spec (row : list Q) :
  row <> [] ->
  (forall y, y ∈ row -> (y <= qmax_list row)%Q) /\ qmax_list row ∈ row.
Proof.
  destruct row as [|x xs]; [done|]. intros _. simpl.
  destruct (foldl_Qmax_spec xs x) as (Hge & Hall & Hin). split.
  - intros y [->|Hy]%elem_of_cons; [done|by apply Hall].
  - destruct Hin as [->|Hin]; [apply list_elem_of_here|].
    by apply list_elem_of_further.
Qed.

Lemma elem_of_slice_values (m : tensor3 Q) (s : nat) (x : Q) :
  x ∈ slice_values m s <-> exists h d, get3 m h s d = Some x.
Proof.
  unfold slice_values, get3. rewrite list_elem_of_bind. split.
  - intros (mat & Hx & Hmat).
    apply list_elem_of_lookup in Hmat as [h Hh].
    destruct (mat !! s) as [row|] eqn:Hrow; simpl in Hx;
      [|by apply elem_of_nil in Hx].
    apply list_elem_of_lookup in Hx as [d Hd].
    exists h, d. rewrite Hh. simpl. by rewrite Hrow.
  - intros (h & d & Hget).
    destruct (m !! h) as [mat|] eqn:Hmat; [simpl in Hget|done].
    destruct (mat !! s) as [row|] eqn:Hrow; [simpl in Hget|done].
    exists mat. split.
    + rewrite Hrow. simpl. apply list_elem_of_lookup. eauto.
    + apply list_elem_of_lookup. eauto.
Qed.

Section Maps.
Context {A B : Type} (f : A -> B).

Lemma map4_get (t : tensor4 A) (b h s d : nat) :
  get4 (map4 f t) b h s d = f <$> get4 t b h s d.
Proof.
  unfold get4, get3, map4. rewrite list_lookup_fmap.
  destruct (t !! b) as [m|]; [simpl|done]. rewrite list_lookup_fmap.
  destruct (m !! h) as [mat|]; [simpl|done]. rewrite list_lookup_fmap.
  destruct (mat !! s) as [row|]; [simpl|done]. by rewrite list_lookup_fmap.
Qed.

Lemma map4_shape (sh : shape) (t : tensor4 A) :
  has_shape4 sh t -> has_shape4 sh (map4 f t).
Proof.
  destruct sh as [[[nb nh] ns] nd]. intros [Hlen Hall]. unfold map4.
  split; [by rewrite length_fmap|].
  apply Forall_fmap. eapply Forall_impl; [exact Hall|].
  intros m [Hm Hmats]. split; [by rewrite length_fmap|].
  apply Forall_fmap. eapply Forall_impl; [exact Hmats|].
  intros mat [Hmat Hrows]. simpl. split; [by rewrite length_fmap|].
  apply Forall_fmap. eapply Forall_impl; [exact Hrows|].
  intros row Hrow. simpl. by rewrite length_fmap.
Qed.
End Maps.

Lemma amax13_row (t : tensor4 Q) (b : nat) (m : tensor3 Q) :
  t !! b = Some m ->
  amax13 t !! b
  = Some [ (fun s : nat => [qmax_list (slice_values m s)])
           <$> seq 0 (length (default [] (head m))) ].
Proof. intros Hm. unfold amax13. by rewrite list_lookup_fmap, Hm. Qed.

Lemma amax13_shape (nb nh ns nd : nat) (t : tensor4 Q) :
  has_shape4 (nb, nh, ns, nd) t -> (0 < nh)%nat ->
  has_shape4 (nb, 1%nat, ns, 1%nat) (amax13 t).
Proof.
  intros [Hlen Hall] Hh. unfold amax13. split; [by rewrite length_fmap|].
  apply Forall_fmap. eapply Forall_impl; [exact Hall|].
  intros m [Hm Hmats]. simpl. split; [done|].
  constructor; [|done]. split.
  - rewrite length_fmap, length_seq.
    destruct m as [|mat m]; [simpl in Hm; lia|]. simpl.
    by inversion Hmats as [|? ? [? ?] ?].
  - apply Forall_fmap, Forall_forall. by intros.
Qed.

Lemma amax13_get (nb nh ns nd : nat) (t : tensor4 Q) (b s : nat) (m : tensor3 Q) :
  has_shape4 (nb, nh, ns, nd) t -> (0 < nh)%nat -> (s < ns)%nat ->
  t !! b = Some m ->
  get4 (amax13 t) b 0 s 0 = Some (qmax_list (slice_values m s)).
Proof.
  intros Ht Hh Hs Hm. unfold get4, get3. rewrite (amax13_row t b m Hm). simpl.
  destruct (has_shape4_lookup_inv _ _ _ _ _ _ _ Ht Hm) as [Hmlen Hmats].
  destruct m as [|mat m']; [simpl in Hmlen; lia|].
  inversion Hmats as [|? ? [Hmat _] _]; subst. simpl.
  rewrite list_lookup_fmap, lookup_seq_lt by lia. done.
Qed.

Lemma div_bcast_get {B} (div : Q -> Q -> B) (val scale : tensor4 Q)
    (b h s d : nat) (sc : Q) :
  get4 scale b 0 s 0 = Some sc ->
  get4 (div_bcast div val scale) b h s d
  = (fun x => div x sc) <$> get4 val b h s d.
Proof.
  unfold get4, get3, div_bcast. intros Hsc. rewrite lookup_zip_with.
  destruct (scale !! b) as [sm|]; [simpl in Hsc|done].
  destruct sm as [|smat sm]; [done|]. simpl in Hsc.
  destruct (smat !! s) as [srow|] eqn:Hsrow; [simpl in Hsc|done].
  destruct srow as [|sc' srow]; [done|]. simpl in Hsc. simplify_eq.
  destruct (val !! b) as [m|]; [simpl|done]. rewrite list_lookup_fmap.
  destruct (m !! h) as [mat|]; [simpl|done]. rewrite lookup_zip_with, Hsrow.
  destruct (mat !! s) as [row|]; [simpl|done]. by rewrite list_lookup_fmap.
Qed.

Lemma div_bcast_shape {B} (div : Q -> Q -> B) (nb nh ns nd : nat)
    (val scale : tensor4 Q) :
  has_shape4 (nb, nh, ns, nd) val ->
  has_shape4 (nb, 1%nat, ns, 1%nat) scale ->
  has_shape4 (nb, nh, ns, nd) (div_bcast div val scale).
Proof.
  intros [Hlen Hall] [Hslen Hsall]. unfold div_bcast. split.
  - rewrite length_zip_with_l_eq; [done|congruence].
  - apply Forall_lookup. intros b m' Hm'.
    apply lookup_zip_with_Some in Hm' as (m & sm & -> & Hm & Hsm).
    pose proof (proj1 (Forall_lookup _ _) Hall b m Hm) as [Hmlen Hmats].
    pose proof (proj1 (Forall_lookup _ _) Hsall b sm Hsm) as [Hsmlen Hsmats].
    simpl in Hmlen, Hsmlen.
    destruct sm as [|smat [|? ?]]; simplify_eq/=.
    inversion Hsmats as [|? ? [Hsmat Hsrows] _]; subst.
    split; [by rewrite length_fmap|].
    apply Forall_fmap, Forall_lookup. intros h mat Hmat.
    pose proof (proj1 (Forall_lookup _ _) Hmats h mat Hmat) as [Hmatlen Hrows].
    simpl in *. split.
    + rewrite length_zip_with_l_eq; [done|congruence].
    + apply Forall_lookup. intros s row' Hrow'.
      apply lookup_zip_with_Some in Hrow' as (row & srow & -> & Hrow & Hsrow).
      rewrite length_fmap.
      exact (proj1 (Forall_lookup _ _) Hrows s row Hrow).
Qed.

Lemma map4_Qabs_slice (val : tensor4 Q) (b s : nat) (m am : tensor3 Q) :
  val !! b = Some m -> map4 Qabs val !! b = Some am ->
  forall y, y ∈ slice_values am s <->
            exists h d x, get4 val b h s d = Some x /\ y = Qabs x.
Proof.
  intros Hm Ham y. rewrite elem_of_slice_values.
  assert (Hget : forall h d, get3 am h s d = Qabs <$> get4 val b h s d).
  { intros h d. rewrite <- (map4_get Qabs). unfold get4. by rewrite Ham. }
  split.
  - intros (h & d & Hy). rewrite Hget in Hy.
    destruct (get4 val b h s d) as [x|] eqn:Hx; simplify_eq/=. eauto.
  - intros (h & d & x & Hx & ->). exists h, d. by rewrite Hget, Hx.
Qed.

Import Int8KVCacheGenerate.

Section Quantize.
Variables (dtype : float_format) (cast : float_value -> Z).

Lemma quantize_shapes (val : tensor4 Q) (nb nh ns nd : nat) :
  has_shape4 (nb, nh, ns, nd) val -> (0 < nh)%nat ->
  has_shape4 (nb, nh, ns, nd) (fst (quantize dtype cast val)) /\
  has_shape4 (nb, 1%nat, ns, 1%nat) (snd (quantize dtype cast val)).
Proof.
  intros Hval Hh. unfold quantize. cbn [fst snd].
  assert (Hscale : has_shape4 (nb, 1%nat, ns, 1%nat)
                     (map4 (fun m => round_to dtype (m / 127))
                        (amax13 (map4 Qabs val))))
    by (apply map4_shape, (amax13_shape nb nh ns nd);
        [by apply map4_shape | done]).
  split; [|done]. by apply map4_shape, div_bcast_shape.
Qed.

(** What [quantize] returns for one batch row and sequence position: the
    scale is the largest magnitude divided by 127 in the format, and every
    element is replaced by its quotient by that scale, converted to
    int8. *)
Lemma quantize_row (val : tensor4 Q) (nb nh ns nd b s : nat) :
  has_shape4 (nb, nh, ns, nd) val -> (0 < nh)%nat -> (0 < nd)%nat ->
  (b < nb)%nat -> (s < ns)%nat ->
  exists m,
    is_max_abs val b s m /\
    get4 (snd (quantize dtype cast val)) b 0 s 0
    = Some (round_to dtype (m / 127)) /\
    forall h d x,
      get4 val b h s d = Some x ->
      get4 (fst (quantize dtype cast val)) b h s d
      = Some (to_int8 cast (fdiv dtype x (round_to dtype (m / 127)))).
Proof.
  intros Hval Hh Hd Hb Hs. unfold quantize. cbn [fst snd].
  assert (Habs : has_shape4 (nb, nh, ns, nd) (map4 Qabs val))
    by (by apply map4_shape).
  destruct (has_shape4_lookup _ _ _ _ _ b Hval Hb) as (m0 & Hm0 & Hm0shape).
  destruct (has_shape4_lookup _ _ _ _ _ b Habs Hb) as (am & Ham & _).
  destruct (has_shape3_lookup _ _ _ _ 0%nat s 0%nat Hm0shape Hh Hs Hd)
    as (mat & row & x0 & Hmat & _ & Hrow & _ & Hx0).
  exists (qmax_list (slice_values am s)).
  assert (Hsc : get4 (map4 (fun m => round_to dtype (m / 127))
                        (amax13 (map4 Qabs val))) b 0 s 0
                = Some (round_to dtype (qmax_list (slice_values am s) / 127))).
  { rewrite map4_get. by rewrite (amax13_get nb nh ns nd _ b s am). }
  assert (Hne : slice_values am s <> []).
  { intros Hnil.
    assert (Hin : Qabs x0 ∈ slice_values am s).
    { apply (map4_Qabs_slice val b s m0 am Hm0 Ham).
      exists 0%nat, 0%nat, x0. split; [|done].
      unfold get4, get3. rewrite Hm0. simpl. rewrite Hmat. simpl.
      by rewrite Hrow. }
    rewrite Hnil in Hin. by apply elem_of_nil in Hin. }
  destruct (qmax_list_spec _ Hne) as [Hub Hin].
  split; [|split; [done|]].
  - split.
    + intros h0 d0 x Hx. apply Hub.
      apply (map4_Qabs_slice val b s m0 am Hm0 Ham). eauto.
    + by apply (map4_Qabs_slice val b s m0 am Hm0 Ham) in Hin.
  - intros h d x Hx.
    by rewrite map4_get, (div_bcast_get _ _ _ b h s d _ Hsc), Hx.
Qed.

(** One element of a slice with a normal scale: its quantized value lies
    in [[-127, 127]], and times the scale it misses the element by less
    than the scale. *)
Lemma quantize_cell (val : tensor4 Q) (nb nh ns nd b h s d : nat) :
  has_shape4 (nb, nh, ns, nd) val ->
  (b < nb)%nat -> (h < nh)%nat -> (s < ns)%nat -> (d < nd)%nat ->
  exists x q sc m,
    get4 val b h s d = Some x /\
    get4 (fst (quantize dtype cast val)) b h s d = Some q /\
    get4 (snd (quantize dtype cast val)) b 0 s 0 = Some sc /\
    is_max_abs val b s m /\
    (format_ok dtype -> (min_normal dtype <= m / 127)%Q ->
     (0 < sc)%Q /\ -127 <= q <= 127 /\
     (Qabs (inject_Z q * sc - x) < sc)%Q).
Proof.
  intros Hval Hb Hh Hs Hd.
  destruct (quantize_row val nb nh ns nd b s) as (m & Hmax & Hsc & Hq);
    try done; try lia.
  destruct (has_shape4_lookup _ _ _ _ _ b Hval Hb) as (m0 & Hm0 & Hm0shape).
  destruct (has_shape3_lookup _ _ _ _ h s d Hm0shape Hh Hs Hd)
    as (mat & row & x & Hmat & _ & Hrow & _ & Hx).
  assert (Hget : get4 val b h s d = Some x).
  { unfold get4, get3. rewrite Hm0. simpl. rewrite Hmat. simpl. by rewrite Hrow. }
  exists x, (to_int8 cast (fdiv dtype x (round_to dtype (m / 127)))),
    (round_to dtype (m / 127)), m.
  split; [done|]. split; [by apply Hq|]. split; [done|]. split; [done|].
  intros Hok Hnormal.
  destruct (FloatFacts.quotient_by_normal_scale dtype x m Hok
              (proj1 Hmax h d x Hget) Hnormal) as (Hpos & y & -> & Hy & Herr).
  rewrite FloatFacts.to_int8_fits by lia. done.
Qed.

(** C1, as the code has it.  For a 4-D tensor of shape (batch, heads, seq,
    head_dim) with at least one head and one head_dim entry, holding
    numbers of the format [dtype], [quantize] returns a scale of shape
    (batch, 1, seq, 1) whose entry at (b, s) is the largest magnitude [m]
    over heads and head_dim divided by 127 in the format, and a tensor of
    the input's shape whose entry for an element [x] is the quotient of [x]
    by that scale in the format, converted to int8: when the quotient is a
    finite [y] whose truncation fits, the entry is [y] with the fractional
    part discarded.  When [m / 127] is a normal number of a format with
    eight significand bits or more, every quotient is finite with a
    truncation in [-127, 127]. *)
Theorem quantize_scale_and_truncation (val : tensor4 Q) (nb nh ns nd : nat) :
  has_shape4 (nb, nh, ns, nd) val -> (0 < nh)%nat -> (0 < nd)%nat ->
  has_shape4 (nb, 1%nat, ns, 1%nat) (snd (quantize dtype cast val)) /\
  has_shape4 (nb, nh, ns, nd) (fst (quantize dtype cast val)) /\
  forall b s, (b < nb)%nat -> (s < ns)%nat ->
    exists m,
      is_max_abs val b s m /\
      get4 (snd (quantize dtype cast val)) b 0 s 0
      = Some (round_to dtype (m / 127)) /\
      forall h d x,
        get4 val b h s d = Some x ->
        get4 (fst (quantize dtype cast val)) b h s d
        = Some (to_int8 cast (fdiv dtype x (round_to dtype (m / 127)))) /\
        (forall y,
           fdiv dtype x (round_to dtype (m / 127)) = Finite y ->
           -128 <= Qtrunc y <= 127 ->
           get4 (fst (quantize dtype cast val)) b h s d = Some (Qtrunc y)) /\
        (format_ok dtype -> (min_normal dtype <= m / 127)%Q ->
         exists y,
           fdiv dtype x (round_to dtype (m / 127)) = Finite y /\
           -127 <= Qtrunc y <= 127).
Proof.
  intros Hval Hh Hd.
  destruct (quantize_shapes val nb nh ns nd Hval Hh) as [Hq Hsc].
  split; [done|]. split; [done|]. intros b s Hb Hs.
  destruct (quantize_row val nb nh ns nd b s) as (m & Hmax & Hscale & Hcell);
    try done.
  exists m. split; [done|]. split; [done|]. intros h d x Hx.
  split; [by apply Hcell|]. split.
  - intros y Hy Hfit. rewrite (Hcell h d x Hx), Hy.
    by rewrite FloatFacts.to_int8_fits.
  - intros Hok Hnormal.
    destruct (FloatFacts.quotient_by_normal_scale dtype x m Hok
                (proj1 Hmax h d x Hx) Hnormal) as (_ & y & Hy & Hrange & _).
    by exists y.
Qed.

End Quantize.

Lemma bfloat16_ok : format_ok bfloat16.
Proof. unfold format_ok. simpl. lia. Qed.

Lemma float32_ok : format_ok float32.
Proof. unfold format_ok. simpl. lia. Qed.

(** The tensor [[5, 2]] in bfloat16: the scale 5/127 rounds to 161/4096, and
    2 divided by it rounds from 50.88 to 51. *)
Example quantize_bfloat16 :
  quantize bfloat16 cast_wrapping [[[[5; 2]]]]%Q
  = ([[[[127; 51]]]], [[[[(161 # 4096)%Q]]]]).
Proof. vm_compute. reflexivity. Qed.

(** The tensor [[9, 4.5]] in float32: 9 divided by the rounded scale is
    just below 127. *)
Example quantize_float32 :
  fst (quantize float32 cast_wrapping [[[[9; 9 # 2]]]]%Q) = [[[[126; 63]]]].
Proof. vm_compute. reflexivity. Qed.

(** An all-zero tensor: the scale is zero and both quotients are 0/0, a
    NaN, whose int8 value is the platform's. *)
Example quantize_zero (dtype : float_format) (cast : float_value -> Z) :
  quantize dtype cast [[[[0; 0]]]]%Q = ([[[[cast NaN; cast NaN]]]], [[[[0%Q]]]]).
Proof. reflexivity. Qed.

Example quantize_example :
  quantize bfloat16 cast_wrapping example_val = ([[[[127; 1]]]], [[[[1%Q]]]]).
Proof. vm_compute. reflexivity. Qed.

Lemma quantize_scale_and_truncation_witness :
  has_shape4 (1, 1, 1, 1)%nat (snd (quantize bfloat16 cast_wrapping example_val)) /\
  has_shape4 (1, 1, 1, 2)%nat (fst (quantize bfloat16 cast_wrapping example_val)) /\
  forall b s, (b < 1)%nat -> (s < 1)%nat ->
    exists m,
      is_max_abs example_val b s m /\
      get4 (snd (quantize bfloat16 cast_wrapping example_val)) b 0 s 0
      = Some (round_to bfloat16 (m / 127)) /\
      forall h d x,
        get4 example_val b h s d = Some x ->
        get4 (fst (quantize bfloat16 cast_wrapping example_val)) b h s d
        = Some (to_int8 cast_wrapping
                  (fdiv bfloat16 x (round_to bfloat16 (m / 127)))) /\
        (forall y,
           fdiv bfloat16 x (round_to bfloat16 (m / 127)) = Finite y ->
           -128 <= Qtrunc y <= 127 ->
           get4 (fst (quantize bfloat16 cast_wrapping example_val)) b h s d
           = Some (Qtrunc y)) /\
        (format_ok bfloat16 -> (min_normal bfloat16 <= m / 127)%Q ->
         exists y,
           fdiv bfloat16 x (round_to bfloat16 (m / 127)) = Finite y /\
           -127 <= Qtrunc y <= 127).
Proof.
  apply (quantize_scale_and_truncation bfloat16 cast_wrapping example_val
           1 1 1 2); [compute_done | lia | lia].
Defined.

(** C1 fails as stated: for the tensor [[127, 1.75]] the scale is 1 and
    the second quotient is 1.75, both without rounding error; the code
    returns 1 for it, while rounding to the nearest integer gives 2. *)
Lemma quantize_truncates_counterexample :
  get4 (fst (quantize bfloat16 cast_wrapping example_val)) 0 0 0 1 = Some 1 /\
  get4 (fst (quantize float32 cast_wrapping example_val)) 0 0 0 1 = Some 1 /\
  get4 (fst (quantize_spec example_val)) 0 0 0 1 = Some 2 /\
  fst (quantize bfloat16 cast_wrapping example_val)
  <> fst (quantize_spec example_val).
Proof.
  split; [vm_compute; reflexivity|]. split; [vm_compute; reflexivity|].
  split; [reflexivity|]. vm_compute. discriminate.
Qed.

End QuantizeFacts.

(** ** Positions outside the capacity *)

Module BoundsFacts.
Import IndexFacts TensorFacts ScatterFacts QuantizeFacts.

Lemma setitem_arange {A} (nb nh nc nd : nat) (t : XLATensor2 (tensor4 A))
    (pos : list Z) (upd : tensor3 A) :
  has_shape4 (nb, nh, nc, nd) (elem t) ->
  (0 < nb)%nat -> (0 < nh)%nat -> (0 < nc)%nat ->
  has_shape3 (length pos) nh nd upd ->
  setitem t (arange (length pos)) pos (Squeezed upd)
  = Ok (wrap (scatter nb nc (elem t) (arange (length pos)) pos upd)).
Proof.
  intros. unfold setitem. by rewrite (at_set_arange nb nh nc nd).
Qed.

(** The store of a step tensor of shape (n, heads, 1, head_dim). *)
Lemma setitem_step {A} (nb nh nc nd : nat) (t : XLATensor2 (tensor4 A))
    (pos : list Z) (x : tensor4 A) :
  has_shape4 (nb, nh, nc, nd) (elem t) ->
  (0 < nb)%nat -> (0 < nh)%nat -> (0 < nc)%nat ->
  length pos = nb ->
  has_shape4 (nb, nh, 1%nat, nd) x ->
  setitem t (arange (length pos)) pos (squeeze2 x)
  = Ok (store_rows nb nc t pos x).
Proof.
  intros Ht Hb Hh Hc Hlen Hx.
  rewrite (squeeze2_step nb nh nd) by done.
  apply (setitem_arange nb nh nc nd); try done.
  rewrite Hlen. by apply drop_axis2_shape.
Qed.


Import Int8KVCacheGenerate.

Lemma int8_update_result (dtype : float_format) (cast : float_value -> Z)
    (c : t) (xk xv : XLATensor2 (tensor4 Q)) (nb nh nc nd : nat) :
  (0 < nb)%nat -> (0 < nh)%nat -> (0 < nc)%nat ->
  batch c = arange (length (input_pos c)) ->
  length (input_pos c) = nb ->
  has_shape4 (nb, nh, nc, nd) (elem (cache_k c)) ->
  has_shape4 (nb, nh, nc, nd) (elem (cache_v c)) ->
  has_shape4 (nb, 1%nat, nc, 1%nat) (elem (k_scaler c)) ->
  has_shape4 (nb, 1%nat, nc, 1%nat) (elem (v_scaler c)) ->
  has_shape4 (nb, nh, 1%nat, nd) (elem xk) ->
  has_shape4 (nb, nh, 1%nat, nd) (elem xv) ->
  update dtype cast c xk xv
  = (Build (store_rows nb nc (cache_k c) (input_pos c)
              (fst (quantize dtype cast (elem xk))))
           (store_rows nb nc (cache_v c) (input_pos c)
              (fst (quantize dtype cast (elem xv))))
           (store_rows nb nc (k_scaler c) (input_pos c)
              (snd (quantize dtype cast (elem xk))))
           (store_rows nb nc (v_scaler c) (input_pos c)
              (snd (quantize dtype cast (elem xv))))
           (input_pos c) (batch c),
     Ok (store_rows nb nc (cache_k c) (input_pos c)
           (fst (quantize dtype cast (elem xk))),
         store_rows nb nc (cache_v c) (input_pos c)
           (fst (quantize dtype cast (elem xv))),
         store_rows nb nc (k_scaler c) (input_pos c)
           (snd (quantize dtype cast (elem xk))),
         store_rows nb nc (v_scaler c) (input_pos c)
           (snd (quantize dtype cast (elem xv))))).
Proof.
  intros Hb Hh Hc Hbatch Hlen Hck Hcv Hks Hvs Hxk Hxv.
  destruct (quantize_shapes dtype cast _ _ _ _ _ Hxk Hh) as [Hkq Hksc].
  destruct (quantize_shapes dtype cast _ _ _ _ _ Hxv Hh) as [Hvq Hvsc].
  destruct c as [ck cv ks vs cpos cbatch].
  cbn [cache_k cache_v k_scaler v_scaler input_pos batch] in *.
  subst cbatch. unfold update.
  cbn [cache_k cache_v k_scaler v_scaler input_pos batch].
  destruct (quantize dtype cast (elem xk)) as [kq ksc].
  destruct (quantize dtype cast (elem xv)) as [vq vsc]. cbn [fst snd] in *.
  rewrite (setitem_step nb nh nc nd) by done.
  cbn [cache_k cache_v k_scaler v_scaler input_pos batch].
  rewrite (setitem_step nb nh nc nd) by done.
  cbn [cache_k cache_v k_scaler v_scaler input_pos batch].
  rewrite (setitem_step nb 1 nc 1) by (done || lia).
  cbn [cache_k cache_v k_scaler v_scaler input_pos batch].
  rewrite (setitem_step nb 1 nc 1) by (done || lia).
  reflexivity.
Qed.

(** The cells of a buffer after [store_rows]. *)
Lemma store_rows_get {A} (nb nh nc nd : nat) (buf : XLATensor2 (tensor4 A))
    (pos : list Z) (x : tensor4 A) (b h col d : nat) (p : Z) :
  has_shape4 (nb, nh, nc, nd) (elem buf) ->
  has_shape4 (nb, nh, 1%nat, nd) x ->
  length pos = nb ->
  (b < nb)%nat -> (h < nh)%nat -> (col < nc)%nat ->
  pos !! b = Some p ->
  get4 (elem (store_rows nb nc buf pos x)) b h col d
  = if decide (norm_index nc p = Some col) then get4 x b h 0 d
    else get4 (elem buf) b h col d.
Proof.
  intros Hbuf Hx Hlen Hb Hh Hcol Hp. unfold store_rows. cbn [elem].
  rewrite (scatter_get nb nh nc nd); try done.
  - by rewrite Hp, (drop_axis2_cell nb nh nd).
  - rewrite Hlen. by apply drop_axis2_shape.
Qed.




End BoundsFacts.

(** * Further properties of the code *)

(** ** Segments of a normalised name *)

Module SegmentFacts.
Import Naming NamingFacts.

Lemma join_cons_char (c : ascii) (t : string) (ts : list string) :
  join (String c t :: ts) = String c (join (t :: ts)).
Proof. by destruct ts. Qed.

Lemma join_split (s : string) : join (split s) = s.
Proof.
  induction s as [|c s IH]; [done|]. simpl.
  pose proof (split_nonempty s) as Hne.
  destruct (Ascii.eqb c dot) eqn:Hc.
  - apply Ascii.eqb_eq in Hc as ->.
    destruct (split s) as [|t ts]; [done|]. simpl in *. by rewrite IH.
  - destruct (split s) as [|t ts]; [done|]. by rewrite join_cons_char, IH.
Qed.

Lemma split_process (name : string) :
  split (process_sharding_name name) = map (wildcard is_integer) (split name).
Proof.
  unfold process_sharding_name. rewrite process_with_map. apply split_join.
  - pose proof (split_nonempty name). by destruct (split name).
  - apply Forall_map. eapply Forall_impl; [apply split_no_dot|].
    intros t Ht. by apply wildcard_no_dot.
Qed.

Lemma wildcard_not_integer (t : string) :
  is_integer (wildcard is_integer t) = false.
Proof. unfold wildcard. by destruct (is_integer t) eqn:E. Qed.

(** The normalised name has as many dot-separated segments as the name,
    and [int()] accepts none of them. *)
Theorem normalised_segments (name : string) :
  length (split (process_sharding_name name)) = length (split name) /\
  Forall (fun t => is_integer t = false) (split (process_sharding_name name)).
Proof.
  rewrite split_process. split; [by rewrite length_map|].
  apply Forall_map, Forall_forall. intros t _. apply wildcard_not_integer.
Qed.

(** Two names whose segments agree, except where both have an integer,
    have the same normal form. *)
Theorem integer_segments_ignored (n1 n2 : string) :
  Forall2 (fun a b => a = b \/ (is_integer a = true /\ is_integer b = true))
    (split n1) (split n2) ->
  process_sharding_name n1 = process_sharding_name n2.
Proof.
  intros Hseg. unfold process_sharding_name. rewrite !process_with_map. f_equal.
  induction Hseg as [|a b l1 l2 Hab _ IH]; [done|]. simpl. f_equal; [|done].
  unfold wildcard. destruct Hab as [->|[-> ->]]; done.
Qed.

Lemma integer_segments_ignored_witness :
  process_sharding_name "layers.3.attention.wq.weight"
  = process_sharding_name "layers.17.attention.wq.weight".
Proof.
  apply integer_segments_ignored. simpl.
  repeat (constructor; [first [by left | by right]|]). constructor.
Defined.

(** A name is its own normal form exactly when none of its segments is an
    integer. *)
Theorem unchanged_iff_no_integer_segment (name : string) :
  process_sharding_name name = name
  <-> Forall (fun t => is_integer t = false) (split name).
Proof.
  split.
  - intros Heq. pose proof (split_process name) as Hsplit.
    rewrite Heq in Hsplit. rewrite Hsplit.
    apply Forall_map, Forall_forall. intros t _. apply wildcard_not_integer.
  - intros Hall. unfold process_sharding_name. rewrite process_with_map.
    rewrite <- (join_split name) at 2. f_equal.
    induction Hall as [|t ts Ht _ IH]; [done|]. simpl. f_equal; [|done].
    unfold wildcard. by rewrite Ht.
Qed.

End SegmentFacts.

(** ** Sharding specifications and environment construction *)

Module ConstructionFacts.
Import IndexFacts JetEngineEnvironment.

Lemma py_index_absent `{EqDecision A} (l : list A) (x : A) :
  x ∉ l -> py_index l x = Raise ValueError.
Proof.
  induction l as [|y l IH]; [done|]. intros Hnot. simpl.
  apply not_elem_of_cons in Hnot as [Hne Hnot].
  rewrite decide_False by done. by rewrite IH.
Qed.

Lemma py_index_found `{EqDecision A} (l : list A) (x : A) (i : Z) :
  py_index l x = Ok i ->
  0 <= i < Z.of_nat (length l) /\ l !! Z.to_nat i = Some x /\
  forall j, (j < Z.to_nat i)%nat -> l !! j <> Some x.
Proof.
  revert i. induction l as [|y l IH]; intros i; [done|]. simpl.
  case_decide as Hy.
  - intros [= <-]. subst. simpl. split; [lia|]. split; [done|]. intros j Hj. lia.
  - destruct (py_index l x) as [k|e] eqn:Hk; [|done]. simpl. intros [= <-].
    destruct (IH k eq_refl) as (Hrange & Hlook & Hfirst).
    replace (Z.to_nat (1 + k)) with (S (Z.to_nat k)) by lia.
    split; [lia|]. split; [done|].
    intros [|j] Hj; simpl; [congruence|]. apply Hfirst. lia.
Qed.

Lemma nominal_cache_axis_nonneg (data : JetEngineEnvironmentData) (a : Z) :
  nominal_cache_axis data = Ok a -> 0 <= a.
Proof.
  unfold nominal_cache_axis. destruct (shard_on_batch data).
  - intros [= <-]. lia.
  - intros H. apply py_index_found in H. lia.
Qed.

(** For a non-negative axis [n] the specification has [n + 1] entries: "x"
    at index [n], and no partitioning before it. *)
Theorem sharding_by_axis_marks_axis (mesh : Mesh) (n : nat) :
  exists s,
    sharding_by_axis mesh (Some (Z.of_nat n)) = Ok s /\
    sharding_mesh s = mesh /\
    length (partition_spec s) = S n /\
    partition_spec s !! n = Some (Some "x"%string) /\
    forall i, (i < n)%nat -> partition_spec s !! i = Some None.
Proof.
  eexists. split; [apply EnvironmentFacts.sharding_by_axis_nonneg|]. simpl.
  split; [done|]. split; [rewrite length_app, length_replicate; simpl; lia|].
  split.
  - rewrite lookup_app_r by (rewrite length_replicate; lia).
    by rewrite length_replicate, Nat.sub_diag.
  - intros i Hi. rewrite lookup_app_l by (rewrite length_replicate; lia).
    by rewrite lookup_replicate_2.
Qed.

(** An axis below -1 is an error: the list of markers is empty and the
    assignment into it raises IndexError. *)
Theorem sharding_by_axis_below_minus_one (mesh : Mesh) (axis : Z) :
  axis < -1 -> sharding_by_axis mesh (Some axis) = Raise IndexError.
Proof.
  intros Hneg. unfold sharding_by_axis. rewrite decide_False by lia.
  unfold py_setitem, py_repeat.
  replace (Z.to_nat (axis + 1)) with 0%nat by lia. simpl.
  by rewrite norm_index_outside by (simpl; lia).
Qed.

Lemma sharding_by_axis_below_minus_one_witness :
  sharding_by_axis example_mesh (Some (-2)) = Raise IndexError.
Proof. apply sharding_by_axis_below_minus_one. lia. Defined.

(** Without batch sharding, a KV-shard axis name that is not among the
    attention axis names makes the construction raise ValueError. *)
Theorem init_unknown_axis_name (w : World) (data : JetEngineEnvironmentData) :
  shard_on_batch data = false ->
  kv_cache_shard_axis data ∉ attention_kv_axis_names data ->
  init w data = Raise ValueError.
Proof.
  intros Hb Hnot. unfold init, cache_sharding_axis, nominal_cache_axis.
  by rewrite Hb, py_index_absent.
Qed.

Lemma init_unknown_axis_name_witness :
  init example_world example_data_unknown_axis = Raise ValueError.
Proof.
  apply init_unknown_axis_name; [reflexivity|].
  cbn. rewrite !not_elem_of_cons. repeat split; try discriminate.
  apply not_elem_of_nil.
Defined.

(** When the axis the configuration names lies beyond the cache shape, as
    with the default empty shape, the construction raises IndexError. *)
Theorem init_axis_outside_shape (w : World) (data : JetEngineEnvironmentData)
    (a : Z) :
  nominal_cache_axis data = Ok a ->
  Z.of_nat (length (cache_shape data)) <= a ->
  init w data = Raise IndexError.
Proof.
  intros Ha Hout. unfold init, cache_sharding_axis. rewrite Ha, bind_Ok.
  unfold py_getitem. rewrite norm_index_outside by lia. done.
Qed.

Lemma init_axis_outside_shape_witness :
  init example_world default_data = Raise IndexError.
Proof. apply (init_axis_outside_shape _ _ 1); [reflexivity | simpl; lia]. Defined.

(** When the axis the configuration names has an extent other than 1, the
    cache is sharded along that axis. *)
Theorem cache_sharding_axis_kept (data : JetEngineEnvironmentData) (a extent : Z) :
  nominal_cache_axis data = Ok a ->
  py_getitem (cache_shape data) a = Ok extent ->
  extent <> 1 ->
  cache_sharding_axis data = Ok a /\
  forall w env, init w data = Ok env ->
    partition_spec (cache_sharding env)
    = replicate (Z.to_nat a) None ++ [Some "x"%string].
Proof.
  intros Ha Hext Hne.
  assert (Haxis : cache_sharding_axis data = Ok a).
  { unfold cache_sharding_axis. rewrite Ha, bind_Ok, Hext, bind_Ok.
    by rewrite decide_False. }
  split; [done|]. intros w env Hinit. unfold init in Hinit.
  rewrite Haxis, bind_Ok in Hinit.
  pose proof (nominal_cache_axis_nonneg data a Ha) as Hnn.
  rewrite <- (Z2Nat.id a) in Hinit at 1 by done.
  rewrite EnvironmentFacts.sharding_by_axis_nonneg, bind_Ok in Hinit.
  apply bind_inv_Ok in Hinit as (cfg & _ & [= <-]). done.
Qed.

Lemma cache_sharding_axis_kept_witness :
  cache_sharding_axis example_data_heads = Ok 1 /\
  forall w env, init w example_data_heads = Ok env ->
    partition_spec (cache_sharding env) = [None; Some "x"%string].
Proof.
  apply (cache_sharding_axis_kept example_data_heads 1 2);
    [reflexivity | reflexivity | lia].
Defined.

(** An environment constructed without a sharding document and without
    batch sharding has a rule for no name: every call of [sharding_by_name]
    raises RuntimeError, naming the normalised name. *)
Theorem no_document_no_rule (w : World) (data : JetEngineEnvironmentData)
    (env : t) (name : string) :
  init w data = Ok env ->
  sharding_config_path data = ""%string ->
  shard_on_batch data = false ->
  sharding_by_name env name
  = Raise (RuntimeError ["Sharding for name: ";
                         Naming.process_sharding_name name;
                         " not specified"]%string).
Proof.
  intros Hinit Hpath Hb. unfold init in Hinit.
  apply bind_inv_Ok in Hinit as (axis & _ & Hinit).
  apply bind_inv_Ok in Hinit as (sh & _ & Hinit).
  apply bind_inv_Ok in Hinit as (cfg & Hcfg & [= <-]).
  unfold _load_sharding_config in Hcfg. rewrite decide_True in Hcfg by done.
  injection Hcfg as <-. unfold sharding_by_name. simpl. rewrite Hb.
  by rewrite !lookup_empty.
Qed.

Lemma no_document_no_rule_witness :
  exists env,
    init example_world example_data_heads = Ok env /\
    sharding_by_name env "output.weight"
    = Raise (RuntimeError ["Sharding for name: "; "output.weight";
                           " not specified"]%string).
Proof.
  eexists. split; [reflexivity|].
  exact (no_document_no_rule example_world example_data_heads _ "output.weight"
           eq_refl eq_refl eq_refl).
Defined.

End ConstructionFacts.

(** ** Caches made by the environment, and what Prefill returns *)

Module LayerCacheFacts.
Import TensorFacts JetEngineEnvironment.

Lemma full4_shape {A} (sh : shape) (x : A) : has_shape4 sh (full4 sh x).
Proof.
  destruct sh as [[[nb nh] ns] nd]. unfold full4. split; [by rewrite length_replicate|].
  apply Forall_replicate. split; [by rewrite length_replicate|].
  apply Forall_replicate. split; [by rewrite length_replicate|].
  apply Forall_replicate. by rewrite length_replicate.
Qed.

Lemma full4_get {A} (nb nh ns nd : nat) (x : A) (b h s d : nat) :
  (b < nb)%nat -> (h < nh)%nat -> (s < ns)%nat -> (d < nd)%nat ->
  get4 (full4 (nb, nh, ns, nd) x) b h s d = Some x.
Proof.
  intros. unfold get4, get3, full4.
  rewrite lookup_replicate_2 by done. simpl.
  rewrite lookup_replicate_2 by done. simpl.
  rewrite lookup_replicate_2 by done. simpl.
  by rewrite lookup_replicate_2.
Qed.

(** What [KVCachePrefill.update] returns: the key and value it was given,
    alone when the cache does not pretend to quantize, and otherwise
    followed twice by one tensor of shape (batch, 1, seq, 1) whose entries
    are all one. *)
Theorem prefill_update_returns (c : KVCachePrefill.t)
    (key value : XLATensor2 (tensor4 Q)) (nb nh ns nd : nat) :
  has_shape4 (nb, nh, ns, nd) (elem key) ->
  (0 < nb)%nat -> (0 < nh)%nat -> (0 < ns)%nat ->
  (KVCachePrefill.kv_quantize c = false ->
   snd (KVCachePrefill.update c key value) = KVCachePrefill.Ret2 key value) /\
  (KVCachePrefill.kv_quantize c = true ->
   exists ones,
     snd (KVCachePrefill.update c key value)
     = KVCachePrefill.Ret4 key value ones ones /\
     has_shape4 (nb, 1%nat, ns, 1%nat) (elem ones) /\
     forall b s, (b < nb)%nat -> (s < ns)%nat ->
       get4 (elem ones) b 0 s 0 = Some 1%Q).
Proof.
  intros Hkey Hb Hh Hs. unfold KVCachePrefill.update.
  cbv zeta. cbn [KVCachePrefill.kv_quantize]. split.
  - by intros ->.
  - intros ->. rewrite (shape4_has_shape nb nh ns nd) by done.
    eexists. split; [reflexivity|]. cbn [elem]. split; [apply full4_shape|].
    intros b s Hb' Hs'. apply full4_get; lia.
Qed.

Lemma prefill_update_returns_witness :
  (KVCachePrefill.kv_quantize (KVCachePrefill.init true) = false ->
   snd (KVCachePrefill.update (KVCachePrefill.init true) example_key example_value)
   = KVCachePrefill.Ret2 example_key example_value) /\
  (KVCachePrefill.kv_quantize (KVCachePrefill.init true) = true ->
   exists ones,
     snd (KVCachePrefill.update (KVCachePrefill.init true) example_key example_value)
     = KVCachePrefill.Ret4 example_key example_value ones ones /\
     has_shape4 (2, 1, 1, 1)%nat (elem ones) /\
     forall b s, (b < 2)%nat -> (s < 1)%nat ->
       get4 (elem ones) b 0 s 0 = Some 1%Q).
Proof.
  apply (prefill_update_returns _ _ _ 2 1 1 2); [compute_done | lia | lia | lia].
Defined.

(** [make_caches_prefill] returns one cache per layer; each is empty and
    none pretends to quantize, whatever [enable_kv_quantization] is: an
    update of such a cache returns the pair (key, value). *)
Theorem make_caches_prefill_plain (self : t) :
  length (make_caches_prefill self) = num_layers (_data self) /\
  forall c, c ∈ make_caches_prefill self ->
    KVCachePrefill.state c = (None, None) /\
    forall key value,
      snd (KVCachePrefill.update c key value) = KVCachePrefill.Ret2 key value.
Proof.
  unfold make_caches_prefill. split; [by rewrite length_replicate|].
  intros c [-> _]%elem_of_replicate. done.
Qed.

Lemma int8_empty_fails (sh : shape) (device : NamedSharding) (bf16 : bool) :
  Int8KVCacheGenerate.empty sh device bf16 = Raise AttributeError.
Proof. by destruct sh as [[[nb nh] nc] nd]. Qed.

(** [make_caches_generate] returns the empty list for a configuration
    without layers and raises AttributeError as soon as there is one layer,
    with or without KV quantization: the first call of [empty] fails. *)
Theorem make_caches_generate_fails (self : t) (sh : shape) :
  shape_of_tuple (cache_shape (_data self)) = Some sh ->
  make_caches_generate self
  = Some (if decide (num_layers (_data self) = 0%nat) then Ok []
          else Raise AttributeError).
Proof.
  intros Hsh. unfold make_caches_generate. rewrite Hsh. simpl. f_equal.
  destruct (num_layers (_data self)) as [|n]; [done|].
  rewrite decide_False by done. cbn [seq mapM].
  destruct (enable_kv_quantization (_data self)).
  - by rewrite int8_empty_fails.
  - done.
Qed.

Lemma make_caches_generate_fails_witness :
  exists env,
    init example_world example_data = Ok env /\
    make_caches_generate env = Some (Raise AttributeError).
Proof.
  eexists. split; [reflexivity|].
  match goal with
  | |- make_caches_generate ?e = _ =>
      exact (make_caches_generate_fails e (1, 2, 128, 4)%nat eq_refl)
  end.
Defined.

End LayerCacheFacts.

(** ** Successive updates of the Generate caches *)

Module OverwriteFacts.
Import IndexFacts TensorFacts ScatterFacts QuantizeFacts BoundsFacts.

Lemma list_eq_pointwise {A} (l1 l2 : list A) :
  length l1 = length l2 ->
  (forall i x y, l1 !! i = Some x -> l2 !! i = Some y -> x = y) ->
  l1 = l2.
Proof.
  intros Hlen Hpt. apply list_eq. intros i.
  destruct (l1 !! i) as [x|] eqn:H1, (l2 !! i) as [y|] eqn:H2; try done.
  - f_equal. by eapply Hpt.
  - apply lookup_lt_Some in H1. apply lookup_ge_None in H2. lia.
  - apply lookup_ge_None in H1. apply lookup_lt_Some in H2. lia.
Qed.

(** Two tensors of one shape with the same cells are equal. *)
Lemma tensor4_ext {A} (nb nh ns nd : nat) (t1 t2 : tensor4 A) :
  has_shape4 (nb, nh, ns, nd) t1 -> has_shape4 (nb, nh, ns, nd) t2 ->
  (forall b h s d, (b < nb)%nat -> (h < nh)%nat -> (s < ns)%nat ->
     get4 t1 b h s d = get4 t2 b h s d) ->
  t1 = t2.
Proof.
  intros [Hl1 Ha1] [Hl2 Ha2] Hcells.
  apply list_eq_pointwise; [congruence|]. intros b m1 m2 Hm1 Hm2.
  pose proof (proj1 (Forall_lookup _ _) Ha1 b m1 Hm1) as [Hml1 Hma1].
  pose proof (proj1 (Forall_lookup _ _) Ha2 b m2 Hm2) as [Hml2 Hma2].
  assert (Hb : (b < nb)%nat) by (apply lookup_lt_Some in Hm1; lia).
  apply list_eq_pointwise; [congruence|]. intros h mat1 mat2 Hmat1 Hmat2.
  pose proof (proj1 (Forall_lookup _ _) Hma1 h mat1 Hmat1) as [Hmatl1 _].
  pose proof (proj1 (Forall_lookup _ _) Hma2 h mat2 Hmat2) as [Hmatl2 _].
  simpl in *.
  assert (Hh : (h < nh)%nat) by (apply lookup_lt_Some in Hmat1; lia).
  apply list_eq_pointwise; [congruence|]. intros s r1 r2 Hr1 Hr2.
  assert (Hs : (s < ns)%nat) by (apply lookup_lt_Some in Hr1; lia).
  apply list_eq. intros d. specialize (Hcells b h s d Hb Hh Hs).
  unfold get4, get3 in Hcells. rewrite Hm1, Hm2 in Hcells. simpl in Hcells.
  rewrite Hmat1, Hmat2 in Hcells. simpl in Hcells.
  by rewrite Hr1, Hr2 in Hcells.
Qed.

Lemma setitem_shape {A} (nb nh nc nd : nat) (t t' : XLATensor2 (tensor4 A))
    (batch pos : list Z) (upd : squeezed A) :
  has_shape4 (nb, nh, nc, nd) (elem t) ->
  (0 < nb)%nat -> (0 < nh)%nat -> (0 < nc)%nat ->
  setitem t batch pos upd = Ok t' ->
  has_shape4 (nb, nh, nc, nd) (elem t').
Proof.
  intros Ht Hb Hh Hc. unfold setitem.
  destruct (at_set (elem t) batch pos upd) as [x|e] eqn:Hx; [|done].
  intros [= <-]. by apply (at_set_shape nb nh nc nd) in Hx.
Qed.

Lemma store_rows_shape {A} (nb nh nc nd : nat) (buf : XLATensor2 (tensor4 A))
    (pos : list Z) (x : tensor4 A) :
  has_shape4 (nb, nh, nc, nd) (elem buf) ->
  has_shape4 (nb, nh, 1%nat, nd) x ->
  has_shape4 (nb, nh, nc, nd) (elem (store_rows nb nc buf pos x)).
Proof.
  intros Hbuf Hx. unfold store_rows. cbn [elem].
  apply scatter_shape; [done|].
  pose proof (drop_axis2_shape _ _ _ _ Hx) as Hd. by rewrite (proj1 Hd).
Qed.

(** Storing a second step tensor at the same positions leaves nothing of
    the first. *)
Lemma store_rows_twice {A} (nb nh nc nd : nat) (buf : XLATensor2 (tensor4 A))
    (pos : list Z) (x1 x2 : tensor4 A) :
  has_shape4 (nb, nh, nc, nd) (elem buf) ->
  has_shape4 (nb, nh, 1%nat, nd) x1 ->
  has_shape4 (nb, nh, 1%nat, nd) x2 ->
  length pos = nb ->
  store_rows nb nc (store_rows nb nc buf pos x1) pos x2
  = store_rows nb nc buf pos x2.
Proof.
  intros Hbuf Hx1 Hx2 Hlen.
  pose proof (store_rows_shape nb nh nc nd buf pos x1 Hbuf Hx1) as H1.
  pose proof (store_rows_shape nb nh nc nd buf pos x2 Hbuf Hx2) as H2.
  pose proof (store_rows_shape nb nh nc nd _ pos x2 H1 Hx2) as H12.
  assert (Heq : elem (store_rows nb nc (store_rows nb nc buf pos x1) pos x2)
                = elem (store_rows nb nc buf pos x2)).
  { apply (tensor4_ext nb nh nc nd); try done.
    intros b h col d Hb Hh Hcol.
    destruct (lookup_lt_is_Some_2 pos b) as [p Hp]; [lia|].
    rewrite !(store_rows_get nb nh nc nd _ _ _ b h col d p) by done.
    by case_decide. }
  destruct (store_rows nb nc (store_rows nb nc buf pos x1) pos x2),
    (store_rows nb nc buf pos x2). simpl in Heq. by subst.
Qed.

Section Int8.
Import Int8KVCacheGenerate.
Variables (dtype : float_format) (cast : float_value -> Z).

(** [Int8KVCacheGenerate.update] never changes the shape of a buffer, the
    position vector or the row index, whatever the step tensors and
    positions are and whether it returns or raises. *)
Theorem int8_update_keeps_shape (c : t) (xk xv : XLATensor2 (tensor4 Q))
    (nb nh nc nd : nat) :
  (0 < nb)%nat -> (0 < nh)%nat -> (0 < nc)%nat ->
  has_shape4 (nb, nh, nc, nd) (elem (cache_k c)) ->
  has_shape4 (nb, nh, nc, nd) (elem (cache_v c)) ->
  has_shape4 (nb, 1%nat, nc, 1%nat) (elem (k_scaler c)) ->
  has_shape4 (nb, 1%nat, nc, 1%nat) (elem (v_scaler c)) ->
  has_shape4 (nb, nh, nc, nd) (elem (cache_k (fst (update dtype cast c xk xv)))) /\
  has_shape4 (nb, nh, nc, nd) (elem (cache_v (fst (update dtype cast c xk xv)))) /\
  has_shape4 (nb, 1%nat, nc, 1%nat)
    (elem (k_scaler (fst (update dtype cast c xk xv)))) /\
  has_shape4 (nb, 1%nat, nc, 1%nat)
    (elem (v_scaler (fst (update dtype cast c xk xv)))) /\
  input_pos (fst (update dtype cast c xk xv)) = input_pos c /\
  batch (fst (update dtype cast c xk xv)) = batch c.
Proof.
  intros Hb Hh Hc Hk Hv Hks Hvs. unfold update.
  destruct (quantize dtype cast (elem xk)) as [kq ksc].
  destruct (quantize dtype cast (elem xv)) as [vq vsc].
  destruct (setitem (cache_k c) _ _ (squeeze2 kq)) as [ck|e] eqn:E1; [|done].
  apply (setitem_shape nb nh nc nd) in E1; try done.
  cbn [cache_k cache_v k_scaler v_scaler input_pos batch].
  destruct (setitem (cache_v c) _ _ (squeeze2 vq)) as [cv|e] eqn:E2; [|done].
  apply (setitem_shape nb nh nc nd) in E2; try done.
  cbn [cache_k cache_v k_scaler v_scaler input_pos batch].
  destruct (setitem (k_scaler c) _ _ (squeeze2 ksc)) as [ks|e] eqn:E3; [|done].
  apply (setitem_shape nb 1 nc 1) in E3; try done; try lia.
  cbn [cache_k cache_v k_scaler v_scaler input_pos batch].
  destruct (setitem (v_scaler c) _ _ (squeeze2 vsc)) as [vs|e] eqn:E4; [|done].
  apply (setitem_shape nb 1 nc 1) in E4; try done; lia.
Qed.

(** Two updates in a row leave the four buffers as the second one alone
    would: what the first one wrote is overwritten cell for cell, also
    where the positions are out of range. *)
Theorem int8_update_last_write_wins (c : t)
    (k1 v1 k2 v2 : XLATensor2 (tensor4 Q)) (nb nh nc nd : nat) :
  (0 < nb)%nat -> (0 < nh)%nat -> (0 < nc)%nat ->
  batch c = arange (length (input_pos c)) ->
  length (input_pos c) = nb ->
  has_shape4 (nb, nh, nc, nd) (elem (cache_k c)) ->
  has_shape4 (nb, nh, nc, nd) (elem (cache_v c)) ->
  has_shape4 (nb, 1%nat, nc, 1%nat) (elem (k_scaler c)) ->
  has_shape4 (nb, 1%nat, nc, 1%nat) (elem (v_scaler c)) ->
  has_shape4 (nb, nh, 1%nat, nd) (elem k1) ->
  has_shape4 (nb, nh, 1%nat, nd) (elem v1) ->
  has_shape4 (nb, nh, 1%nat, nd) (elem k2) ->
  has_shape4 (nb, nh, 1%nat, nd) (elem v2) ->
  state (fst (update dtype cast (fst (update dtype cast c k1 v1)) k2 v2))
  = state (fst (update dtype cast c k2 v2)) /\
  scalers (fst (update dtype cast (fst (update dtype cast c k1 v1)) k2 v2))
  = scalers (fst (update dtype cast c k2 v2)).
Proof.
  intros Hb Hh Hc Hbatch Hlen Hk Hv Hks Hvs Hk1 Hv1 Hk2 Hv2.
  destruct (quantize_shapes dtype cast _ _ _ _ _ Hk1 Hh) as [Hq1 Hs1].
  destruct (quantize_shapes dtype cast _ _ _ _ _ Hv1 Hh) as [Hq1' Hs1'].
  destruct (quantize_shapes dtype cast _ _ _ _ _ Hk2 Hh) as [Hq2 Hs2].
  destruct (quantize_shapes dtype cast _ _ _ _ _ Hv2 Hh) as [Hq2' Hs2'].
  rewrite (int8_update_result dtype cast c k1 v1 nb nh nc nd) by done.
  rewrite (int8_update_result dtype cast c k2 v2 nb nh nc nd) by done.
  cbn [fst].
  rewrite (int8_update_result dtype cast _ k2 v2 nb nh nc nd);
    cbn [cache_k cache_v k_scaler v_scaler input_pos batch];
    try done; try (by apply store_rows_shape).
  cbn [fst]. unfold state, scalers, unwrap.
  cbn [cache_k cache_v k_scaler v_scaler input_pos batch].
  rewrite !(store_rows_twice nb nh nc nd) by done.
  rewrite !(store_rows_twice nb 1 nc 1) by done.
  done.
Qed.


End Int8.

Lemma int8_update_keeps_shape_witness :
  has_shape4 (2, 1, 3, 2)%nat
    (elem (Int8KVCacheGenerate.cache_k
             (fst (Int8KVCacheGenerate.update bfloat16 cast_wrapping
                     example_int8_oob example_key example_value)))) /\
  Int8KVCacheGenerate.input_pos
    (fst (Int8KVCacheGenerate.update bfloat16 cast_wrapping example_int8_oob
            example_key example_value))
  = [-1; 3].
Proof.
  pose proof (int8_update_keeps_shape bfloat16 cast_wrapping example_int8_oob
                example_key example_value 2 1 3 2 ltac:(lia) ltac:(lia)
                ltac:(lia) ltac:(compute_done) ltac:(compute_done)
                ltac:(compute_done) ltac:(compute_done))
    as (Hk & _ & _ & _ & Hpos & _).
  split; [exact Hk | exact Hpos].
Defined.

Lemma int8_update_last_write_wins_witness :
  Int8KVCacheGenerate.state
    (fst (Int8KVCacheGenerate.update bfloat16 cast_wrapping
            (fst (Int8KVCacheGenerate.update bfloat16 cast_wrapping
                    example_int8 example_value example_key))
            example_key example_value))
  = Int8KVCacheGenerate.state
      (fst (Int8KVCacheGenerate.update bfloat16 cast_wrapping example_int8
              example_key example_value)).
Proof.
  exact (proj1 (int8_update_last_write_wins bfloat16 cast_wrapping example_int8
                  example_value example_key example_key example_value 2 1 3 2
                  ltac:(lia) ltac:(lia) ltac:(lia) eq_refl eq_refl
                  ltac:(compute_done) ltac:(compute_done) ltac:(compute_done)
                  ltac:(compute_done) ltac:(compute_done) ltac:(compute_done)
                  ltac:(compute_done) ltac:(compute_done))).
Defined.


End OverwriteFacts.

(** ** Accuracy of the int8 quantisation *)

Module DequantizeFacts.
Import IndexFacts TensorFacts ScatterFacts QuantizeFacts BoundsFacts.
Import Int8KVCacheGenerate.

Section Accuracy.
Variables (dtype : float_format) (cast : float_value -> Z).

(** Dequantisation error.  Take an element [x] of the input, its quantized
    value [q] and the scale [sc] of its batch row and sequence position,
    and let [m] be the largest magnitude of that slice.  When [m / 127] is
    a normal number of the format, the scale is positive, [q] lies in
    [-127, 127] and [|q * sc - x| < sc]: the product misses the element by
    less than one quantisation step, the roundings of both divisions
    included. *)
Theorem quantize_error_below_one_step (val : tensor4 Q)
    (nb nh ns nd b h s d : nat) :
  format_ok dtype ->
  has_shape4 (nb, nh, ns, nd) val ->
  (b < nb)%nat -> (h < nh)%nat -> (s < ns)%nat -> (d < nd)%nat ->
  exists x q sc m,
    get4 val b h s d = Some x /\
    get4 (fst (quantize dtype cast val)) b h s d = Some q /\
    get4 (snd (quantize dtype cast val)) b 0 s 0 = Some sc /\
    is_max_abs val b s m /\
    ((min_normal dtype <= m / 127)%Q ->
     (0 < sc)%Q /\ -127 <= q <= 127 /\
     (Qabs (inject_Z q * sc - x) < sc)%Q).
Proof.
  intros Hok Hval Hb Hh Hs Hd.
  destruct (quantize_cell dtype cast val nb nh ns nd b h s d)
    as (x & q & sc & m & Hx & Hq & Hsc & Hmax & Herr); try done.
  exists x, q, sc, m. repeat (split; [done|]). intros Hnormal. by apply Herr.
Qed.

(** Exactness on multiples.  An element that is [k] times its non-zero
    scale, for an integer [k] of the int8 range, is quantized to [k], so
    that multiplying back by the scale returns the element. *)
Theorem quantize_exact_on_multiples (val : tensor4 Q)
    (nb nh ns nd b h s d : nat) (x sc : Q) (k : Z) :
  format_ok dtype ->
  has_shape4 (nb, nh, ns, nd) val -> (0 < nh)%nat -> (0 < nd)%nat ->
  (b < nb)%nat -> (s < ns)%nat ->
  get4 val b h s d = Some x ->
  get4 (snd (quantize dtype cast val)) b 0 s 0 = Some sc ->
  ~ (sc == 0)%Q ->
  -128 <= k <= 127 ->
  (x == inject_Z k * sc)%Q ->
  get4 (fst (quantize dtype cast val)) b h s d = Some k.
Proof.
  intros Hok Hval Hh Hd Hb Hs Hx Hsc Hnz Hk Hmult.
  destruct (quantize_row dtype cast val nb nh ns nd b s)
    as (m & Hmax & Hsc' & Hq); try done.
  rewrite Hsc in Hsc'. injection Hsc' as ->.
  rewrite (Hq h d x Hx). f_equal.
  by apply FloatFacts.fdiv_multiple.
Qed.


End Accuracy.

Lemma quantize_error_below_one_step_witness :
  exists x q sc m,
    get4 [[[[5; 2]]]]%Q 0 0 0 1 = Some x /\
    get4 (fst (quantize bfloat16 cast_wrapping [[[[5; 2]]]]%Q)) 0 0 0 1 = Some q /\
    get4 (snd (quantize bfloat16 cast_wrapping [[[[5; 2]]]]%Q)) 0 0 0 0 = Some sc /\
    is_max_abs [[[[5; 2]]]]%Q 0 0 m /\
    ((min_normal bfloat16 <= m / 127)%Q ->
     (0 < sc)%Q /\ -127 <= q <= 127 /\
     (Qabs (inject_Z q * sc - x) < sc)%Q).
Proof.
  apply (quantize_error_below_one_step bfloat16 cast_wrapping [[[[5; 2]]]]%Q
           1 1 1 2);
    [apply bfloat16_ok | compute_done | lia | lia | lia | lia].
Defined.

Lemma quantize_exact_on_multiples_witness :
  get4 (fst (quantize bfloat16 cast_wrapping example_val)) 0 0 0 0 = Some 127.
Proof.
  apply (quantize_exact_on_multiples bfloat16 cast_wrapping example_val
           1 1 1 2 0 0 0 0 127%Q 1%Q 127);
    [apply bfloat16_ok | compute_done | lia | lia | lia | lia | reflexivity
    | vm_compute; reflexivity | discriminate | lia | reflexivity].
Defined.


End DequantizeFacts.

(** ** Merging sharded checkpoints *)

Module MergeFacts.
Import Checkpoint.

Lemma bind_Return {A B} (a : A) (k : A -> outcome B) : (Return a ≫= k) = k a.
Proof. reflexivity. Qed.

Lemma same_weight_keys_agree (l : list (list (string * weight)))
    (c1 c2 : list (string * weight)) :
  _checkpoints_have_same_weight_keys l = true ->
  c1 ∈ l -> c2 ∈ l -> key_set c1 = key_set c2.
Proof.
  unfold _checkpoints_have_same_weight_keys.
  destruct l as [|first [|second rest]].
  - intros _ H. by apply elem_of_nil in H.
  - by intros _ ->%list_elem_of_singleton ->%list_elem_of_singleton.
  - rewrite bool_decide_eq_false_2 by done.
    replace (length (first :: second :: rest) <=? 1)%nat with false by done.
    cbn [orb]. rewrite forallb_forall. intros Hall H1 H2.
    assert (Hfirst : forall c, c ∈ first :: second :: rest ->
                               key_set first = key_set c).
    { intros c [->|Hc]%elem_of_cons; [done|].
      eapply bool_decide_eq_true_1. apply Hall. by apply list_elem_of_In. }
    by rewrite <- (Hfirst c1 H1), <- (Hfirst c2 H2).
Qed.

Lemma same_shape_agree (l : list weight) (t1 t2 : weight) :
  _tensors_have_same_shape l = true ->
  t1 ∈ l -> t2 ∈ l -> wshape t1 = wshape t2.
Proof.
  unfold _tensors_have_same_shape.
  destruct l as [|first [|second rest]].
  - intros _ H. by apply elem_of_nil in H.
  - by intros _ ->%list_elem_of_singleton ->%list_elem_of_singleton.
  - rewrite bool_decide_eq_false_2 by done.
    replace (length (first :: second :: rest) <=? 1)%nat with false by done.
    cbn [orb]. rewrite forallb_forall. intros Hall H1 H2.
    assert (Hfirst : forall c, c ∈ first :: second :: rest ->
                               wshape c = wshape first).
    { intros c [->|Hc]%elem_of_cons; [done|].
      eapply bool_decide_eq_true_1. apply Hall. by apply list_elem_of_In. }
    by rewrite (Hfirst t1 H1), (Hfirst t2 H2).
Qed.

(** The test passes exactly when all checkpoints of the list have one key
    set, although the code compares each one with the first only. *)
Theorem same_weight_keys_pairwise (l : list (list (string * weight))) :
  _checkpoints_have_same_weight_keys l = true
  <-> forall c1 c2, c1 ∈ l -> c2 ∈ l -> key_set c1 = key_set c2.
Proof.
  split; [intros Hsame c1 c2; by apply same_weight_keys_agree|].
  unfold _checkpoints_have_same_weight_keys.
  destruct l as [|first [|second rest]]; [done|done|].
  rewrite bool_decide_eq_false_2 by done.
  replace (length (first :: second :: rest) <=? 1)%nat with false by done.
  cbn [orb]. rewrite forallb_forall.
  intros Hall m Hm. apply bool_decide_eq_true_2. apply Hall.
  - apply list_elem_of_here.
  - apply list_elem_of_further. by apply list_elem_of_In.
Qed.

(** Likewise for shapes: the test passes exactly when all tensors of the
    list have one shape. *)
Theorem same_shape_pairwise (l : list weight) :
  _tensors_have_same_shape l = true
  <-> forall t1 t2, t1 ∈ l -> t2 ∈ l -> wshape t1 = wshape t2.
Proof.
  split; [intros Hsame t1 t2; by apply same_shape_agree|].
  unfold _tensors_have_same_shape.
  destruct l as [|first [|second rest]]; [done|done|].
  rewrite bool_decide_eq_false_2 by done.
  replace (length (first :: second :: rest) <=? 1)%nat with false by done.
  cbn [orb]. rewrite forallb_forall.
  intros Hall m Hm. apply bool_decide_eq_true_2. apply Hall.
  - apply list_elem_of_further. by apply list_elem_of_In.
  - apply list_elem_of_here.
Qed.

(** No merge without agreement on the keys: when two checkpoints of the
    list differ in their key sets, [_merge_llama_weights] raises the
    ValueError for key sets, before it looks at any tensor. *)
Theorem merge_rejects_different_keys (l : list (list (string * weight)))
    (enable_float32 : bool) (c1 c2 : list (string * weight)) :
  c1 ∈ l -> c2 ∈ l -> key_set c1 <> key_set c2 ->
  _merge_llama_weights l enable_float32
  = Raised (EValue "Checkpoint must have the same set of weights.").
Proof.
  intros H1 H2 Hne. unfold _merge_llama_weights.
  destruct (_checkpoints_have_same_weight_keys l) eqn:Hsame; [|done].
  exfalso. apply Hne. by apply (same_weight_keys_agree l).
Qed.

Lemma merge_rejects_different_keys_witness :
  _merge_llama_weights [example_shard0; []] false
  = Raised (EValue "Checkpoint must have the same set of weights.").
Proof.
  apply (merge_rejects_different_keys _ _ example_shard0 []).
  - apply list_elem_of_here.
  - apply list_elem_of_further, list_elem_of_here.
  - intros Heq.
    assert (Hin : "extra"%string ∈ key_set example_shard0).
    { unfold key_set. apply elem_of_list_to_set. compute_done. }
    rewrite Heq in Hin. unfold key_set in Hin. cbn in Hin. set_solver.
Defined.

(** *** Dictionaries *)

Lemma dict_set_fresh (d : list (string * weight)) (key : string) (v : weight) :
  key ∉ keys d -> dict_set d key v = d ++ [(key, v)].
Proof.
  induction d as [|[k v'] d IH]; [done|]. simpl. intros Hnot.
  apply not_elem_of_cons in Hnot as [Hne Hnot].
  rewrite decide_False by done. by rewrite IH.
Qed.

Lemma dict_get_NoDup (d : list (string * weight)) (key : string) (v : weight) :
  NoDup (keys d) -> (key, v) ∈ d -> dict_get d key = Return v.
Proof.
  induction d as [|[k v'] d IH]; intros Hnd Hin; [by apply elem_of_nil in Hin|].
  simpl in *. apply NoDup_cons in Hnd as [Hk Hnd].
  apply elem_of_cons in Hin as [[= -> ->]|Hin].
  - by rewrite decide_True.
  - rewrite decide_False; [by apply IH|].
    intros ->. apply Hk. apply list_elem_of_fmap. by exists (key, v).
Qed.

Lemma merge_patterns_at_most (table : list (string * option sharding_type))
    (key : string) (tensors : list weight) (f32 : bool) :
  forall acc r,
    at_most key acc ->
    merge_patterns table key tensors f32 acc = Return r ->
    at_most key r /\
    (r = [] <-> acc = [] /\ existsb (fun p => ends_with key p.1) table = false).
Proof.
  induction table as [|[pattern kind] table IH]; intros acc r Hacc;
    cbn [merge_patterns existsb fst snd].
  - intros [= <-]. split; [done|]. split; [by intros ->|by intros [-> _]].
  - destruct (ends_with key pattern) eqn:Hend; cbn [negb orb].
    + destruct (merge_kind kind key tensors) as [merged|e] eqn:Hm; [|done].
      rewrite bind_Return.
      assert (Hset : dict_set acc key merged = [(key, merged)]).
      { destruct Hacc as [->|[w ->]]; [done|]. cbn. by rewrite decide_True. }
      rewrite Hset.
      assert (Hnext : (if f32 then
                         match dict_get [(key, merged)] key with
                         | Return t => dict_set [(key, merged)] key (float t)
                         | Raised _ => [(key, merged)]
                         end
                       else [(key, merged)]) = [(key, merged)]).
      { destruct f32; [|done]. cbn. by rewrite !decide_True. }
      rewrite Hnext. intros Hr.
      destruct (IH [(key, merged)] r) as [Hmost Hiff]; [right; eauto|done|].
      split; [done|]. split; [|by intros [_ ?]].
      intros Hnil. apply Hiff in Hnil as [? _]. done.
    + intros Hr. by apply IH.
Qed.

Lemma merge_key_keys (cps : list (list (string * weight))) (f32 : bool)
    (key : string) (r : list (string * weight)) :
  merge_key cps f32 key = Return r ->
  keys r = if recognised key then [key] else [].
Proof.
  unfold merge_key. destruct (mapM _ cps) as [tensors|e]; [|done].
  rewrite bind_Return.
  destruct (_tensors_have_same_shape tensors); [|done]. cbn [negb]. intros Hr.
  destruct (merge_patterns_at_most _ _ _ _ [] r (or_introl eq_refl) Hr)
    as [Hmost Hiff].
  unfold recognised.
  destruct (existsb _ _WEIGHT_SHARDING_TYPE) eqn:Hrec.
  - destruct Hmost as [->|[w ->]]; [|done]. by destruct (proj1 Hiff eq_refl).
  - by rewrite (proj2 Hiff (conj eq_refl eq_refl)).
Qed.

Lemma merge_key_at_most (cps : list (list (string * weight))) (f32 : bool)
    (key : string) (r : list (string * weight)) :
  merge_key cps f32 key = Return r -> at_most key r.
Proof.
  unfold merge_key. destruct (mapM _ cps) as [tensors|e]; [|done].
  rewrite bind_Return.
  destruct (_tensors_have_same_shape tensors); [|done]. cbn [negb]. intros Hr.
  by destruct (merge_patterns_at_most _ _ _ _ [] r (or_introl eq_refl) Hr).
Qed.

Lemma merge_keys_keys (cps : list (list (string * weight))) (f32 : bool)
    (ks : list string) :
  forall sd sd',
    NoDup (keys sd ++ ks) ->
    merge_keys cps f32 ks sd = Return sd' ->
    keys sd' = keys sd ++ filter (fun k => recognised k = true) ks.
Proof.
  induction ks as [|key ks IH]; intros sd sd' Hnd; simpl.
  - intros [= <-]. by rewrite app_nil_r.
  - destruct (merge_key cps f32 key) as [r|e] eqn:Hkey; [|done].
    rewrite bind_Return. intros Hrest.
    pose proof (merge_key_keys _ _ _ _ Hkey) as Hkeys.
    pose proof (merge_key_at_most _ _ _ _ Hkey) as Hmost.
    assert (Hfresh : key ∉ keys sd).
    { apply NoDup_app in Hnd as (_ & Hdisj & _). intros Hin.
      apply (Hdisj key Hin). apply list_elem_of_here. }
    assert (Hupd : keys (dict_update sd r) = keys sd ++ keys r).
    { destruct Hmost as [->|[w ->]]; [by rewrite app_nil_r|].
      unfold dict_update. simpl. rewrite dict_set_fresh by done.
      unfold keys. by rewrite fmap_app. }
    apply IH in Hrest.
    + rewrite Hrest, Hupd, Hkeys, filter_cons.
      destruct (recognised key) eqn:Hrec.
      * rewrite decide_True by done. by rewrite <- app_assoc.
      * rewrite decide_False by done. by rewrite app_nil_r.
    + rewrite Hupd, Hkeys.
      destruct (recognised key).
      * rewrite <- app_assoc. simpl. done.
      * rewrite app_nil_r. apply NoDup_app in Hnd as (Hsd & Hdisj & Hks).
        apply NoDup_app. split; [done|]. split.
        -- intros k Hk Hin. apply (Hdisj k Hk). by apply list_elem_of_further.
        -- by apply NoDup_cons in Hks as [_ ?].
Qed.

(** On success the merged dictionary has exactly the keys of the first
    checkpoint that end with a known pattern, in their order; the weights
    under other keys are dropped without notice. *)
Theorem merge_keeps_recognised_keys (first : list (string * weight))
    (rest : list (list (string * weight))) (enable_float32 : bool)
    (sd : list (string * weight)) :
  NoDup (keys first) ->
  _merge_llama_weights (first :: rest) enable_float32 = Return sd ->
  keys sd = filter (fun k => recognised k = true) (keys first).
Proof.
  intros Hnd. unfold _merge_llama_weights.
  destruct (_checkpoints_have_same_weight_keys (first :: rest)); [|done].
  cbn [negb]. intros Hsd. by apply merge_keys_keys in Hsd.
Qed.

Lemma merge_keeps_recognised_keys_witness :
  exists sd,
    _merge_llama_weights [example_shard0; example_shard1] false = Return sd /\
    keys sd = ["tok_embeddings.weight"; "layers.0.attention.wq.weight";
               "layers.0.attention_norm.weight"]%string.
Proof.
  eexists. split; [reflexivity|].
  match goal with
  | |- keys ?sd = _ =>
      exact (merge_keeps_recognised_keys example_shard0 [example_shard1] false
               sd ltac:(compute_done) eq_refl)
  end.
Defined.

(** When every pattern the key ends with gives the same outcome, that
    outcome decides the entry: its weight is stored, or its exception is
    raised. *)
Lemma merge_patterns_uniform (table : list (string * option sharding_type))
    (key : string) (tensors : list weight) (f32 : bool) (op : outcome weight) :
  forall acc,
    at_most key acc ->
    Forall (fun p => ends_with key p.1 = true -> merge_kind p.2 key tensors = op)
      table ->
    merge_patterns table key tensors f32 acc
    = if existsb (fun p => ends_with key p.1) table
      then (w ← op; Return [(key, w)])
      else Return acc.
Proof.
  induction table as [|[pattern kind] table IH]; intros acc Hacc Hall; [done|].
  inversion Hall as [|? ? Hhead Hall']; subst.
  cbn [merge_patterns existsb fst snd] in *.
  destruct (ends_with key pattern) eqn:Hend; cbn [negb orb].
  - rewrite (Hhead eq_refl). destruct op as [w|e]; [|done].
    rewrite !bind_Return.
    assert (Hset : dict_set acc key w = [(key, w)]).
    { destruct Hacc as [->|[w' ->]]; [done|]. cbn. by rewrite decide_True. }
    rewrite Hset.
    assert (Hnext : (if f32 then
                       match dict_get [(key, w)] key with
                       | Return t => dict_set [(key, w)] key (float t)
                       | Raised _ => [(key, w)]
                       end
                     else [(key, w)]) = [(key, w)]).
    { destruct f32; [|done]. cbn. by rewrite !decide_True. }
    rewrite Hnext, IH; [|right; eauto|done].
    rewrite bind_Return.
    by destruct (existsb (fun p => ends_with key p.1) table).
  - by apply IH.
Qed.

Lemma merge_kind_single (kind : option sharding_type) (key : string) (w : weight) :
  (along_dim1 kind = true -> exists rows, w = W2 rows) ->
  merge_kind kind key [w] = Return w.
Proof.
  intros Hmat. destruct kind as [[| |]|]; cbn [along_dim1] in Hmat.
  - destruct (Hmat eq_refl) as [rows ->]. reflexivity.
  - destruct w as [[|x v]|rows]; cbn.
    + done.
    + by rewrite app_nil_r.
    + rewrite decide_True by done. cbn. by rewrite app_nil_r.
  - destruct (Hmat eq_refl) as [rows ->]. reflexivity.
  - reflexivity.
Qed.

Lemma merge_patterns_single (table : list (string * option sharding_type))
    (key : string) (w : weight) (f32 : bool) :
  (existsb (fun p => ends_with key p.1 && along_dim1 p.2) table = true ->
   exists rows, w = W2 rows) ->
  merge_patterns table key [w] f32 []
  = Return (if existsb (fun p => ends_with key p.1) table then [(key, w)]
            else []).
Proof.
  intros Hmat.
  rewrite (merge_patterns_uniform table key [w] f32 (Return w)); [|by left|].
  - by destruct (existsb (fun p => ends_with key p.1) table).
  - apply Forall_forall. intros [pattern kind] Hin Hend. cbn [fst snd] in *.
    apply merge_kind_single. intros Hdim. apply Hmat.
    apply existsb_exists. exists (pattern, kind).
    split; [by apply list_elem_of_In|]. cbn [fst snd]. by rewrite Hend, Hdim.
Qed.

Lemma merge_keys_single (c : list (string * weight)) (f32 : bool) :
  forall entries sd,
    Forall (fun kv => dict_get c kv.1 = Return kv.2) entries ->
    Forall (fun kv => needs_matrix kv.1 = true -> exists rows, kv.2 = W2 rows)
      entries ->
    NoDup (keys sd ++ keys entries) ->
    merge_keys [c] f32 (keys entries) sd
    = Return (sd ++ filter (fun kv => recognised kv.1 = true) entries).
Proof.
  induction entries as [|[key w] entries IH]; intros sd Hget Hmat Hnd.
  - simpl. by rewrite app_nil_r.
  - inversion Hget as [|? ? Hg Hget']; subst.
    inversion Hmat as [|? ? Hm Hmat']; subst.
    cbn [fst snd] in Hg, Hm.
    change (keys ((key, w) :: entries)) with (key :: keys entries) in *.
    cbn [merge_keys]. unfold merge_key. cbn [mapM]. rewrite Hg, !bind_Return.
    change (_tensors_have_same_shape [w]) with true. cbn [negb].
    rewrite (merge_patterns_single _ key w f32); [|exact Hm].
    rewrite bind_Return.
    assert (Hfresh : key ∉ keys sd).
    { apply NoDup_app in Hnd as (_ & Hdisj & _). intros Hin.
      apply (Hdisj key Hin). apply list_elem_of_here. }
    rewrite filter_cons. cbn [fst]. fold (recognised key).
    destruct (recognised key) eqn:Hrec.
    + rewrite decide_True by done. unfold dict_update. cbn [foldl fst snd].
      rewrite dict_set_fresh by done. rewrite IH; try done.
      * by rewrite <- app_assoc.
      * unfold keys. rewrite fmap_app. cbn [fmap list_fmap fst].
        by rewrite <- app_assoc.
    + rewrite decide_False by done. unfold dict_update. cbn [foldl].
      apply IH; try done.
      apply NoDup_app in Hnd as (Hsd & Hdisj & Hks).
      apply NoDup_app. split; [done|]. split.
      * intros k Hk Hin. apply (Hdisj k Hk). by apply list_elem_of_further.
      * by apply NoDup_cons in Hks as [_ ?].
Qed.

(** Merging a single checkpoint returns its weights unchanged, without
    those whose key ends with no known pattern, provided the weights that
    are concatenated along dimension 1 are matrices. *)
Theorem merge_single_shard (c : list (string * weight)) (enable_float32 : bool) :
  NoDup (keys c) ->
  Forall (fun kv => needs_matrix kv.1 = true -> exists rows, kv.2 = W2 rows) c ->
  _merge_llama_weights [c] enable_float32
  = Return (filter (fun kv => recognised kv.1 = true) c).
Proof.
  intros Hnd Hmat. unfold _merge_llama_weights.
  change (_checkpoints_have_same_weight_keys [c]) with true. cbn [negb].
  apply (merge_keys_single c enable_float32 c []); [|done|done].
  apply Forall_forall. intros [k w] Hin. by apply dict_get_NoDup.
Qed.

Lemma merge_single_shard_witness :
  _merge_llama_weights [example_shard0] true
  = Return (filter (fun kv => recognised kv.1 = true) example_shard0).
Proof.
  apply merge_single_shard; [compute_done|].
  repeat (constructor; [simpl; first [discriminate | eauto]|]). constructor.
Defined.

(** *** The merged entries *)

Lemma dict_get_elem (d : list (string * weight)) (key : string) (w : weight) :
  dict_get d key = Return w -> key ∈ keys d.
Proof.
  induction d as [|[k v] d IH]; [done|]. cbn [dict_get].
  change (keys ((k, v) :: d)) with (k :: keys d).
  destruct (decide (k = key)) as [->|Hne].
  - intros _. apply list_elem_of_here.
  - intros Hget. apply list_elem_of_further. by apply IH.
Qed.

Lemma dict_get_app_l (d d' : list (string * weight)) (key : string) (w : weight) :
  dict_get d key = Return w -> dict_get (d ++ d') key = Return w.
Proof.
  induction d as [|[k v] d IH]; [done|]. cbn [dict_get app].
  by destruct (decide (k = key)).
Qed.

Lemma dict_get_app_r (d d' : list (string * weight)) (key : string) :
  key ∉ keys d -> dict_get (d ++ d') key = dict_get d' key.
Proof.
  induction d as [|[k v] d IH]; [done|].
  change (keys ((k, v) :: d)) with (k :: keys d).
  intros [Hne Hnot]%not_elem_of_cons. cbn [dict_get app].
  rewrite decide_False by done. by apply IH.
Qed.

Lemma dict_update_at_most (sd r : list (string * weight)) (key : string) :
  at_most key r -> key ∉ keys sd -> dict_update sd r = sd ++ r.
Proof.
  intros [->|[w ->]] Hfresh; [by rewrite app_nil_r|].
  unfold dict_update. cbn [foldl fst snd]. by apply dict_set_fresh.
Qed.

Lemma NoDup_step (sd r : list (string * weight)) (key : string)
    (ks : list string) :
  at_most key r -> NoDup (keys sd ++ key :: ks) -> NoDup (keys (sd ++ r) ++ ks).
Proof.
  intros [->|[w ->]] Hnd.
  - rewrite app_nil_r. apply NoDup_app in Hnd as (Hsd & Hdisj & Hks).
    apply NoDup_app. split; [done|]. split.
    + intros k Hk Hin. apply (Hdisj k Hk). by apply list_elem_of_further.
    + by apply NoDup_cons in Hks as [_ ?].
  - unfold keys. rewrite fmap_app. cbn [fmap list_fmap fst].
    by rewrite <- app_assoc.
Qed.

Lemma NoDup_fresh (sd : list (string * weight)) (key : string) (ks : list string) :
  NoDup (keys sd ++ key :: ks) -> key ∉ keys sd.
Proof.
  intros (_ & Hdisj & _)%NoDup_app Hin.
  apply (Hdisj key Hin). apply list_elem_of_here.
Qed.

(** Every key of the loop is merged when the loop returns. *)
Lemma merge_keys_each (cps : list (list (string * weight))) (f32 : bool)
    (key : string) (ks : list string) :
  forall sd sd',
    merge_keys cps f32 ks sd = Return sd' -> key ∈ ks ->
    exists r, merge_key cps f32 key = Return r.
Proof.
  induction ks as [|k ks IH]; intros sd sd' Hsd Hin;
    [by apply elem_of_nil in Hin|].
  cbn [merge_keys] in Hsd.
  destruct (merge_key cps f32 k) as [r|e] eqn:Hkey; [|done].
  rewrite bind_Return in Hsd.
  apply elem_of_cons in Hin as [->|Hin]; [by exists r|].
  by apply (IH _ _ Hsd).
Qed.

(** Later keys leave the entries made so far as they are. *)
Lemma merge_keys_preserves (cps : list (list (string * weight))) (f32 : bool)
    (key : string) (w : weight) (ks : list string) :
  forall sd sd',
    NoDup (keys sd ++ ks) ->
    merge_keys cps f32 ks sd = Return sd' ->
    dict_get sd key = Return w -> dict_get sd' key = Return w.
Proof.
  induction ks as [|k ks IH]; intros sd sd' Hnd Hsd Hget.
  - cbn [merge_keys] in Hsd. by injection Hsd as <-.
  - cbn [merge_keys] in Hsd.
    destruct (merge_key cps f32 k) as [r|e] eqn:Hkey; [|done].
    rewrite bind_Return in Hsd.
    pose proof (merge_key_at_most _ _ _ _ Hkey) as Hmost.
    rewrite (dict_update_at_most sd r k Hmost (NoDup_fresh _ _ _ Hnd)) in Hsd.
    apply (IH _ _ (NoDup_step _ _ _ _ Hmost Hnd) Hsd).
    by apply dict_get_app_l.
Qed.

(** The entry a key produces is the one found under it at the end. *)
Lemma merge_keys_lookup (cps : list (list (string * weight))) (f32 : bool)
    (key : string) (w : weight) (ks : list string) :
  forall sd sd',
    NoDup (keys sd ++ ks) ->
    merge_keys cps f32 ks sd = Return sd' ->
    key ∈ ks ->
    merge_key cps f32 key = Return [(key, w)] ->
    dict_get sd' key = Return w.
Proof.
  induction ks as [|k ks IH]; intros sd sd' Hnd Hsd Hin Hentry;
    [by apply elem_of_nil in Hin|].
  cbn [merge_keys] in Hsd.
  destruct (merge_key cps f32 k) as [r|e] eqn:Hkey; [|done].
  rewrite bind_Return in Hsd.
  pose proof (merge_key_at_most _ _ _ _ Hkey) as Hmost.
  pose proof (NoDup_fresh _ _ _ Hnd) as Hfresh.
  rewrite (dict_update_at_most sd r k Hmost Hfresh) in Hsd.
  pose proof (NoDup_step _ _ _ _ Hmost Hnd) as Hnd'.
  apply elem_of_cons in Hin as [->|Hin].
  - rewrite Hentry in Hkey. injection Hkey as <-.
    apply (merge_keys_preserves _ _ _ _ _ _ _ Hnd' Hsd).
    rewrite dict_get_app_r by done. cbn [dict_get]. by rewrite decide_True.
  - by apply (IH _ _ Hnd' Hsd).
Qed.

(** *** One kind per key *)

Lemma ends_with_chain (s a b : string) :
  ends_with s a = true -> ends_with s b = true ->
  ends_with a b = true \/ ends_with b a = true.
Proof.
  induction s as [|c s IH]; cbn [ends_with].
  - rewrite !orb_false_r. intros Ha%String.eqb_eq Hb%String.eqb_eq. subst.
    by left.
  - intros Ha Hb. destruct (String.eqb (String c s) a) eqn:Ea.
    + apply String.eqb_eq in Ea. subst a. left. exact Hb.
    + destruct (String.eqb (String c s) b) eqn:Eb.
      * apply String.eqb_eq in Eb. subst b. right.
        cbn [ends_with]. rewrite Ea. exact Ha.
      * by apply IH.
Qed.

(** Two patterns of the table of which one ends with the other have one
    kind. *)
Lemma table_kinds_agree (p q : string * option sharding_type) :
  p ∈ _WEIGHT_SHARDING_TYPE -> q ∈ _WEIGHT_SHARDING_TYPE ->
  ends_with p.1 q.1 = true -> p.2 = q.2.
Proof.
  assert (Htable :
    forallb (fun p : string * option sharding_type =>
      forallb (fun q : string * option sharding_type =>
        implb (ends_with p.1 q.1) (bool_decide (p.2 = q.2)))
        _WEIGHT_SHARDING_TYPE) _WEIGHT_SHARDING_TYPE = true)
    by (vm_compute; reflexivity).
  intros Hp Hq Hend. apply list_elem_of_In in Hp, Hq.
  rewrite forallb_forall in Htable. specialize (Htable p Hp).
  rewrite forallb_forall in Htable. specialize (Htable q Hq).
  rewrite Hend in Htable. cbn [implb] in Htable.
  eapply bool_decide_eq_true_1. exact Htable.
Qed.

(** So all the patterns a key ends with have the kind [kind_of] gives. *)
Lemma kind_of_all (key : string) (kind : option sharding_type) :
  kind_of key = Some kind ->
  recognised key = true /\
  Forall (fun p => ends_with key p.1 = true -> p.2 = kind) _WEIGHT_SHARDING_TYPE.
Proof.
  unfold kind_of. intros Hkind.
  apply fmap_Some in Hkind as (q & Hlast & ->).
  apply last_Some in Hlast as [l' Hlast].
  assert (Hq : In q (List.filter (fun p => ends_with key p.1)
                       _WEIGHT_SHARDING_TYPE)).
  { rewrite Hlast. apply in_or_app. right. by left. }
  apply filter_In in Hq as [Hq Hend]. split.
  - unfold recognised. apply existsb_exists. by exists q.
  - apply Forall_forall. intros p Hp Hendp.
    apply list_elem_of_In in Hq.
    destruct (ends_with_chain key p.1 q.1 Hendp Hend) as [Hpq|Hqp].
    + by apply table_kinds_agree.
    + symmetry. by apply table_kinds_agree.
Qed.

Lemma merge_key_tensors (cps : list (list (string * weight))) (f32 : bool)
    (key : string) (r : list (string * weight)) :
  merge_key cps f32 key = Return r ->
  exists tensors,
    mapM (fun c => dict_get c key) cps = Return tensors /\
    _tensors_have_same_shape tensors = true.
Proof.
  unfold merge_key. destruct (mapM _ cps) as [tensors|e]; [|done].
  rewrite bind_Return.
  destruct (_tensors_have_same_shape tensors) eqn:Hshape; [|done]. intros _.
  by exists tensors.
Qed.

(** The entry of a key of a known kind. *)
Lemma merge_key_kind (cps : list (list (string * weight))) (f32 : bool)
    (key : string) (kind : option sharding_type) (tensors : list weight)
    (r : list (string * weight)) :
  kind_of key = Some kind ->
  mapM (fun c => dict_get c key) cps = Return tensors ->
  merge_key cps f32 key = Return r ->
  exists w, merge_kind kind key tensors = Return w /\ r = [(key, w)].
Proof.
  intros [Hrec Hall]%kind_of_all Htensors. unfold merge_key.
  rewrite Htensors, bind_Return.
  destruct (_tensors_have_same_shape tensors); [|done]. cbn [negb].
  rewrite (merge_patterns_uniform _ key tensors f32
             (merge_kind kind key tensors)); [|by left|].
  - fold (recognised key). rewrite Hrec.
    destruct (merge_kind kind key tensors) as [w|e]; [|done].
    rewrite bind_Return. intros [= <-]. by exists w.
  - eapply Forall_impl; [exact Hall|]. intros p Hp Hend. by rewrite (Hp Hend).
Qed.

(** *** Concatenation *)

Lemma mapM_Forall2 {A B} (f : A -> outcome B) (l : list A) :
  forall ys, mapM f l = Return ys -> Forall2 (fun x y => f x = Return y) l ys.
Proof.
  induction l as [|x l IH]; intros ys; cbn [mapM].
  - intros [= <-]. constructor.
  - destruct (f x) as [y|e] eqn:Hx; [|done]. rewrite bind_Return.
    destruct (mapM f l) as [ys'|e]; [|done]. rewrite bind_Return.
    intros [= <-]. constructor; [done|]. by apply IH.
Qed.

Lemma mapM_as_matrix (dim : nat) (first : list (list Q))
    (mats : list (list (list Q))) :
  forall ms, mapM (as_matrix dim first) (W2 <$> mats) = Return ms -> ms = mats.
Proof.
  induction mats as [|m mats IH]; intros ms; cbn [mapM fmap list_fmap].
  - by intros [= <-].
  - destruct (as_matrix dim first (W2 m)) as [y|e] eqn:Hm; [|done].
    cbn [as_matrix] in Hm. case_decide; [|done]. injection Hm as <-.
    rewrite bind_Return.
    destruct (mapM (as_matrix dim first) (W2 <$> mats)) as [ms'|e]; [|done].
    rewrite bind_Return. intros [= <-]. by rewrite (IH ms').
Qed.

Lemma filter_matrices (mats : list (list (list Q))) :
  List.filter (fun t => negb (is_empty_vector t)) (W2 <$> mats) = W2 <$> mats.
Proof.
  induction mats as [|m mats IH]; [done|].
  cbn [fmap list_fmap List.filter is_empty_vector negb]. f_equal. exact IH.
Qed.

Lemma cat_matrices (m0 : list (list Q)) (ms : list (list (list Q))) (dim : nat) :
  cat (W2 m0 :: (W2 <$> ms)) dim
  = match dim with
    | 0%nat => ms' ← mapM (as_matrix 0 m0) (W2 m0 :: (W2 <$> ms));
               Return (W2 (concat ms'))
    | 1%nat => ms' ← mapM (as_matrix 1 m0) (W2 <$> ms);
               Return (W2 (hcat m0 ms'))
    | _ => Raised EIndex
    end.
Proof.
  unfold cat. cbn [List.filter is_empty_vector negb].
  by rewrite filter_matrices.
Qed.

Lemma cat_rows (mats : list (list (list Q))) (w : weight) :
  cat (W2 <$> mats) 0 = Return w -> w = W2 (concat mats).
Proof.
  destruct mats as [|m0 ms]; [done|].
  change (W2 <$> m0 :: ms) with (W2 m0 :: (W2 <$> ms)). rewrite cat_matrices.
  destruct (mapM (as_matrix 0 m0) (W2 m0 :: (W2 <$> ms))) as [ms'|e] eqn:Hms;
    [|done].
  rewrite bind_Return. intros [= <-].
  by rewrite (mapM_as_matrix 0 m0 (m0 :: ms) _ Hms).
Qed.

Lemma cat_columns (m0 : list (list Q)) (ms : list (list (list Q))) (w : weight) :
  cat (W2 m0 :: (W2 <$> ms)) 1 = Return w -> w = W2 (hcat m0 ms).
Proof.
  rewrite cat_matrices.
  destruct (mapM (as_matrix 1 m0) (W2 <$> ms)) as [ms'|e] eqn:Hms; [|done].
  rewrite bind_Return. intros [= <-]. by rewrite (mapM_as_matrix _ _ _ _ Hms).
Qed.

Lemma all_close_each (first : weight) (rest : list weight) :
  all_close first rest = Return true ->
  forall t, t ∈ rest -> allclose first t = Return true.
Proof.
  induction rest as [|t' rest IH]; intros Hall t Hin;
    [by apply elem_of_nil in Hin|].
  cbn [all_close] in Hall.
  destruct (allclose first t') as [[|]|e] eqn:Hclose; try done.
  rewrite bind_Return in Hall.
  apply elem_of_cons in Hin as [->|Hin]; [done|]. by apply IH.
Qed.

(** The path of a successful merge to the entry of one key of the first
    checkpoint. *)
Lemma merge_entry (first : list (string * weight))
    (rest : list (list (string * weight))) (f32 : bool)
    (sd : list (string * weight)) (key : string) (kind : option sharding_type)
    (w0 : weight) :
  NoDup (keys first) ->
  _merge_llama_weights (first :: rest) f32 = Return sd ->
  kind_of key = Some kind ->
  dict_get first key = Return w0 ->
  exists tensors w,
    mapM (fun c => dict_get c key) (first :: rest) = Return tensors /\
    merge_kind kind key tensors = Return w /\
    dict_get sd key = Return w.
Proof.
  intros Hnd Hsd Hkind Hfirst. unfold _merge_llama_weights in Hsd.
  destruct (_checkpoints_have_same_weight_keys (first :: rest)); [|done].
  cbn [negb] in Hsd.
  pose proof (dict_get_elem _ _ _ Hfirst) as Hin.
  destruct (merge_keys_each _ _ key _ _ _ Hsd Hin) as [r Hr].
  destruct (merge_key_tensors _ _ _ _ Hr) as (tensors & Htensors & _).
  destruct (merge_key_kind _ _ _ _ _ _ Hkind Htensors Hr) as (w & Hw & ->).
  exists tensors, w. split; [done|]. split; [done|].
  by apply (merge_keys_lookup _ _ _ _ _ [] sd Hnd Hsd Hin).
Qed.

(** For a column-parallel weight (wq, wk, wv, w1, w3, output) the merged
    matrix is the shards' matrices one below the other, in the order of the
    shards. *)
Theorem merge_stacks_rows (first : list (string * weight))
    (rest : list (list (string * weight))) (enable_float32 : bool)
    (sd : list (string * weight)) (key : string)
    (mats : list (list (list Q))) :
  NoDup (keys first) ->
  _merge_llama_weights (first :: rest) enable_float32 = Return sd ->
  kind_of key = Some (Some ColumnParallelLinear) ->
  mapM (fun c => dict_get c key) (first :: rest) = Return (W2 <$> mats) ->
  dict_get sd key = Return (W2 (concat mats)).
Proof.
  intros Hnd Hsd Hkind Hmats.
  assert (Hfirst : exists w0, dict_get first key = Return w0).
  { cbn [mapM] in Hmats. destruct (dict_get first key) as [w0|e]; [|done].
    by exists w0. }
  destruct Hfirst as [w0 Hfirst].
  destruct (merge_entry _ _ _ _ _ _ _ Hnd Hsd Hkind Hfirst)
    as (tensors & w & Htensors & Hw & Hget).
  rewrite Hmats in Htensors. injection Htensors as <-.
  cbn [merge_kind] in Hw. by rewrite <- (cat_rows _ _ Hw).
Qed.

Lemma merge_stacks_rows_witness :
  exists sd,
    _merge_llama_weights [example_shard0; example_shard1] false = Return sd /\
    dict_get sd "layers.0.attention.wq.weight"
    = Return (W2 (concat [[[5; 6]]; [[50; 60]]]%Q)).
Proof.
  eexists. split; [reflexivity|].
  match goal with
  | |- dict_get ?sd _ = _ =>
      exact (merge_stacks_rows example_shard0 [example_shard1] false sd
               "layers.0.attention.wq.weight" [[[5; 6]]; [[50; 60]]]%Q
               ltac:(compute_done) eq_refl eq_refl eq_refl)
  end.
Defined.

(** For a row-parallel weight (wo, w2) and for the token embedding the
    merged matrix has the shards' matrices side by side: row [i] is row [i]
    of each shard in turn. *)
Theorem merge_joins_columns (first : list (string * weight))
    (rest : list (list (string * weight))) (enable_float32 : bool)
    (sd : list (string * weight)) (key : string) (kind : option sharding_type)
    (m0 : list (list Q)) (ms : list (list (list Q))) :
  NoDup (keys first) ->
  _merge_llama_weights (first :: rest) enable_float32 = Return sd ->
  kind_of key = Some kind -> along_dim1 kind = true ->
  mapM (fun c => dict_get c key) (first :: rest)
  = Return (W2 m0 :: (W2 <$> ms)) ->
  dict_get sd key = Return (W2 (hcat m0 ms)).
Proof.
  intros Hnd Hsd Hkind Hdim Hmats.
  assert (Hfirst : exists w0, dict_get first key = Return w0).
  { cbn [mapM] in Hmats. destruct (dict_get first key) as [w0|e]; [|done].
    by exists w0. }
  destruct Hfirst as [w0 Hfirst].
  destruct (merge_entry _ _ _ _ _ _ _ Hnd Hsd Hkind Hfirst)
    as (tensors & w & Htensors & Hw & Hget).
  rewrite Hmats in Htensors. injection Htensors as <-.
  assert (Hcat : cat (W2 m0 :: (W2 <$> ms)) 1 = Return w).
  { by destruct kind as [[| |]|]. }
  by rewrite <- (cat_columns _ _ _ Hcat).
Qed.

Lemma merge_joins_columns_witness :
  exists sd,
    _merge_llama_weights [example_shard0; example_shard1] false = Return sd /\
    dict_get sd "tok_embeddings.weight"
    = Return (W2 (hcat [[1; 2]; [3; 4]]%Q [[[10; 20]; [30; 40]]%Q])).
Proof.
  eexists. split; [reflexivity|].
  match goal with
  | |- dict_get ?sd _ = _ =>
      exact (merge_joins_columns example_shard0 [example_shard1] false sd
               "tok_embeddings.weight" (Some ParallelEmbedding)
               [[1; 2]; [3; 4]]%Q [[[10; 20]; [30; 40]]%Q]
               ltac:(compute_done) eq_refl eq_refl eq_refl eq_refl)
  end.
Defined.

(** For a replicated weight (the norms and rope.freqs) the merged entry is
    the first shard's tensor, and a merge that returns has found every
    other shard's tensor close to it. *)
Theorem merge_replicated (first : list (string * weight))
    (rest : list (list (string * weight))) (enable_float32 : bool)
    (sd : list (string * weight)) (key : string) (w : weight) :
  NoDup (keys first) ->
  _merge_llama_weights (first :: rest) enable_float32 = Return sd ->
  kind_of key = Some None ->
  dict_get first key = Return w ->
  dict_get sd key = Return w /\
  forall c, c ∈ rest ->
    exists w', dict_get c key = Return w' /\ allclose w w' = Return true.
Proof.
  intros Hnd Hsd Hkind Hfirst.
  destruct (merge_entry _ _ _ _ _ _ _ Hnd Hsd Hkind Hfirst)
    as (tensors & w1 & Htensors & Hw & Hget).
  apply mapM_Forall2 in Htensors.
  apply Forall2_cons_inv_l in Htensors as (t & ts & Ht & Hts & ->).
  rewrite Hfirst in Ht. injection Ht as <-.
  cbn [merge_kind] in Hw.
  destruct (all_close w ts) as [[|]|e] eqn:Hclose; try done.
  rewrite bind_Return in Hw. injection Hw as <-.
  split; [done|]. intros c Hc.
  apply list_elem_of_lookup in Hc as [i Hi].
  destruct (Forall2_lookup_l _ _ _ _ _ Hts Hi) as (w' & Hw' & Hcw').
  exists w'. split; [done|].
  apply (all_close_each _ _ Hclose). by apply list_elem_of_lookup_2 in Hw'.
Qed.

Lemma merge_replicated_witness :
  exists sd,
    _merge_llama_weights [example_shard0; example_shard1] false = Return sd /\
    dict_get sd "layers.0.attention_norm.weight" = Return (W1 [1; 1]%Q) /\
    forall c, c ∈ [example_shard1] ->
      exists w', dict_get c "layers.0.attention_norm.weight" = Return w' /\
                 allclose (W1 [1; 1]%Q) w' = Return true.
Proof.
  eexists. split; [reflexivity|].
  match goal with
  | |- dict_get ?sd _ = _ /\ _ =>
      exact (merge_replicated example_shard0 [example_shard1] false sd
               "layers.0.attention_norm.weight" (W1 [1; 1]%Q)
               ltac:(compute_done) eq_refl eq_refl eq_refl)
  end.
Defined.

(** A merge that returns has found, under every key of the first
    checkpoint, tensors of one shape in all the shards; this holds for the
    keys it then drops as well. *)
Theorem merge_needs_same_shapes (first : list (string * weight))
    (rest : list (list (string * weight))) (enable_float32 : bool)
    (sd : list (string * weight)) (key : string) (w : weight)
    (c : list (string * weight)) :
  _merge_llama_weights (first :: rest) enable_float32 = Return sd ->
  dict_get first key = Return w ->
  c ∈ rest ->
  exists w', dict_get c key = Return w' /\ wshape w' = wshape w.
Proof.
  intros Hsd Hfirst Hc. unfold _merge_llama_weights in Hsd.
  destruct (_checkpoints_have_same_weight_keys (first :: rest)); [|done].
  cbn [negb] in Hsd.
  pose proof (dict_get_elem _ _ _ Hfirst) as Hin.
  destruct (merge_keys_each _ _ key _ _ _ Hsd Hin) as [r Hr].
  destruct (merge_key_tensors _ _ _ _ Hr) as (tensors & Htensors & Hshape).
  apply mapM_Forall2 in Htensors.
  apply Forall2_cons_inv_l in Htensors as (t & ts & Ht & Hts & ->).
  rewrite Hfirst in Ht. injection Ht as <-.
  apply list_elem_of_lookup in Hc as [i Hi].
  destruct (Forall2_lookup_l _ _ _ _ _ Hts Hi) as (w' & Hw' & Hcw').
  exists w'. split; [done|].
  apply (same_shape_agree (w :: ts)); [done| |apply list_elem_of_here].
  apply list_elem_of_further. by apply list_elem_of_lookup_2 in Hw'.
Qed.

Lemma merge_needs_same_shapes_witness :
  exists w', dict_get example_shard1 "extra" = Return w' /\
             wshape w' = wshape (W1 [9]%Q).
Proof.
  eapply (merge_needs_same_shapes example_shard0 [example_shard1] false).
  - reflexivity.
  - reflexivity.
  - apply list_elem_of_here.
Defined.

End MergeFacts.
